(** * NoBorders: the window-state engine of [fullscreen.py]

    A shallow embedding of the borderless-fullscreen engine: the
    style/geometry cache [window_style_cache], the per-process preference
    table [last_fullscreen_by_pid], the membership set
    [App.fullscreen_hwnds], the two engine operations
    [set_borderless_fullscreen] / [revert_to_windowed], the window
    enumerator [enum_windows] and the reconciliation pass
    [App.update_windows_lists].

    The Python code talks to the operating system through [win32gui],
    [win32process], [win32api] and [psutil].  Those calls are modelled by a
    small simulated desktop ([OS]) whose calls may raise: every win32 call
    consumes one entry of a fault script, so that a call can fail at any
    point of a run, and a call on a handle that denotes no window raises as
    well.  Python exceptions keep whatever was mutated before they were
    raised; the monad [M] below therefore returns the new state together
    with either a value or an exception. *)

From Stdlib Require Import ZArith String Ascii List Lia.
From stdpp Require Import base gmap sets list strings.

Local Open Scope string_scope.
Local Open Scope list_scope.
Local Open Scope Z_scope.

(** ** Data model *)

(** A rectangle is the Python 4-tuple [(left, top, right, bottom)]. *)
Abbreviation Rect := (Z * Z * Z * Z)%type.

(** A cache entry is the Python 3-tuple [(style, exstyle, rect)]. *)
Abbreviation Snapshot := (Z * Z * Rect)%type.

(** [class WindowInfo]: the four attributes start as [None]. *)
Record WindowInfo := mkWindowInfo {
  hwnd : Z;
  pid : option Z;
  process_name : option string;
  title : option string
}.

Inductive ListKind := windowed | fullscreen.

#[global] Instance ListKind_eq_dec : EqDecision ListKind.
Proof. solve_decision. Defined.

(** The part of [class App] the engine reads and writes.  The Tk widgets
    themselves (list boxes, buttons, status label) are not modelled. *)
Record App := mkApp {
  windowed_windows : list WindowInfo;
  fullscreen_windows : list WindowInfo;
  fullscreen_hwnds : gset Z;
  selected_hwnd : option Z;
  selected_list : option ListKind;
  is_minimized : bool
}.

(** ** The simulated desktop *)

Record Window := mkWindow {
  win_style : Z;
  win_exstyle : Z;
  win_rect : Rect;
  win_owner : option Z;      (* owning process id; [None]: not resolvable *)
  win_visible : bool;
  win_text : string
}.

(** What [psutil.Process(pid).name()] answers for a live process. *)
Inductive ProcEntry := ProcName (n : string) | ProcDenied.

Record OS := mkOS {
  os_windows : gmap Z Window;
  os_processes : gmap Z ProcEntry;
  os_screen : Z * Z;             (* SM_CXSCREEN, SM_CYSCREEN *)
  os_faults : list bool          (* fault script: [true] makes the next call raise *)
}.

(** The module globals, the application object and the desktop.
    [invocations] is a ghost log: [set_borderless_fullscreen] records its
    arguments there on entry, nothing reads it. *)
Record World := mkWorld {
  os : OS;
  window_style_cache : gmap Z Snapshot;
  last_fullscreen_by_pid : list (Z * (string * option Rect));
  self : App;
  invocations : list (Z * option Rect)
}.

Definition set_os (o : OS) (σ : World) : World :=
  mkWorld o (window_style_cache σ) (last_fullscreen_by_pid σ) (self σ) (invocations σ).
Definition set_cache (c : gmap Z Snapshot) (σ : World) : World :=
  mkWorld (os σ) c (last_fullscreen_by_pid σ) (self σ) (invocations σ).
Definition set_prefs (d : list (Z * (string * option Rect))) (σ : World) : World :=
  mkWorld (os σ) (window_style_cache σ) d (self σ) (invocations σ).
Definition set_self (a : App) (σ : World) : World :=
  mkWorld (os σ) (window_style_cache σ) (last_fullscreen_by_pid σ) a (invocations σ).
Definition set_invocations (l : list (Z * option Rect)) (σ : World) : World :=
  mkWorld (os σ) (window_style_cache σ) (last_fullscreen_by_pid σ) (self σ) l.

Definition set_fullscreen_hwnds (s : gset Z) (a : App) : App :=
  mkApp (windowed_windows a) (fullscreen_windows a) s
        (selected_hwnd a) (selected_list a) (is_minimized a).
Definition set_lists (ws fs : list WindowInfo) (a : App) : App :=
  mkApp ws fs (fullscreen_hwnds a) (selected_hwnd a) (selected_list a) (is_minimized a).
Definition set_selection (h : option Z) (k : option ListKind) (a : App) : App :=
  mkApp (windowed_windows a) (fullscreen_windows a) (fullscreen_hwnds a) h k (is_minimized a).
Definition set_is_minimized (b : bool) (a : App) : App :=
  mkApp (windowed_windows a) (fullscreen_windows a) (fullscreen_hwnds a)
        (selected_hwnd a) (selected_list a) b.

(** ** Python dictionaries that are iterated: insertion-ordered *)

Section Dict.
Context {V : Type}.

Fixpoint dict_get (d : list (Z * V)) (k : Z) : option V :=
  match d with
  | [] => None
  | (k', v) :: d' => if Z.eqb k k' then Some v else dict_get d' k
  end.

(** [d[k] = v]: an existing key keeps its position, a new one goes last. *)
Fixpoint dict_set (d : list (Z * V)) (k : Z) (v : V) : list (Z * V) :=
  match d with
  | [] => [(k, v)]
  | (k', v') :: d' => if Z.eqb k k' then (k, v) :: d' else (k', v') :: dict_set d' k v
  end.

(** [del d[k]] (callers check or catch the missing key). *)
Fixpoint dict_del (d : list (Z * V)) (k : Z) : list (Z * V) :=
  match d with
  | [] => []
  | (k', v') :: d' => if Z.eqb k k' then dict_del d' k else (k', v') :: dict_del d' k
  end.

Definition dict_keys (d : list (Z * V)) : list Z := map fst d.

Definition dict_mem (d : list (Z * V)) (k : Z) : bool :=
  match dict_get d k with Some _ => true | None => false end.
End Dict.

(** ** Exceptions and the state monad *)

Inductive exn := Win32Error | NoSuchProcess | AccessDenied | PsutilError.

Inductive result (A : Type) : Type :=
| Ok (a : A)
| Raise (e : exn).
Arguments Ok {A} a.
Arguments Raise {A} e.

Definition M (A : Type) : Type := World -> result A * World.

Definition ret {A} (a : A) : M A := fun σ => (Ok a, σ).

Definition bind {A B} (m : M A) (k : A -> M B) : M B := fun σ =>
  match m σ with
  | (Ok a, σ') => k a σ'
  | (Raise e, σ') => (Raise e, σ')
  end.

Definition raise {A} (e : exn) : M A := fun σ => (Raise e, σ).

(** [try: m  except Exception: h] *)
Definition try_except {A} (m : M A) (h : M A) : M A := fun σ =>
  match m σ with
  | (Ok a, σ') => (Ok a, σ')
  | (Raise _, σ') => h σ'
  end.

(** [try: m  except (psutil.NoSuchProcess, psutil.AccessDenied): h] *)
Definition try_except_psutil {A} (m : M A) (h : M A) : M A := fun σ =>
  match m σ with
  | (Ok a, σ') => (Ok a, σ')
  | (Raise NoSuchProcess, σ') | (Raise AccessDenied, σ') => h σ'
  | (Raise e, σ') => (Raise e, σ')
  end.

Definition gets {A} (f : World -> A) : M A := fun σ => (Ok (f σ), σ).
Definition modify (f : World -> World) : M unit := fun σ => (Ok tt, f σ).

Declare Scope py_scope.
Delimit Scope py_scope with py.
Notation "x <- m ;; k" := (bind m (fun x => k))
  (at level 100, m at next level, k at level 200, right associativity) : py_scope.
Notation "m ;; k" := (bind m (fun _ => k))
  (at level 100, k at level 200, right associativity) : py_scope.
Local Open Scope py_scope.

(** [for x in l: body x]; an exception leaves the loop. *)
Fixpoint for_each {A} (l : list A) (body : A -> M unit) : M unit :=
  match l with
  | [] => ret tt
  | x :: l' => body x ;; for_each l' body
  end.

(** ** The operating-system calls *)

(** The fault script is read from its head; an exhausted script injects no
    fault. *)
Definition fault_now (o : OS) : bool := hd false (os_faults o).

Definition consume (o : OS) : OS :=
  mkOS (os_windows o) (os_processes o) (os_screen o) (tl (os_faults o)).

(** A win32 call: raises when the fault script says so, otherwise runs [f]
    on the desktop. *)
Definition win32 {A} (f : OS -> result A * OS) : M A := fun σ =>
  if fault_now (os σ) then (Raise Win32Error, set_os (consume (os σ)) σ)
  else let '(r, o') := f (consume (os σ)) in (r, set_os o' σ).

(** A query on one window; an invalid handle raises. *)
Definition query {A} (h : Z) (f : Window -> result A) : M A :=
  win32 (fun o => match os_windows o !! h with
                  | Some w => (f w, o)
                  | None => (Raise Win32Error, o)
                  end).

(** An update of one window; an invalid handle raises. *)
Definition update (h : Z) (f : Window -> Window) : M unit :=
  win32 (fun o => match os_windows o !! h with
                  | Some w => (Ok tt, mkOS (<[h := f w]> (os_windows o)) (os_processes o)
                                           (os_screen o) (os_faults o))
                  | None => (Raise Win32Error, o)
                  end).

Definition GWL_STYLE : Z := -16.
Definition GWL_EXSTYLE : Z := -20.

Definition WS_BORDER : Z := 0x00800000.
Definition WS_DLGFRAME : Z := 0x00400000.
Definition WS_CAPTION : Z := Z.lor WS_BORDER WS_DLGFRAME.
Definition WS_SYSMENU : Z := 0x00080000.
Definition WS_THICKFRAME : Z := 0x00040000.
Definition WS_MINIMIZEBOX : Z := 0x00020000.
Definition WS_MAXIMIZEBOX : Z := 0x00010000.

Definition WS_EX_DLGMODALFRAME : Z := 0x00000001.
Definition WS_EX_CLIENTEDGE : Z := 0x00000200.
Definition WS_EX_STATICEDGE : Z := 0x00020000.

Definition HWND_TOP : Z := 0.
Definition SWP_NOZORDER : Z := 0x0004.
Definition SWP_FRAMECHANGED : Z := 0x0020.
Definition SWP_SHOWWINDOW : Z := 0x0040.
Definition SM_CXSCREEN : Z := 0.
Definition SM_CYSCREEN : Z := 1.

Definition GetWindowLong (h : Z) (nIndex : Z) : M Z :=
  query h (fun w => if Z.eqb nIndex GWL_STYLE then Ok (win_style w)
                    else if Z.eqb nIndex GWL_EXSTYLE then Ok (win_exstyle w)
                    else Raise Win32Error).

Definition SetWindowLong (h : Z) (nIndex : Z) (v : Z) : M unit :=
  if Z.eqb nIndex GWL_STYLE then
    update h (fun w => mkWindow v (win_exstyle w) (win_rect w) (win_owner w)
                                (win_visible w) (win_text w))
  else if Z.eqb nIndex GWL_EXSTYLE then
    update h (fun w => mkWindow (win_style w) v (win_rect w) (win_owner w)
                                (win_visible w) (win_text w))
  else win32 (fun o => (Raise Win32Error, o)).

Definition GetWindowRect (h : Z) : M Rect := query h (fun w => Ok (win_rect w)).

(** [SetWindowPos(hwnd, after, x, y, cx, cy, flags)]: moves and sizes the
    window; [SWP_SHOWWINDOW] shows it.  The z-order is not modelled. *)
Definition SetWindowPos (h : Z) (after x y cx cy flags : Z) : M unit :=
  update h (fun w => mkWindow (win_style w) (win_exstyle w) (x, y, x + cx, y + cy)
                              (win_owner w)
                              (win_visible w || negb (Z.eqb (Z.land flags SWP_SHOWWINDOW) 0))
                              (win_text w)).

(** [win32process.GetWindowThreadProcessId]: the thread id is always
    discarded by the callers ([_, pid = ...]); only the pid is returned. *)
Definition GetWindowThreadProcessId (h : Z) : M Z :=
  query h (fun w => match win_owner w with Some p => Ok p | None => Raise Win32Error end).

Definition IsWindowVisible (h : Z) : M bool := query h (fun w => Ok (win_visible w)).
Definition GetWindowText (h : Z) : M string := query h (fun w => Ok (win_text w)).

Definition GetSystemMetrics (nIndex : Z) : M Z :=
  gets (fun σ => if Z.eqb nIndex SM_CXSCREEN then fst (os_screen (os σ))
                 else if Z.eqb nIndex SM_CYSCREEN then snd (os_screen (os σ)) else 0).

(** [psutil.Process(pid).name()] *)
Definition psutil_Process_name (p : Z) : M string := fun σ =>
  (if fault_now (os σ) then Raise PsutilError
   else match os_processes (os σ) !! p with
        | Some (ProcName n) => Ok n
        | Some ProcDenied => Raise AccessDenied
        | None => Raise NoSuchProcess
        end, set_os (consume (os σ)) σ).

Definition pid_exists (p : Z) : M bool :=
  gets (fun σ => bool_decide (is_Some (os_processes (os σ) !! p))).

(** ** [str.isspace] on the characters a [string] can hold (Latin-1) *)

Definition char_isspace (c : ascii) : bool :=
  let n := N_of_ascii c in
  ((9 <=? n) && (n <=? 13) || (28 <=? n) && (n <=? 32) || (n =? 133) || (n =? 160))%N.

Fixpoint all_space (s : string) : bool :=
  match s with
  | EmptyString => true
  | String c s' => char_isspace c && all_space s'
  end.

Definition isspace (s : string) : bool :=
  match s with
  | EmptyString => false
  | _ => all_space s
  end.

(** ** [class WindowInfo] *)

(** [WindowInfo.get_process_info]; the object is returned with its
    attributes filled in.  Neither [try] lets an exception out. *)
Definition get_process_info (hwnd : Z) : M WindowInfo :=
  title <- try_except (GetWindowText hwnd) (ret "") ;;
  pp <- try_except
          (pid <- GetWindowThreadProcessId hwnd ;;
           process_name <- try_except_psutil (psutil_Process_name pid) (ret "Unknown") ;;
           ret (Some pid, Some process_name))
          (ret (None, Some "Unknown")) ;;
  ret (mkWindowInfo hwnd (fst pp) (snd pp) (Some title)).

(** [WindowInfo(hwnd)] *)
Definition WindowInfo_new (hwnd : Z) : M WindowInfo := get_process_info hwnd.

(** ** [enum_windows] *)

(** The closure [callback] of [enum_windows]; the list [windows] it appends
    to is passed through.  ([h] is the source's [hwnd], [text] its [title].) *)
Definition callback (h : Z) (windows : list WindowInfo) : M (list WindowInfo) :=
  try_except
    (v <- IsWindowVisible h ;;
     if negb v then ret windows else
     text <- GetWindowText h ;;
     if String.eqb text "" || isspace text then ret windows else
     wi <- WindowInfo_new h ;;
     match pid wi with
     | None => ret windows
     | Some _ =>
         let wi := match process_name wi with
                   | None | Some "" =>
                       mkWindowInfo (hwnd wi) (pid wi) (Some "Unknown") (title wi)
                   | Some _ => wi
                   end in
         ret (windows ++ [wi])
     end)
    (ret windows).

Fixpoint EnumWindows_from (hs : list Z)
    (cb : Z -> list WindowInfo -> M (list WindowInfo))
    (windows : list WindowInfo) : M (list WindowInfo) :=
  match hs with
  | [] => ret windows
  | h :: hs' => ws <- cb h windows ;; EnumWindows_from hs' cb ws
  end.

(** [win32gui.EnumWindows]: calls [cb] on every top-level window of the
    desktop. *)
Definition EnumWindows (cb : Z -> list WindowInfo -> M (list WindowInfo))
    (windows : list WindowInfo) : M (list WindowInfo) :=
  hs <- win32 (fun o => (Ok (fst <$> map_to_list (os_windows o)), o)) ;;
  EnumWindows_from hs cb windows.

Definition enum_windows : M (list WindowInfo) :=
  try_except (EnumWindows callback []) (ret []).

(** ** The transform engine *)

(** [new_style &= ~(WS_CAPTION | WS_THICKFRAME | WS_MINIMIZEBOX | WS_MAXIMIZEBOX | WS_SYSMENU)] *)
Definition strip_style (new_style : Z) : Z :=
  Z.land new_style
    (Z.lnot (Z.lor (Z.lor (Z.lor (Z.lor WS_CAPTION WS_THICKFRAME) WS_MINIMIZEBOX)
                          WS_MAXIMIZEBOX) WS_SYSMENU)).

(** [new_exstyle &= ~(WS_EX_DLGMODALFRAME | WS_EX_CLIENTEDGE | WS_EX_STATICEDGE)] *)
Definition strip_exstyle (new_exstyle : Z) : Z :=
  Z.land new_exstyle
    (Z.lnot (Z.lor (Z.lor WS_EX_DLGMODALFRAME WS_EX_CLIENTEDGE) WS_EX_STATICEDGE)).

(** [set_borderless_fullscreen], first block: cache the original style if
    the handle is not cached. *)
Definition cache_original_style (hwnd : Z) : M unit :=
  cache <- gets window_style_cache ;;
  match cache !! hwnd with
  | Some _ => ret tt
  | None =>
      style <- GetWindowLong hwnd GWL_STYLE ;;
      exstyle <- GetWindowLong hwnd GWL_EXSTYLE ;;
      rect <- GetWindowRect hwnd ;;
      modify (fun σ => set_cache (<[hwnd := (style, exstyle, rect)]> (window_style_cache σ)) σ)
  end.

(** Second block: store the pid mapping for auto-reapply. *)
Definition store_pid_mapping (hwnd : Z) (monitor_rect : option Rect) : M unit :=
  pid <- try_except (p <- GetWindowThreadProcessId hwnd ;; ret (Some p)) (ret None) ;;
  match pid with
  | Some pid =>
      if Z.eqb pid 0 then ret tt else
      pname <- try_except_psutil (psutil_Process_name pid) (ret "Unknown") ;;
      modify (fun σ => set_prefs (dict_set (last_fullscreen_by_pid σ) pid (pname, monitor_rect)) σ)
  | None => ret tt
  end.

(** Third block: remove the border and caption styles, then resize. *)
Definition strip_and_resize (hwnd : Z) (monitor_rect : option Rect) : M unit :=
  new_style <- GetWindowLong hwnd GWL_STYLE ;;
  new_exstyle <- GetWindowLong hwnd GWL_EXSTYLE ;;
  SetWindowLong hwnd GWL_STYLE (strip_style new_style) ;;
  SetWindowLong hwnd GWL_EXSTYLE (strip_exstyle new_exstyle) ;;
  geom <- match monitor_rect with
          | Some (l, t, r, b) => ret (l, t, r - l, b - t)
          | None =>
              width <- GetSystemMetrics SM_CXSCREEN ;;
              height <- GetSystemMetrics SM_CYSCREEN ;;
              ret (0, 0, width, height)
          end ;;
  let '(l, t, width, height) := geom in
  SetWindowPos hwnd HWND_TOP l t width height
    (Z.lor (Z.lor SWP_FRAMECHANGED SWP_NOZORDER) SWP_SHOWWINDOW).

Definition set_borderless_fullscreen (hwnd : Z) (monitor_rect : option Rect) : M unit :=
  modify (fun σ => set_invocations (invocations σ ++ [(hwnd, monitor_rect)]) σ) ;;
  cache_original_style hwnd ;;
  store_pid_mapping hwnd monitor_rect ;;
  strip_and_resize hwnd monitor_rect.

Definition revert_to_windowed (hwnd : Z) : M unit :=
  cache <- gets window_style_cache ;;
  match cache !! hwnd with
  | None => ret tt
  | Some (style, exstyle, rect) =>
      modify (fun σ => set_cache (delete hwnd (window_style_cache σ)) σ) ;;
      try_except
        (SetWindowLong hwnd GWL_STYLE style ;;
         SetWindowLong hwnd GWL_EXSTYLE exstyle)
        (ret tt) ;;
      (let '(l, t, r, b) := rect in
       try_except
         (SetWindowPos hwnd HWND_TOP l t (r - l) (b - t)
            (Z.lor (Z.lor SWP_FRAMECHANGED SWP_NOZORDER) SWP_SHOWWINDOW))
         (ret tt)) ;;
      try_except
        (pid <- GetWindowThreadProcessId hwnd ;;
         prefs <- gets last_fullscreen_by_pid ;;
         if negb (Z.eqb pid 0) && dict_mem prefs pid
         then modify (fun σ => set_prefs (dict_del (last_fullscreen_by_pid σ) pid) σ)
         else ret tt)
        (ret tt)
  end.

(** ** [class App]: the membership set and the two published lists *)

(** The [for i, win in enumerate(l): if win.hwnd == h: l.pop(i); ...; break]
    of the two [move_window_to_*] methods: the first record with handle [h]
    and the list without it. *)
Fixpoint pop_first (h : Z) (l : list WindowInfo) : option (WindowInfo * list WindowInfo) :=
  match l with
  | [] => None
  | win :: l' =>
      if Z.eqb (hwnd win) h then Some (win, l')
      else match pop_first h l' with
           | Some (win_to_move, rest) => Some (win_to_move, win :: rest)
           | None => None
           end
  end.

(** [App.move_window_to_fullscreen].  After the move the method selects the
    moved entry in the fullscreen list box and calls [on_fullscreen_select],
    which sets [selected_hwnd] and [selected_list]. *)
Definition move_window_to_fullscreen (h : Z) : M unit :=
  a <- gets self ;;
  match pop_first h (windowed_windows a) with
  | None => ret tt
  | Some (win_to_move, rest) =>
      modify (set_self (mkApp rest (fullscreen_windows a ++ [win_to_move])
                              ({[h]} ∪ fullscreen_hwnds a)
                              (Some (hwnd win_to_move)) (Some fullscreen) (is_minimized a)))
  end.

(** [App.move_window_to_windowed] *)
Definition move_window_to_windowed (h : Z) : M unit :=
  a <- gets self ;;
  match pop_first h (fullscreen_windows a) with
  | None => ret tt
  | Some (win_to_move, rest) =>
      modify (set_self (mkApp (windowed_windows a ++ [win_to_move]) rest
                              (fullscreen_hwnds a ∖ {[h]})
                              (Some (hwnd win_to_move)) (Some windowed) (is_minimized a)))
  end.

(** [if self.selected_hwnd and self.selected_list == kind]: the handle the
    action applies to, if any. *)
Definition selected_in (kind : ListKind) (a : App) : option Z :=
  match selected_hwnd a, selected_list a with
  | Some h, Some k =>
      if negb (Z.eqb h 0) && bool_decide (k = kind) then Some h else None
  | _, _ => None
  end.

(** [App.make_fullscreen]; the handler of the [try] shows a message box. *)
Definition make_fullscreen : M unit :=
  a <- gets self ;;
  match selected_in windowed a with
  | Some h =>
      try_except (set_borderless_fullscreen h None ;; move_window_to_fullscreen h) (ret tt)
  | None => ret tt
  end.

(** [App.context_make_borderless] *)
Definition context_make_borderless : M unit :=
  a <- gets self ;;
  match selected_in windowed a with
  | Some h =>
      try_except (set_borderless_fullscreen h None ;; move_window_to_fullscreen h) (ret tt)
  | None => ret tt
  end.

(** [App.context_make_borderless_on_monitor] *)
Definition context_make_borderless_on_monitor (monitor_rect : Rect) : M unit :=
  a <- gets self ;;
  match selected_in windowed a with
  | Some h =>
      try_except (set_borderless_fullscreen h (Some monitor_rect) ;;
                  move_window_to_fullscreen h) (ret tt)
  | None => ret tt
  end.

(** [App.revert_windowed] *)
Definition revert_windowed : M unit :=
  a <- gets self ;;
  match selected_in fullscreen a with
  | Some h => try_except (revert_to_windowed h ;; move_window_to_windowed h) (ret tt)
  | None => ret tt
  end.

(** [App.context_revert_to_normal] *)
Definition context_revert_to_normal : M unit :=
  a <- gets self ;;
  match selected_in fullscreen a with
  | Some h => try_except (revert_to_windowed h ;; move_window_to_windowed h) (ret tt)
  | None => ret tt
  end.

(** ** [App.update_windows_lists]: the reconciliation pass *)

(** [pid_to_windows.setdefault(w.pid, []).append(w)] *)
Definition setdefault_append (pid_to_windows : gmap (option Z) (list WindowInfo))
    (w : WindowInfo) : gmap (option Z) (list WindowInfo) :=
  <[pid w := default [] (pid_to_windows !! pid w) ++ [w]]> pid_to_windows.

Definition build_pid_to_windows (windows : list WindowInfo)
    : gmap (option Z) (list WindowInfo) :=
  fold_left setdefault_append windows ∅.

(** Truth value of [expected_name]: neither [None] nor the empty string. *)
Definition truthy (s : option string) : bool :=
  match s with
  | None | Some "" => false
  | Some _ => true
  end.

(** Body of the inner loop of the auto-reapply step, for the record [w] of
    the pid [p] under examination. *)
Definition reapply_window (p : Z) (w : WindowInfo) : M unit :=
  prefs <- gets last_fullscreen_by_pid ;;
  let '(expected_name, monitor_rect) :=
    match dict_get prefs p with
    | Some (n, r) => (Some n, r)
    | None => (None, None)
    end in
  if truthy expected_name && bool_decide (expected_name = process_name w) then
    a <- gets self ;;
    cache <- gets window_style_cache ;;
    if bool_decide (hwnd w ∉ fullscreen_hwnds a) && bool_decide (cache !! hwnd w = None) then
      try_except
        (set_borderless_fullscreen (hwnd w) monitor_rect ;;
         modify (fun σ => set_self (set_fullscreen_hwnds
                                      ({[hwnd w]} ∪ fullscreen_hwnds (self σ)) (self σ)) σ))
        (ret tt)
    else ret tt
  else ret tt.

(** Body of the outer loop, for one pid of [pids_to_check]. *)
Definition reapply_pid (pid_to_windows : gmap (option Z) (list WindowInfo)) (p : Z) : M unit :=
  try_except
    (match pid_to_windows !! Some p with
     | Some ws => for_each ws (reapply_window p)
     | None => ret tt
     end)
    (ret tt).

(** The auto-reapply step. *)
Definition reapply (windows : list WindowInfo) : M unit :=
  let pid_to_windows := build_pid_to_windows windows in
  pids_to_check <- gets (fun σ => dict_keys (last_fullscreen_by_pid σ)) ;;
  for_each pids_to_check (reapply_pid pid_to_windows).

(** The classification loop; [acc] is [(new_windowed, new_fullscreen, new_hwnds)]. *)
Fixpoint classify (windows : list WindowInfo)
    (acc : list WindowInfo * list WindowInfo * gset Z)
    : M (list WindowInfo * list WindowInfo * gset Z) :=
  match windows with
  | [] => ret acc
  | w :: ws =>
      is_tracked_fullscreen <-
        gets (fun σ => bool_decide (hwnd w ∈ fullscreen_hwnds (self σ))
                       && bool_decide (is_Some (window_style_cache σ !! hwnd w))) ;;
      let '(new_windowed, new_fullscreen, new_hwnds) := acc in
      classify ws (if is_tracked_fullscreen : bool
                   then (new_windowed, new_fullscreen ++ [w], {[hwnd w]} ∪ new_hwnds)
                   else (new_windowed ++ [w], new_fullscreen, new_hwnds))
  end.

(** Cleanup of the closed windows: [del window_style_cache[hwnd]] for every
    closed handle, then [fullscreen_hwnds.difference_update(closed_hwnds)]. *)
Definition cleanup_closed (new_hwnds : gset Z) : M unit :=
  closed_hwnds <- gets (fun σ => fullscreen_hwnds (self σ) ∖ new_hwnds) ;;
  if bool_decide (closed_hwnds = ∅) then ret tt else
  modify (fun σ => set_cache (foldr delete (window_style_cache σ) (elements closed_hwnds)) σ) ;;
  modify (fun σ => set_self (set_fullscreen_hwnds
                               (fullscreen_hwnds (self σ) ∖ closed_hwnds) (self σ)) σ).

Fixpoint collect_dead (pids : list Z) (pids_to_remove : list Z) : M (list Z) :=
  match pids with
  | [] => ret pids_to_remove
  | p :: ps =>
      alive <- pid_exists p ;;
      collect_dead ps (if alive : bool then pids_to_remove else pids_to_remove ++ [p])
  end.

(** Removal of the preferences of the processes that no longer exist. *)
Definition cleanup_pids : M unit :=
  pids <- gets (fun σ => dict_keys (last_fullscreen_by_pid σ)) ;;
  pids_to_remove <- collect_dead pids [] ;;
  for_each pids_to_remove
    (fun p => modify (fun σ => set_prefs (dict_del (last_fullscreen_by_pid σ) p) σ)).

(** "Restore previous selection if still valid". *)
Definition restore_selection (prev_selected_hwnd : option Z)
    (prev_selected_list : option ListKind) (a : App) : App :=
  match prev_selected_hwnd, prev_selected_list with
  | Some h, Some k =>
      let l := match k with
               | windowed => windowed_windows a
               | fullscreen => fullscreen_windows a
               end in
      if existsb (fun win => Z.eqb (hwnd win) h) l
      then set_selection (Some h) (Some k) a
      else set_selection None None a
  | _, _ => set_selection None None a
  end.

Definition update_windows_lists (windows : list WindowInfo) : M unit :=
  prev_selected_hwnd <- gets (fun σ => selected_hwnd (self σ)) ;;
  prev_selected_list <- gets (fun σ => selected_list (self σ)) ;;
  reapply windows ;;
  parts <- classify windows ([], [], ∅) ;;
  let '(new_windowed, new_fullscreen, new_hwnds) := parts in
  cleanup_closed new_hwnds ;;
  cleanup_pids ;;
  modify (fun σ => set_self (set_lists new_windowed new_fullscreen (self σ)) σ) ;;
  modify (fun σ => set_self (restore_selection prev_selected_hwnd prev_selected_list (self σ)) σ).

(** ** The refresh timer *)

(** [App.refresh_windows]: [async_enum_windows] enumerates and hands the
    result to [update_windows_lists]; the two steps are run in sequence. *)
Definition refresh_windows : M unit :=
  windows <- enum_windows ;;
  update_windows_lists windows.

(** [App.update_windows_periodically]; the value returned is the delay, in
    milliseconds, given to [self.after] for the next call. *)
Definition update_windows_periodically : M Z :=
  minimized <- gets (fun σ => is_minimized (self σ)) ;;
  (if negb minimized then refresh_windows else ret tt) ;;
  let delay := if negb minimized then 3000 else 10000 in
  ret delay.

(** [App.on_minimize]; [state] is what [self.state()] returns. *)
Definition on_minimize (state : string) : M unit :=
  if String.eqb state "iconic"
  then modify (fun σ => set_self (set_is_minimized true (self σ)) σ)
  else ret tt.

(** [App.on_restore]; returns the delay of the extra [self.after] call. *)
Definition on_restore : M (option Z) :=
  minimized <- gets (fun σ => is_minimized (self σ)) ;;
  if minimized : bool
  then (modify (fun σ => set_self (set_is_minimized false (self σ)) σ) ;; ret (Some 100))
  else ret None.

(** ** The other actions of [class App] *)

(** [App.on_windowed_select]; [sel] is [self.listbox_windowed.curselection()],
    of which only the first index is read ([None]: the empty tuple). *)
Definition on_windowed_select (sel : option Z) : M unit :=
  a <- gets self ;;
  match sel with
  | Some idx =>
      if Z.ltb idx 0 || Z.leb (Z.of_nat (length (windowed_windows a))) idx
      then modify (fun σ => set_self (set_selection None None (self σ)) σ)
      else match nth_error (windowed_windows a) (Z.to_nat idx) with
           | Some win =>
               modify (fun σ => set_self (set_selection (Some (hwnd win)) (Some windowed)
                                                        (self σ)) σ)
           | None => raise Win32Error   (* IndexError; excluded by the test above *)
           end
  | None => modify (fun σ => set_self (set_selection None None (self σ)) σ)
  end.

(** [App.on_fullscreen_select] *)
Definition on_fullscreen_select (sel : option Z) : M unit :=
  a <- gets self ;;
  match sel with
  | Some idx =>
      if Z.ltb idx 0 || Z.leb (Z.of_nat (length (fullscreen_windows a))) idx
      then modify (fun σ => set_self (set_selection None None (self σ)) σ)
      else match nth_error (fullscreen_windows a) (Z.to_nat idx) with
           | Some win =>
               modify (fun σ => set_self (set_selection (Some (hwnd win)) (Some fullscreen)
                                                        (self σ)) σ)
           | None => raise Win32Error   (* IndexError; excluded by the test above *)
           end
  | None => modify (fun σ => set_self (set_selection None None (self σ)) σ)
  end.

(** [App.context_change_display]: moves the selected borderless window to
    another monitor; the handler of the [try] shows a message box. *)
Definition context_change_display (monitor_rect : Rect) : M unit :=
  a <- gets self ;;
  match selected_in fullscreen a with
  | Some h =>
      try_except
        (let '(l, t, r, b) := monitor_rect in
         SetWindowPos h HWND_TOP l t (r - l) (b - t)
           (Z.lor (Z.lor SWP_NOZORDER SWP_FRAMECHANGED) SWP_SHOWWINDOW))
        (ret tt)
  | None => ret tt
  end.

(** ** [App.get_monitors] *)

(** What [win32api.GetMonitorInfo] answers for one monitor: the entries
    ["Device"] and ["Monitor"] of the dictionary, [None] for a missing key.
    The list of the monitors of the desktop is a parameter of the calls
    below. *)
Record MonitorInfo := mkMonitorInfo {
  mi_device : option string;
  mi_monitor : option Rect
}.

Definition EnumDisplayMonitors (displays : list MonitorInfo) : M (list MonitorInfo) :=
  win32 (fun o => (Ok displays, o)).

Definition GetMonitorInfo (hMonitor : MonitorInfo) : M MonitorInfo :=
  win32 (fun o => (Ok hMonitor, o)).

(** The loop of [get_monitors].  [monitors] is the list being filled; an
    exception leaves the loop with what was appended so far, which is why
    the list is returned together with the exception flag. *)
Fixpoint get_monitors_loop (monitor_info : list MonitorInfo)
    (monitors : list (string * Rect)) : M (list (string * Rect) * bool) :=
  match monitor_info with
  | [] => ret (monitors, false)
  | hMonitor :: rest =>
      info <- try_except (i <- GetMonitorInfo hMonitor ;; ret (Some i)) (ret None) ;;
      match info with
      | Some info =>
          let device := default "Unknown" (mi_device info) in
          let rc := default (0, 0, 0, 0) (mi_monitor info) in
          get_monitors_loop rest (monitors ++ [(device, rc)])
      | None => ret (monitors, true)
      end
  end.

Definition get_monitors (displays : list MonitorInfo) : M (list (string * Rect)) :=
  res <- try_except
           (monitor_info <- EnumDisplayMonitors displays ;;
            get_monitors_loop monitor_info [])
           (ret ([], true)) ;;
  let '(monitors, failed) := res in
  if failed : bool then
    cx <- GetSystemMetrics SM_CXSCREEN ;;
    cy <- GetSystemMetrics SM_CYSCREEN ;;
    ret (monitors ++ [("\\.\DISPLAY1", (0, 0, cx, cy))])
  else ret monitors.

(** * Reasoning vocabulary *)

(** The world after a call that only consumed its entry of the fault
    script. *)
Definition tick (σ : World) : World := set_os (consume (os σ)) σ.

(** The world after a successful update of the window [h]. *)
Definition put_window (h : Z) (w : Window) (σ : World) : World :=
  set_os (mkOS (<[h := w]> (os_windows (os σ))) (os_processes (os σ))
               (os_screen (os σ)) (tl (os_faults (os σ)))) σ.

(** [wp m σ Q]: the run of [m] from [σ] ends in a result and a world that
    satisfy [Q].  Runs are total functions, so this is a statement about
    the one run there is. *)
Definition wp {A} (m : M A) (σ : World) (Q : result A -> World -> Prop) : Prop :=
  Q (fst (m σ)) (snd (m σ)).

(** What the desktop never changes during a run: who owns each window and
    the process table. *)
Definition owners (o : OS) : gmap Z (option Z) := win_owner <$> os_windows o.

Definition same_desktop (σ σ' : World) : Prop :=
  owners (os σ') = owners (os σ) ∧
  os_processes (os σ') = os_processes (os σ) ∧
  os_screen (os σ') = os_screen (os σ).

(** Nothing but the desktop differs between [σ] and [σ'], and the desktop
    kept its owners and processes. *)
Definition os_only (σ σ' : World) : Prop :=
  window_style_cache σ' = window_style_cache σ ∧
  last_fullscreen_by_pid σ' = last_fullscreen_by_pid σ ∧
  self σ' = self σ ∧
  invocations σ' = invocations σ ∧
  same_desktop σ σ'.

(** The name [set_borderless_fullscreen] stores for the process [p]. *)
Definition resolved_name (o : OS) (p : Z) : string :=
  match os_processes o !! p with
  | Some (ProcName n) => n
  | _ => "Unknown"
  end.

(** The cache entry made from a window. *)
Definition snapshot_of (w : Window) : Snapshot :=
  (win_style w, win_exstyle w, win_rect w).

(** The rectangle a window covers after [set_borderless_fullscreen]. *)
Definition target_rect (o : OS) (monitor_rect : option Rect) : Rect :=
  match monitor_rect with
  | Some r => r
  | None => (0, 0, fst (os_screen o), snd (os_screen o))
  end.

(** ** A small desktop used in the examples *)

(** One overlapped window with caption, frame and client edge, owned by
    process 5. *)
Definition demo_window : Window :=
  mkWindow 0x14CF0000 0x00000300 (10, 20, 810, 620) (Some 5) true "Game".

Definition demo_os (script : list bool) : OS :=
  mkOS {[ 1 := demo_window ]} {[ 5 := ProcName "App.exe" ]} (1920, 1080) script.

Definition empty_app : App := mkApp [] [] ∅ None None false.

(** A freshly started program in front of [demo_os]. *)
Definition demo_world (script : list bool) : World :=
  mkWorld (demo_os script) ∅ [] empty_app [].

(** The three reads of the first block of [set_borderless_fullscreen]
    (style, extended style, rectangle) do not all succeed: the handle
    denotes no window, or the fault script fails one of the three calls. *)
Definition snapshot_read_fails (o : OS) (h : Z) : Prop :=
  os_windows o !! h = None ∨
  fault_now o = true ∨
  fault_now (consume o) = true ∨
  fault_now (consume (consume o)) = true.

(** The chrome bits named by the specification. *)
Definition style_chrome : list Z :=
  [WS_CAPTION; WS_THICKFRAME; WS_MINIMIZEBOX; WS_MAXIMIZEBOX; WS_SYSMENU].

Definition exstyle_chrome : list Z :=
  [WS_EX_DLGMODALFRAME; WS_EX_CLIENTEDGE; WS_EX_STATICEDGE].

(** Fault scripts for a transform of window 1 of [demo_os]: the calls are,
    in order, the three snapshot reads, the owner lookup, the process-name
    lookup, the two style reads, the two style writes and the move. *)
Definition fail_second_style_read : list bool :=
  [false; false; false; false; false; true].

Definition fail_style_write : list bool :=
  [false; false; false; false; false; false; false; true].

(** [demo_world] after a first, successful transform of window 1. *)
Definition demo_transformed : World :=
  snd (set_borderless_fullscreen 1 None (demo_world [])).

(** The record [enum_windows] makes for window 1 of [demo_os]. *)
Definition demo_record : WindowInfo :=
  mkWindowInfo 1 (Some 5) (Some "App.exe") (Some "Game").

(** The program after a refresh, window 1 selected in the windowed list. *)
Definition demo_selected (script : list bool) : World :=
  mkWorld (demo_os script) ∅ []
          (mkApp [demo_record] [] ∅ (Some 1) (Some windowed) false) [].

(** ... and after "Make Fullscreen Borderless" on it. *)
Definition demo_fullscreen : World := snd (make_fullscreen (demo_selected [])).

(** [is_tracked_fullscreen] of the classification loop. *)
Definition tracked (σ : World) (w : WindowInfo) : bool :=
  bool_decide (hwnd w ∈ fullscreen_hwnds (self σ))
  && bool_decide (is_Some (window_style_cache σ !! hwnd w)).

(** [psutil.pid_exists] as a test on the process table. *)
Definition alive (o : OS) (p : Z) : bool :=
  bool_decide (is_Some (os_processes o !! p)).

(** The effect of one examination that called the transform: the record
    [w], examined for the pid [p], was untracked and matched the stored
    name; the transform ran on its handle with the stored rectangle and,
    when it succeeded, the handle joined the membership set. *)
Definition reapplied (p : Z) (w : WindowInfo) (σ σ' : World) : Prop :=
  (hwnd w ∉ fullscreen_hwnds (self σ)) ∧
  window_style_cache σ !! hwnd w = None ∧
  same_desktop σ σ' ∧
  (forall k, k ≠ hwnd w -> window_style_cache σ' !! k = window_style_cache σ !! k) ∧
  (∃ X, self σ' = set_fullscreen_hwnds X (self σ) ∧
        (X = fullscreen_hwnds (self σ) ∨
         (X = {[hwnd w]} ∪ fullscreen_hwnds (self σ) ∧
          is_Some (window_style_cache σ' !! hwnd w)))) ∧
  ∃ n mr,
    dict_get (last_fullscreen_by_pid σ) p = Some (n, mr) ∧
    n ≠ "" ∧
    process_name w = Some n ∧
    invocations σ' = invocations σ ++ [(hwnd w, mr)] ∧
    (last_fullscreen_by_pid σ' = last_fullscreen_by_pid σ ∨
     ∃ q, owners (os σ) !! hwnd w = Some (Some q) ∧ q ≠ 0 ∧
          last_fullscreen_by_pid σ' =
            dict_set (last_fullscreen_by_pid σ) q (resolved_name (os σ) q, mr)).

(** The test the auto-reapply step makes before it transforms the handle of
    the record [w], examined for the pid [p]. *)
Definition due (p : Z) (w : WindowInfo) (σ : World) : Prop :=
  ∃ n mr,
    dict_get (last_fullscreen_by_pid σ) p = Some (n, mr) ∧
    n ≠ "" ∧
    process_name w = Some n ∧
    (hwnd w ∉ fullscreen_hwnds (self σ)) ∧
    window_style_cache σ !! hwnd w = None.

(** One examination: nothing happens when the test fails, the transform
    runs otherwise. *)
Definition examined (p : Z) (w : WindowInfo) (σ σ' : World) : Prop :=
  (σ' = σ ∧ ¬ due p w σ) ∨ reapplied p w σ σ'.

(** What the rest of [update_windows_lists] makes of the world [σ1] the
    auto-reapply step left: the two published lists, the membership set
    and the cache. *)
Definition pass_result (ws : list WindowInfo) (σ1 σ' : World) : Prop :=
  os σ' = os σ1 ∧
  invocations σ' = invocations σ1 ∧
  fullscreen_windows (self σ') = List.filter (tracked σ1) ws ∧
  windowed_windows (self σ') = List.filter (fun w => negb (tracked σ1 w)) ws ∧
  fullscreen_hwnds (self σ') =
    fullscreen_hwnds (self σ1) ∩ list_to_set (hwnd <$> List.filter (tracked σ1) ws) ∧
  forall k, window_style_cache σ' !! k =
            if decide (k ∈ fullscreen_hwnds (self σ1)
                           ∖ list_to_set (hwnd <$> List.filter (tracked σ1) ws))
            then None else window_style_cache σ1 !! k.

(** A world in which handle 1 is a member without a cache entry and
    handle 2 is cached without being a member. *)
Definition demo_inconsistent : World :=
  mkWorld (demo_os []) {[ 2 := (1, 2, (3, 4, 5, 6)) ]} []
          (mkApp [] [demo_record] {[ 1 ]} None None false) [].

(** The record [w] of an enumeration agrees with the desktop [o]: when the
    desktop resolves the handle of [w] to an owning process, it is the
    process of the record and it has the name of the record. *)
Definition os_agrees (o : OS) (w : WindowInfo) : Prop :=
  forall q, owners o !! hwnd w = Some (Some q) -> q ≠ 0 ->
    pid w = Some q ∧ process_name w = Some (resolved_name o q).

(** Two windows of process 5, both enumerated. *)
Definition demo_os2 (script : list bool) : OS :=
  mkOS {[ 1 := demo_window;
          2 := mkWindow 0x14CF0000 0 (0, 0, 640, 480) (Some 5) true "Launcher" ]}
       {[ 5 := ProcName "App.exe" ]} (1920, 1080) script.

Definition demo_records2 : list WindowInfo :=
  [ demo_record; mkWindowInfo 2 (Some 5) (Some "App.exe") (Some "Launcher") ].

(** The program with a preference for process 5 and nothing tracked; the
    first call of the pass fails. *)
Definition demo_preferred (script : list bool) : World :=
  mkWorld (demo_os2 script) ∅ [(5, ("App.exe", Some (1920, 0, 3840, 1080)))]
          empty_app [].

(** A run that only made queries: the windows, the processes and the rest
    of the world are what they were; only the fault script advanced. *)
Definition ticked (σ σ' : World) : Prop :=
  os_windows (os σ') = os_windows (os σ) ∧
  os_processes (os σ') = os_processes (os σ) ∧
  os_screen (os σ') = os_screen (os σ) ∧
  window_style_cache σ' = window_style_cache σ ∧
  last_fullscreen_by_pid σ' = last_fullscreen_by_pid σ ∧
  self σ' = self σ ∧
  invocations σ' = invocations σ.

(** The process name [enum_windows] records for the process [p]. *)
Definition name_of (o : OS) (p : Z) : string :=
  match resolved_name o p with
  | "" => "Unknown"
  | n => n
  end.

(** The record [wi] describes a visible window of the desktop [o] with a
    title that is not blank and an owner that was resolved. *)
Definition enumerated (o : OS) (wi : WindowInfo) : Prop :=
  ∃ win p,
    os_windows o !! hwnd wi = Some win ∧
    win_visible win = true ∧
    win_text win ≠ "" ∧
    isspace (win_text win) = false ∧
    win_owner win = Some p ∧
    pid wi = Some p ∧
    process_name wi = Some (name_of o p) ∧
    (title wi = Some (win_text win) ∨ title wi = Some "").

(** The fault script that lets the enumeration of [demo_os2] through (one
    call of [EnumWindows] and five calls for each of the two windows) and
    fails the first call of the pass that follows. *)
Definition fail_first_reapply : list bool :=
  [false; false; false; false; false; false; false; false; false; false; false; true].

(** A freshly started program whose main window is minimized. *)
Definition demo_minimized : World :=
  mkWorld (demo_os []) ∅ [] (mkApp [] [] ∅ None None true) [].

(** ** Selection and membership *)

(** The records shown in the list box [k]. *)
Definition list_of (k : ListKind) (a : App) : list WindowInfo :=
  match k with
  | windowed => windowed_windows a
  | fullscreen => fullscreen_windows a
  end.

(** The selection is empty, or it names the handle of a record of the list
    box it was made in. *)
Definition selection_valid (a : App) : Prop :=
  match selected_hwnd a, selected_list a with
  | Some h, Some k => h ∈ hwnd <$> list_of k a
  | None, None => True
  | _, _ => False
  end.

(** The selection is valid and every member of the membership set has a
    cache entry. *)
Definition consistent (σ : World) : Prop :=
  selection_valid (self σ) ∧
  forall h, h ∈ fullscreen_hwnds (self σ) -> is_Some (window_style_cache σ !! h).

(** The action [act] returns normally from [σ] and leaves a consistent
    world. *)
Definition keeps_consistent (act : M unit) (σ : World) : Prop :=
  fst (act σ) = Ok tt ∧ consistent (snd (act σ)).

(** ** Monitors *)

(** The entry [get_monitors] appends for the answer [info] of
    [GetMonitorInfo]. *)
Definition monitor_entry (info : MonitorInfo) : string * Rect :=
  (default "Unknown" (mi_device info), default (0, 0, 0, 0) (mi_monitor info)).

(** The fallback entry of [get_monitors]. *)
Definition primary_entry (o : OS) : string * Rect :=
  ("\\.\DISPLAY1", (0, 0, fst (os_screen o), snd (os_screen o))).

(** Two monitors side by side; the second one reports no device name. *)
Definition demo_displays : list MonitorInfo :=
  [ mkMonitorInfo (Some "\\.\DISPLAY1") (Some (0, 0, 1920, 1080));
    mkMonitorInfo None (Some (1920, 0, 3840, 1080)) ].

(** The program of [demo_fullscreen] in front of a desktop that holds a
    second window, which the program has not listed. *)
Definition demo_two_windows : World :=
  mkWorld (mkOS {[ 1 := demo_window;
                   2 := mkWindow 0x14CF0000 0 (0, 0, 640, 480) (Some 5) true "Launcher" ]}
                {[ 5 := ProcName "App.exe" ]} (1920, 1080) [])
          ∅ [] (mkApp [demo_record] [] ∅ (Some 1) (Some windowed) false) [].

(** The position of the first fault of a script, if it has one. *)
Fixpoint first_fault (script : list bool) : option nat :=
  match script with
  | [] => None
  | true :: _ => Some 0%nat
  | false :: s => S <$> first_fault s
  end.

(** The record an enumeration without failing calls makes for the handle
    [h]: none unless [h] denotes a visible window with a title that is not
    blank and a resolved owner. *)
Definition listed (o : OS) (h : Z) : option WindowInfo :=
  match os_windows o !! h with
  | Some win =>
      if win_visible win && negb (String.eqb (win_text win) "" || isspace (win_text win))
      then match win_owner win with
           | Some p =>
               Some (mkWindowInfo h (Some p) (Some (name_of o p)) (Some (win_text win)))
           | None => None
           end
      else None
  | None => None
  end.

(** ** The owner lookup of [revert_to_windowed] *)

(** Whether the fault script fails the owner lookup of a revert of a cached
    handle.  The lookup is the call after the style write, the
    extended-style write and the move; the extended-style write is skipped
    when the style write raised (the two share one [try]), so the lookup is
    then the third call and the fourth otherwise. *)
Definition owner_lookup_faulted (o : OS) : bool :=
  nth (if fault_now o then 2%nat else 3%nat) (os_faults o) false.

(** The program of [demo_fullscreen] when the next operating-system call
    fails. *)
Definition demo_fullscreen_failing : World :=
  set_os (mkOS (os_windows (os demo_fullscreen)) (os_processes (os demo_fullscreen))
               (os_screen (os demo_fullscreen)) [true]) demo_fullscreen.


(** * Rules for runs *)

Lemma wp_run {A} (m : M A) σ r σ' (Q : result A -> World -> Prop) :
  m σ = (r, σ') -> wp m σ Q -> Q r σ'.
Proof. unfold wp. intros ->. auto. Qed.

Lemma wp_mono {A} (m : M A) σ (Q Q' : result A -> World -> Prop) :
  wp m σ Q -> (forall r σ', Q r σ' -> Q' r σ') -> wp m σ Q'.
Proof. unfold wp. auto. Qed.

Lemma wp_ret {A} (a : A) σ (Q : result A -> World -> Prop) :
  Q (Ok a) σ -> wp (ret a) σ Q.
Proof. auto. Qed.

Lemma wp_bind {A B} (m : M A) (k : A -> M B) σ (Q : result B -> World -> Prop) :
  wp m σ (fun r σ' => match r with
                      | Ok a => wp (k a) σ' Q
                      | Raise e => Q (Raise e) σ'
                      end) ->
  wp (bind m k) σ Q.
Proof. unfold wp, bind. destruct (m σ) as [[a|e] σ']; auto. Qed.

Lemma wp_try_except {A} (m h : M A) σ (Q : result A -> World -> Prop) :
  wp m σ (fun r σ' => match r with
                      | Ok a => Q (Ok a) σ'
                      | Raise _ => wp h σ' Q
                      end) ->
  wp (try_except m h) σ Q.
Proof. unfold wp, try_except. destruct (m σ) as [[a|e] σ']; auto. Qed.

Lemma wp_try_except_psutil {A} (m h : M A) σ (Q : result A -> World -> Prop) :
  wp m σ (fun r σ' => match r with
                      | Ok a => Q (Ok a) σ'
                      | Raise NoSuchProcess | Raise AccessDenied => wp h σ' Q
                      | Raise e => Q (Raise e) σ'
                      end) ->
  wp (try_except_psutil m h) σ Q.
Proof. unfold wp, try_except_psutil. destruct (m σ) as [[a|[]] σ']; auto. Qed.

Lemma wp_gets {A} (f : World -> A) σ (Q : result A -> World -> Prop) :
  Q (Ok (f σ)) σ -> wp (gets f) σ Q.
Proof. auto. Qed.

Lemma wp_modify (f : World -> World) σ (Q : result unit -> World -> Prop) :
  Q (Ok tt) (f σ) -> wp (modify f) σ Q.
Proof. auto. Qed.

(** A loop whose body never lets an exception out keeps an invariant. *)
Lemma wp_for_each {A} (I : World -> Prop) (l : list A) (body : A -> M unit) σ :
  I σ ->
  (forall x σ1, x ∈ l -> I σ1 -> wp (body x) σ1 (fun r σ2 => r = Ok tt ∧ I σ2)) ->
  wp (for_each l body) σ (fun r σ' => r = Ok tt ∧ I σ').
Proof.
  revert σ. induction l as [|x l IH]; intros σ HI Hbody; simpl.
  - apply wp_ret. auto.
  - apply wp_bind. eapply wp_mono.
    + apply Hbody; [left | exact HI].
    + intros r σ1 [-> HI1]. apply IH; [exact HI1|].
      intros y σ2 Hy. apply Hbody. right. exact Hy.
Qed.

Lemma wp_query {A} h (f : Window -> result A) σ (Q : result A -> World -> Prop) :
  (fault_now (os σ) = true ∨ os_windows (os σ) !! h = None ->
   Q (Raise Win32Error) (tick σ)) ->
  (forall w, fault_now (os σ) = false -> os_windows (os σ) !! h = Some w ->
             Q (f w) (tick σ)) ->
  wp (query h f) σ Q.
Proof.
  intros Hfail Hok. unfold wp, query, win32.
  destruct (fault_now (os σ)) eqn:Hf; simpl.
  - apply Hfail. auto.
  - destruct (os_windows (os σ) !! h) as [w|] eqn:Hw; simpl.
    + apply Hok; auto.
    + apply Hfail. auto.
Qed.

Lemma wp_update h (f : Window -> Window) σ (Q : result unit -> World -> Prop) :
  (fault_now (os σ) = true ∨ os_windows (os σ) !! h = None ->
   Q (Raise Win32Error) (tick σ)) ->
  (forall w, fault_now (os σ) = false -> os_windows (os σ) !! h = Some w ->
             Q (Ok tt) (put_window h (f w) σ)) ->
  wp (update h f) σ Q.
Proof.
  intros Hfail Hok. unfold wp, update, win32.
  destruct (fault_now (os σ)) eqn:Hf; simpl.
  - apply Hfail. auto.
  - destruct (os_windows (os σ) !! h) as [w|] eqn:Hw; simpl.
    + apply Hok; auto.
    + apply Hfail. auto.
Qed.

Lemma wp_GetWindowLong_style h σ (Q : result Z -> World -> Prop) :
  (fault_now (os σ) = true ∨ os_windows (os σ) !! h = None ->
   Q (Raise Win32Error) (tick σ)) ->
  (forall w, fault_now (os σ) = false -> os_windows (os σ) !! h = Some w ->
             Q (Ok (win_style w)) (tick σ)) ->
  wp (GetWindowLong h GWL_STYLE) σ Q.
Proof. intros. apply wp_query; auto. Qed.

Lemma wp_GetWindowLong_exstyle h σ (Q : result Z -> World -> Prop) :
  (fault_now (os σ) = true ∨ os_windows (os σ) !! h = None ->
   Q (Raise Win32Error) (tick σ)) ->
  (forall w, fault_now (os σ) = false -> os_windows (os σ) !! h = Some w ->
             Q (Ok (win_exstyle w)) (tick σ)) ->
  wp (GetWindowLong h GWL_EXSTYLE) σ Q.
Proof. intros. apply wp_query; auto. Qed.

Lemma wp_GetWindowRect h σ (Q : result Rect -> World -> Prop) :
  (fault_now (os σ) = true ∨ os_windows (os σ) !! h = None ->
   Q (Raise Win32Error) (tick σ)) ->
  (forall w, fault_now (os σ) = false -> os_windows (os σ) !! h = Some w ->
             Q (Ok (win_rect w)) (tick σ)) ->
  wp (GetWindowRect h) σ Q.
Proof. intros. apply wp_query; auto. Qed.

Lemma wp_IsWindowVisible h σ (Q : result bool -> World -> Prop) :
  (fault_now (os σ) = true ∨ os_windows (os σ) !! h = None ->
   Q (Raise Win32Error) (tick σ)) ->
  (forall w, fault_now (os σ) = false -> os_windows (os σ) !! h = Some w ->
             Q (Ok (win_visible w)) (tick σ)) ->
  wp (IsWindowVisible h) σ Q.
Proof. intros. apply wp_query; auto. Qed.

Lemma wp_GetWindowText h σ (Q : result string -> World -> Prop) :
  (fault_now (os σ) = true ∨ os_windows (os σ) !! h = None ->
   Q (Raise Win32Error) (tick σ)) ->
  (forall w, fault_now (os σ) = false -> os_windows (os σ) !! h = Some w ->
             Q (Ok (win_text w)) (tick σ)) ->
  wp (GetWindowText h) σ Q.
Proof. intros. apply wp_query; auto. Qed.

Lemma wp_GetWindowThreadProcessId h σ (Q : result Z -> World -> Prop) :
  (fault_now (os σ) = true ∨ os_windows (os σ) !! h ≫= win_owner = None ->
   Q (Raise Win32Error) (tick σ)) ->
  (forall w p, fault_now (os σ) = false -> os_windows (os σ) !! h = Some w ->
               win_owner w = Some p -> Q (Ok p) (tick σ)) ->
  wp (GetWindowThreadProcessId h) σ Q.
Proof.
  intros Hfail Hok. apply wp_query.
  - intros [?|Hn]; apply Hfail; auto. right. rewrite Hn. reflexivity.
  - intros w Hf Hw. destruct (win_owner w) as [p|] eqn:Hp.
    + eapply Hok; eauto.
    + apply Hfail. right. rewrite Hw. exact Hp.
Qed.

Lemma wp_SetWindowLong_style h v σ (Q : result unit -> World -> Prop) :
  (fault_now (os σ) = true ∨ os_windows (os σ) !! h = None ->
   Q (Raise Win32Error) (tick σ)) ->
  (forall w, fault_now (os σ) = false -> os_windows (os σ) !! h = Some w ->
     Q (Ok tt) (put_window h (mkWindow v (win_exstyle w) (win_rect w) (win_owner w)
                                       (win_visible w) (win_text w)) σ)) ->
  wp (SetWindowLong h GWL_STYLE v) σ Q.
Proof. intros. apply wp_update; auto. Qed.

Lemma wp_SetWindowLong_exstyle h v σ (Q : result unit -> World -> Prop) :
  (fault_now (os σ) = true ∨ os_windows (os σ) !! h = None ->
   Q (Raise Win32Error) (tick σ)) ->
  (forall w, fault_now (os σ) = false -> os_windows (os σ) !! h = Some w ->
     Q (Ok tt) (put_window h (mkWindow (win_style w) v (win_rect w) (win_owner w)
                                       (win_visible w) (win_text w)) σ)) ->
  wp (SetWindowLong h GWL_EXSTYLE v) σ Q.
Proof. intros. apply wp_update; auto. Qed.

Lemma wp_SetWindowPos h after x y cx cy flags σ (Q : result unit -> World -> Prop) :
  (fault_now (os σ) = true ∨ os_windows (os σ) !! h = None ->
   Q (Raise Win32Error) (tick σ)) ->
  (forall w, fault_now (os σ) = false -> os_windows (os σ) !! h = Some w ->
     Q (Ok tt) (put_window h
                  (mkWindow (win_style w) (win_exstyle w) (x, y, x + cx, y + cy)
                     (win_owner w)
                     (win_visible w || negb (Z.eqb (Z.land flags SWP_SHOWWINDOW) 0))
                     (win_text w)) σ)) ->
  wp (SetWindowPos h after x y cx cy flags) σ Q.
Proof. intros. apply wp_update; auto. Qed.

Lemma wp_psutil_Process_name p σ (Q : result string -> World -> Prop) :
  (fault_now (os σ) = true -> Q (Raise PsutilError) (tick σ)) ->
  (forall n, fault_now (os σ) = false -> os_processes (os σ) !! p = Some (ProcName n) ->
             Q (Ok n) (tick σ)) ->
  (fault_now (os σ) = false -> os_processes (os σ) !! p = Some ProcDenied ->
   Q (Raise AccessDenied) (tick σ)) ->
  (fault_now (os σ) = false -> os_processes (os σ) !! p = None ->
   Q (Raise NoSuchProcess) (tick σ)) ->
  wp (psutil_Process_name p) σ Q.
Proof.
  intros H1 H2 H3 H4. unfold wp, psutil_Process_name.
  destruct (fault_now (os σ)); simpl; [auto|].
  destruct (os_processes (os σ) !! p) as [[n|]|]; auto.
Qed.

(** * Frame facts *)

Lemma same_desktop_refl σ : same_desktop σ σ.
Proof. repeat split. Qed.

Lemma same_desktop_trans σ1 σ2 σ3 :
  same_desktop σ1 σ2 -> same_desktop σ2 σ3 -> same_desktop σ1 σ3.
Proof. intros (?&?&?) (?&?&?). repeat split; congruence. Qed.

Lemma os_only_refl σ : os_only σ σ.
Proof. repeat split. Qed.

Lemma os_only_trans σ1 σ2 σ3 : os_only σ1 σ2 -> os_only σ2 σ3 -> os_only σ1 σ3.
Proof.
  intros (?&?&?&?&?) (?&?&?&?&?).
  repeat split; try congruence; eapply same_desktop_trans; eauto.
Qed.

Lemma os_only_tick σ : os_only σ (tick σ).
Proof. repeat split. Qed.

Lemma os_only_put h w w' σ :
  os_windows (os σ) !! h = Some w -> win_owner w' = win_owner w ->
  os_only σ (put_window h w' σ).
Proof.
  intros Hw Ho. repeat split. unfold owners. simpl.
  rewrite fmap_insert, Ho. apply insert_id. rewrite lookup_fmap, Hw. reflexivity.
Qed.

Lemma owners_lookup σ h : owners (os σ) !! h = win_owner <$> os_windows (os σ) !! h.
Proof. apply lookup_fmap. Qed.

#[local] Hint Resolve os_only_refl os_only_tick same_desktop_refl : core.

(** Symbolic execution of a run, one construct at a time. *)
Ltac wp_rule :=
  lazymatch goal with
  | |- wp (bind _ _) _ _ => apply wp_bind
  | |- wp (ret _) _ _ => apply wp_ret
  | |- wp (gets _) _ _ => apply wp_gets
  | |- wp (modify _) _ _ => apply wp_modify
  | |- wp (try_except _ _) _ _ => apply wp_try_except
  | |- wp (try_except_psutil _ _) _ _ => apply wp_try_except_psutil
  | |- wp (GetWindowLong _ GWL_STYLE) _ _ =>
      apply wp_GetWindowLong_style; [intros ?Hfail | intros ?w ?Hnf ?Hw]
  | |- wp (GetWindowLong _ GWL_EXSTYLE) _ _ =>
      apply wp_GetWindowLong_exstyle; [intros ?Hfail | intros ?w ?Hnf ?Hw]
  | |- wp (GetWindowRect _) _ _ =>
      apply wp_GetWindowRect; [intros ?Hfail | intros ?w ?Hnf ?Hw]
  | |- wp (IsWindowVisible _) _ _ =>
      apply wp_IsWindowVisible; [intros ?Hfail | intros ?w ?Hnf ?Hw]
  | |- wp (GetWindowText _) _ _ =>
      apply wp_GetWindowText; [intros ?Hfail | intros ?w ?Hnf ?Hw]
  | |- wp (GetWindowThreadProcessId _) _ _ =>
      apply wp_GetWindowThreadProcessId; [intros ?Hfail | intros ?w ?p ?Hnf ?Hw ?Hp]
  | |- wp (SetWindowLong _ GWL_STYLE _) _ _ =>
      apply wp_SetWindowLong_style; [intros ?Hfail | intros ?w ?Hnf ?Hw]
  | |- wp (SetWindowLong _ GWL_EXSTYLE _) _ _ =>
      apply wp_SetWindowLong_exstyle; [intros ?Hfail | intros ?w ?Hnf ?Hw]
  | |- wp (SetWindowPos _ _ _ _ _ _ _) _ _ =>
      apply wp_SetWindowPos; [intros ?Hfail | intros ?w ?Hnf ?Hw]
  | |- wp (psutil_Process_name _) _ _ =>
      apply wp_psutil_Process_name;
      [intros ?Hfail | intros ?n ?Hnf ?Hn | intros ?Hnf ?Hn | intros ?Hnf ?Hn]
  | |- wp (GetSystemMetrics _) _ _ => apply wp_gets
  | |- wp (pid_exists _) _ _ => apply wp_gets
  | |- wp (if ?b then _ else _) _ _ => destruct b eqn:?
  | |- wp (match ?x with _ => _ end) _ _ => destruct x eqn:?
  end.

Ltac wp_go := repeat (wp_rule; cbv beta iota zeta).

(** * The three blocks of [set_borderless_fullscreen] *)

Lemma cache_original_style_spec hwnd σ :
  wp (cache_original_style hwnd) σ (fun r σ' =>
    last_fullscreen_by_pid σ' = last_fullscreen_by_pid σ ∧
    self σ' = self σ ∧
    invocations σ' = invocations σ ∧
    same_desktop σ σ' ∧
    os_windows (os σ') = os_windows (os σ) ∧
    match r with
    | Ok _ =>
        match window_style_cache σ !! hwnd with
        | Some _ => window_style_cache σ' = window_style_cache σ
        | None => ¬ snapshot_read_fails (os σ) hwnd ∧
                  ∃ w, os_windows (os σ) !! hwnd = Some w ∧
                       window_style_cache σ' =
                         <[hwnd := snapshot_of w]> (window_style_cache σ)
        end
    | Raise _ =>
        window_style_cache σ' = window_style_cache σ ∧
        window_style_cache σ !! hwnd = None ∧
        snapshot_read_fails (os σ) hwnd
    end).
Proof.
  unfold cache_original_style. wp_go.
  all: try match goal with H : window_style_cache _ !! _ = _ |- _ => rewrite H end.
  all: do 5 (split; [try reflexivity; auto|]).
  all: unfold snapshot_read_fails; simpl in *.
  all: try tauto.
  split.
  - intros [?|[?|[?|?]]]; congruence.
  - exists w. split; [done|]. unfold snapshot_of. by simplify_eq.
Qed.

Lemma store_pid_mapping_spec hwnd mr σ :
  wp (store_pid_mapping hwnd mr) σ (fun r σ' =>
    window_style_cache σ' = window_style_cache σ ∧
    self σ' = self σ ∧
    invocations σ' = invocations σ ∧
    same_desktop σ σ' ∧
    os_windows (os σ') = os_windows (os σ) ∧
    (last_fullscreen_by_pid σ' = last_fullscreen_by_pid σ ∨
     (r = Ok tt ∧
      ∃ p, owners (os σ) !! hwnd = Some (Some p) ∧ p ≠ 0 ∧
           last_fullscreen_by_pid σ' =
             dict_set (last_fullscreen_by_pid σ) p (resolved_name (os σ) p, mr)))).
Proof.
  unfold store_pid_mapping. wp_go.
  all: repeat split; auto.
  all: right; split; [done|]; exists p; simpl.
  all: rewrite owners_lookup, Hw; simpl; rewrite Hp.
  all: split; [done|]; split; [lia|]; unfold resolved_name.
  all: simpl in *; by rewrite Hn.
Qed.

Lemma shown_flag v :
  v || negb (Z.land (Z.lor (Z.lor SWP_FRAMECHANGED SWP_NOZORDER) SWP_SHOWWINDOW)
                    SWP_SHOWWINDOW =? 0) = true.
Proof. apply orb_true_r. Qed.

Lemma strip_and_resize_spec hwnd mr σ :
  wp (strip_and_resize hwnd mr) σ (fun r σ' =>
    os_only σ σ' ∧
    (r = Ok tt ->
     ∃ w, os_windows (os σ) !! hwnd = Some w ∧
          os_windows (os σ') !! hwnd =
            Some (mkWindow (strip_style (win_style w)) (strip_exstyle (win_exstyle w))
                           (target_rect (os σ) mr) (win_owner w) true (win_text w)))).
Proof.
  unfold strip_and_resize. wp_go.
  all: try (split; [|discriminate]).
  all: simpl in *; simplify_map_eq.
  all: repeat match goal with
       | |- os_only _ (tick _) => eapply os_only_trans; [|apply os_only_tick]
       | |- os_only _ (put_window _ _ _) =>
           eapply os_only_trans; [|eapply os_only_put; simpl; [by simplify_map_eq|done]]
       end; auto.
  all: split.
  all: repeat match goal with
       | |- os_only _ (tick _) => eapply os_only_trans; [|apply os_only_tick]
       | |- os_only _ (put_window _ _ _) =>
           eapply os_only_trans; [|eapply os_only_put; simpl; [by simplify_map_eq|done]]
       end; auto.
  all: intros _; eexists; split; [done|]; simpl.
  all: rewrite shown_flag; repeat f_equal; lia.
Qed.

(** * [set_borderless_fullscreen] as a whole *)

Lemma set_borderless_fullscreen_spec hwnd mr σ :
  wp (set_borderless_fullscreen hwnd mr) σ (fun r σ' =>
    self σ' = self σ ∧
    invocations σ' = invocations σ ++ [(hwnd, mr)] ∧
    same_desktop σ σ' ∧
    match window_style_cache σ !! hwnd with
    | Some _ => window_style_cache σ' = window_style_cache σ
    | None =>
        (snapshot_read_fails (os σ) hwnd ∧ r ≠ Ok tt ∧
         window_style_cache σ' = window_style_cache σ ∧
         last_fullscreen_by_pid σ' = last_fullscreen_by_pid σ) ∨
        (¬ snapshot_read_fails (os σ) hwnd ∧
         ∃ w, os_windows (os σ) !! hwnd = Some w ∧
              window_style_cache σ' = <[hwnd := snapshot_of w]> (window_style_cache σ))
    end ∧
    (last_fullscreen_by_pid σ' = last_fullscreen_by_pid σ ∨
     ∃ p, owners (os σ) !! hwnd = Some (Some p) ∧ p ≠ 0 ∧
          last_fullscreen_by_pid σ' =
            dict_set (last_fullscreen_by_pid σ) p (resolved_name (os σ) p, mr)) ∧
    (r = Ok tt ->
     ∃ w, os_windows (os σ) !! hwnd = Some w ∧
          os_windows (os σ') !! hwnd =
            Some (mkWindow (strip_style (win_style w)) (strip_exstyle (win_exstyle w))
                           (target_rect (os σ) mr) (win_owner w) true (win_text w)))).
Proof.
  unfold set_borderless_fullscreen.
  apply wp_bind, wp_modify, wp_bind.
  eapply wp_mono; [apply cache_original_style_spec|].
  intros r1 σ1 (Hp1 & Hs1 & Hi1 & Hd1 & Hw1 & Hc1). simpl in *.
  destruct r1 as [[]|e].
  2:{ destruct Hc1 as (Hc1 & Hn & Hfl). rewrite Hn.
      split; [done|]. split; [done|]. split; [exact Hd1|].
      split; [left; repeat split; [exact Hfl|discriminate|done|done]|].
      split; [by left|discriminate]. }
  apply wp_bind. eapply wp_mono; [apply store_pid_mapping_spec|].
  intros r2 σ2 (Hc2 & Hs2 & Hi2 & Hd2 & Hw2 & Hp2).
  assert (Hcache : match window_style_cache σ !! hwnd with
                   | Some _ => window_style_cache σ2 = window_style_cache σ
                   | None => ¬ snapshot_read_fails (os σ) hwnd ∧
                       ∃ w, os_windows (os σ) !! hwnd = Some w ∧
                       window_style_cache σ2 = <[hwnd := snapshot_of w]> (window_style_cache σ)
                   end).
  { rewrite Hc2. exact Hc1. }
  assert (Hprefs : last_fullscreen_by_pid σ2 = last_fullscreen_by_pid σ ∨
     ∃ p, owners (os σ) !! hwnd = Some (Some p) ∧ p ≠ 0 ∧
          last_fullscreen_by_pid σ2 =
            dict_set (last_fullscreen_by_pid σ) p (resolved_name (os σ) p, mr)).
  { destruct Hp2 as [Hp2|(_ & p & Ho & Hne & Hp2)].
    - left. congruence.
    - right. exists p. destruct Hd1 as (Ho1 & Hpr1 & _).
      rewrite Ho1 in Ho. unfold resolved_name in *. rewrite Hpr1 in Hp2.
      rewrite Hp1 in Hp2. auto. }
  assert (Hd : same_desktop σ σ2).
  { eapply same_desktop_trans; [|exact Hd2]. exact Hd1. }
  assert (Hfin : forall r σ', os_only σ2 σ' ->
    self σ' = self σ ∧ invocations σ' = invocations σ ++ [(hwnd, mr)] ∧
    same_desktop σ σ' ∧
    match window_style_cache σ !! hwnd with
    | Some _ => window_style_cache σ' = window_style_cache σ
    | None =>
        (snapshot_read_fails (os σ) hwnd ∧ r ≠ Ok tt ∧
         window_style_cache σ' = window_style_cache σ ∧
         last_fullscreen_by_pid σ' = last_fullscreen_by_pid σ) ∨
        (¬ snapshot_read_fails (os σ) hwnd ∧
         ∃ w, os_windows (os σ) !! hwnd = Some w ∧
              window_style_cache σ' = <[hwnd := snapshot_of w]> (window_style_cache σ))
    end ∧
    (last_fullscreen_by_pid σ' = last_fullscreen_by_pid σ ∨
     ∃ p, owners (os σ) !! hwnd = Some (Some p) ∧ p ≠ 0 ∧
          last_fullscreen_by_pid σ' =
            dict_set (last_fullscreen_by_pid σ) p (resolved_name (os σ) p, mr))).
  { intros r σ' (Hc3 & Hp3 & Hs3 & Hi3 & Hd3).
    split; [congruence|]. split; [congruence|].
    split; [eapply same_desktop_trans; eauto|].
    rewrite Hc3, Hp3. split; [|exact Hprefs].
    destruct (window_style_cache σ !! hwnd); [exact Hcache|]. right. exact Hcache. }
  destruct r2 as [[]|e].
  2:{ specialize (Hfin (Raise e) σ2 (os_only_refl _)).
      destruct Hfin as (?&?&?&?&?). do 5 (split; [assumption|]). discriminate. }
  eapply wp_mono; [apply strip_and_resize_spec|].
  intros r3 σ3 [Hos Hwin].
  specialize (Hfin r3 σ3 Hos). destruct Hfin as (?&?&?&?&?).
  do 5 (split; [assumption|]).
  intros Hr. destruct (Hwin Hr) as (w & Hw & Hw'). exists w. split.
  - rewrite <- Hw1, <- Hw2. exact Hw.
  - destruct Hd as (_ & _ & Hsc). unfold target_rect in *. rewrite Hsc in Hw'. exact Hw'.
Qed.

Lemma wp_and {A} (m : M A) σ (Q1 Q2 : result A -> World -> Prop) :
  wp m σ Q1 -> wp m σ Q2 -> wp m σ (fun r σ' => Q1 r σ' ∧ Q2 r σ').
Proof. unfold wp. auto. Qed.

(** * Runs without faults on a live window *)

Ltac no_fault Hf :=
  exfalso;
  match goal with
  | Hfail : _ ∨ _ |- _ =>
      unfold fault_now in Hfail; simpl in Hfail; rewrite ?Hf in Hfail;
      simpl in Hfail; destruct Hfail as [Hfail|Hfail];
      [discriminate | by simplify_map_eq]
  | Hfail : fault_now _ = true |- _ =>
      unfold fault_now in Hfail; simpl in Hfail; rewrite ?Hf in Hfail;
      simpl in Hfail; discriminate
  end.

Lemma set_borderless_fullscreen_calm hwnd mr σ :
  os_faults (os σ) = [] -> is_Some (os_windows (os σ) !! hwnd) ->
  wp (set_borderless_fullscreen hwnd mr) σ (fun r σ' =>
    r = Ok tt ∧ os_faults (os σ') = []).
Proof.
  intros Hf [w0 Hw0].
  unfold set_borderless_fullscreen, cache_original_style, store_pid_mapping,
    strip_and_resize.
  wp_go.
  all: try (no_fault Hf).
  all: split; [reflexivity|]; simpl; rewrite Hf; reflexivity.
Qed.

(** * [revert_to_windowed] *)

Lemma dict_del_absent {V} (d : list (Z * V)) k : dict_mem d k = false -> dict_del d k = d.
Proof.
  unfold dict_mem. induction d as [|[k' v] d IH]; simpl; [done|].
  destruct (Z.eqb k k'); [done|]. intros H. by rewrite IH.
Qed.

Lemma revert_to_windowed_spec hwnd σ :
  wp (revert_to_windowed hwnd) σ (fun r σ' =>
    r = Ok tt ∧
    self σ' = self σ ∧
    invocations σ' = invocations σ ∧
    same_desktop σ σ' ∧
    window_style_cache σ' = delete hwnd (window_style_cache σ) ∧
    (last_fullscreen_by_pid σ' = last_fullscreen_by_pid σ ∨
     ∃ p, window_style_cache σ !! hwnd ≠ None ∧
          owners (os σ) !! hwnd = Some (Some p) ∧ p ≠ 0 ∧
          last_fullscreen_by_pid σ' = dict_del (last_fullscreen_by_pid σ) p)).
Proof.
  unfold revert_to_windowed. wp_go.
  all: try destruct r as [[[l t] r'] b]; cbv beta iota zeta; wp_go.
  all: simpl in *.
  all: split; [reflexivity|]; split; [reflexivity|]; split; [reflexivity|].
  all: try match goal with
       | H : window_style_cache _ !! _ = None |- _ =>
           split; [done|]; split; [by rewrite delete_id|by left]
       end.
  all: split; [|split; [reflexivity|]].
  all: try match goal with
       | |- same_desktop _ _ =>
           repeat split; unfold owners; simpl;
           rewrite ?fmap_insert; simpl;
           repeat (rewrite insert_id; [|rewrite ?lookup_insert_eq, ?lookup_fmap;
                                         simplify_map_eq; congruence]);
           reflexivity
       end.
  all: try (left; reflexivity).
  all: match goal with
       | Hp : win_owner _ = Some ?q, Hb : negb (?q =? 0) && _ = true |- _ =>
           right; exists q; apply andb_prop in Hb as [Hq _];
           apply negb_true_iff, Z.eqb_neq in Hq
       end.
  all: split; [congruence|].
  all: split; [rewrite owners_lookup; simplify_map_eq; congruence|].
  all: split; [assumption|reflexivity].
Qed.

Lemma revert_to_windowed_calm hwnd σ w s e rc :
  os_faults (os σ) = [] ->
  os_windows (os σ) !! hwnd = Some w ->
  window_style_cache σ !! hwnd = Some (s, e, rc) ->
  wp (revert_to_windowed hwnd) σ (fun r σ' =>
    r = Ok tt ∧
    os_faults (os σ') = [] ∧
    os_windows (os σ') !! hwnd =
      Some (mkWindow s e rc (win_owner w) true (win_text w)) ∧
    last_fullscreen_by_pid σ' =
      match win_owner w with
      | Some p => if Z.eqb p 0 then last_fullscreen_by_pid σ
                  else dict_del (last_fullscreen_by_pid σ) p
      | None => last_fullscreen_by_pid σ
      end).
Proof.
  intros Hf Hw0 Hc. unfold revert_to_windowed.
  apply wp_bind, wp_gets. cbv beta iota zeta. rewrite Hc. cbv beta iota zeta.
  destruct rc as [[[l t] r'] b].
  wp_go.
  all: try (no_fault Hf).
  all: simpl in *; simplify_map_eq.
  all: rewrite Hf; simpl.
  all: rewrite shown_flag.
  all: split; [reflexivity|]; split; [reflexivity|].
  all: split; [repeat f_equal; lia|].
  all: try match goal with
       | H : _ ∨ win_owner _ = None |- _ =>
           destruct H as [H|H];
           [unfold fault_now in H; simpl in H; rewrite Hf in H; discriminate|];
           by rewrite H
       end.
  all: match goal with
       | Hb : negb (?q =? 0) && _ = _ |- _ =>
           destruct (q =? 0); simpl in Hb; try discriminate; try reflexivity
       end.
  all: symmetry; by apply dict_del_absent.
Qed.

Lemma wp_elim {A} (m : M A) σ (Q : result A -> World -> Prop) :
  wp m σ Q -> ∃ r σ', m σ = (r, σ') ∧ Q r σ'.
Proof. unfold wp. destruct (m σ) as [r σ']. eauto. Qed.

(** * Round trip *)

(** C1 (amended): for a handle that has no cache entry and denotes a live
    window, and a run in which no operating-system call fails, transform
    followed by revert succeeds and leaves the window with the style bits,
    the extended-style bits and the bounding rectangle it had before the
    transform.  The target rectangle is arbitrary (a monitor rectangle or
    [None]). *)
Theorem round_trip_restores_window σ hwnd mr w :
  os_faults (os σ) = [] ->
  os_windows (os σ) !! hwnd = Some w ->
  window_style_cache σ !! hwnd = None ->
  ∃ σ1 σ2 w2,
    set_borderless_fullscreen hwnd mr σ = (Ok tt, σ1) ∧
    revert_to_windowed hwnd σ1 = (Ok tt, σ2) ∧
    os_windows (os σ2) !! hwnd = Some w2 ∧
    win_style w2 = win_style w ∧
    win_exstyle w2 = win_exstyle w ∧
    win_rect w2 = win_rect w.
Proof.
  intros Hf Hw Hc.
  destruct (wp_elim _ _ _ (wp_and _ _ _ _
              (set_borderless_fullscreen_spec hwnd mr σ)
              (set_borderless_fullscreen_calm hwnd mr σ Hf (mk_is_Some _ _ Hw))))
    as (r1 & σ1 & Hrun1 & (_ & _ & _ & Hcache & _ & Hwin) & -> & Hf1).
  rewrite Hc in Hcache. destruct Hcache as [(_ & Hne & _)|(_ & w' & Hw' & Hcache)]; [done|].
  assert (w' = w) as -> by congruence.
  destruct (Hwin eq_refl) as (w'' & Hw'' & Hw1).
  destruct (wp_elim _ _ _ (revert_to_windowed_calm hwnd σ1 _ (win_style w) (win_exstyle w)
              (win_rect w) Hf1 Hw1 ltac:(rewrite Hcache; apply lookup_insert_eq)))
    as (r2 & σ2 & Hrun2 & -> & _ & Hw2 & _).
  eauto 10.
Qed.

Lemma round_trip_restores_window_witness :
  os_faults (os (demo_world [])) = [] ∧
  os_windows (os (demo_world [])) !! 1 = Some demo_window ∧
  window_style_cache (demo_world []) !! 1 = None ∧
  ∃ σ1 σ2 w2,
    set_borderless_fullscreen 1 (Some (1920, 0, 3840, 1080)) (demo_world []) = (Ok tt, σ1) ∧
    revert_to_windowed 1 σ1 = (Ok tt, σ2) ∧
    os_windows (os σ2) !! 1 = Some w2 ∧
    win_style w2 = win_style demo_window ∧
    win_exstyle w2 = win_exstyle demo_window ∧
    win_rect w2 = win_rect demo_window.
Proof.
  split; [(vm_compute; reflexivity)|]. split; [(vm_compute; reflexivity)|]. split; [(vm_compute; reflexivity)|].
  apply (round_trip_restores_window (demo_world []) 1 (Some (1920, 0, 3840, 1080))
           demo_window); (vm_compute; reflexivity).
Defined.

(** C1, as stated, fails for a handle that is already cached: the second of
    two transforms in a row is not undone by revert; the window goes back to
    what it was before the first one. *)
Lemma round_trip_fails_when_cached :
  fst (set_borderless_fullscreen 1 (Some (1920, 0, 3840, 1080)) demo_transformed) = Ok tt ∧
  fst (revert_to_windowed 1
         (snd (set_borderless_fullscreen 1 (Some (1920, 0, 3840, 1080)) demo_transformed)))
    = Ok tt ∧
  snapshot_of <$> os_windows (os demo_transformed) !! 1 =
    Some (0x14000000, 0x00000100, (0, 0, 1920, 1080)) ∧
  snapshot_of <$>
    os_windows (os (snd (revert_to_windowed 1
      (snd (set_borderless_fullscreen 1 (Some (1920, 0, 3840, 1080)) demo_transformed))))) !! 1 =
    Some (0x14CF0000, 0x00000300, (10, 20, 810, 620)).
Proof. vm_compute. repeat split. Qed.

(** * Chrome bits *)

Lemma strip_style_testbit s i :
  0 <= i ->
  Z.testbit (strip_style s) i =
  Z.testbit s i && negb (existsb (fun c => Z.testbit c i) style_chrome).
Proof.
  intros Hi. unfold strip_style, style_chrome. simpl.
  rewrite Z.land_spec, Z.lnot_spec, !Z.lor_spec by exact Hi.
  rewrite orb_false_r, !orb_assoc. reflexivity.
Qed.

Lemma strip_exstyle_testbit s i :
  0 <= i ->
  Z.testbit (strip_exstyle s) i =
  Z.testbit s i && negb (existsb (fun c => Z.testbit c i) exstyle_chrome).
Proof.
  intros Hi. unfold strip_exstyle, exstyle_chrome. simpl.
  rewrite Z.land_spec, Z.lnot_spec, !Z.lor_spec by exact Hi.
  rewrite orb_false_r, !orb_assoc. reflexivity.
Qed.

Lemma masked_bits_cleared (masks : list Z) (v v' : Z) :
  (forall i, 0 <= i ->
     Z.testbit v' i = Z.testbit v i && negb (existsb (fun c => Z.testbit c i) masks)) ->
  (forall c, c ∈ masks -> Z.land v' c = 0) ∧
  (forall i, 0 <= i -> (forall c, c ∈ masks -> Z.testbit c i = false) ->
     Z.testbit v' i = Z.testbit v i).
Proof.
  intros Hbits. split.
  - intros c Hc. apply Z.bits_inj'. intros i Hi.
    rewrite Z.land_spec, Z.bits_0, Hbits by exact Hi.
    destruct (Z.testbit c i) eqn:Hci; [|apply andb_false_r].
    assert (existsb (fun c => Z.testbit c i) masks = true) as ->.
    { apply existsb_exists. exists c. split; [|exact Hci]. by apply list_elem_of_In. }
    simpl. rewrite andb_false_r. reflexivity.
  - intros i Hi Hout. rewrite Hbits by exact Hi.
    assert (existsb (fun c => Z.testbit c i) masks = false) as ->.
    { apply not_true_is_false. intros (c & Hc & Hci)%existsb_exists.
      rewrite Hout in Hci; [discriminate|]. by apply list_elem_of_In. }
    apply andb_true_r.
Qed.

(** C7: a transform that succeeds leaves the window with the style it had
    with exactly the chrome bits cleared, [old AND NOT mask], for every
    style and extended-style value the window can have: every chrome
    constant is disjoint from the written value, and every bit outside
    the chrome constants is the bit of the old value. *)
Theorem transform_clears_exactly_chrome_bits σ h mr σ' w :
  os_windows (os σ) !! h = Some w ->
  set_borderless_fullscreen h mr σ = (Ok tt, σ') ->
  ∃ w',
    os_windows (os σ') !! h = Some w' ∧
    win_style w' = Z.land (win_style w) (Z.lnot 0x00CF0000) ∧
    win_exstyle w' = Z.land (win_exstyle w) (Z.lnot 0x00020201) ∧
    (forall c, c ∈ style_chrome -> Z.land (win_style w') c = 0) ∧
    (forall c, c ∈ exstyle_chrome -> Z.land (win_exstyle w') c = 0) ∧
    (forall i, 0 <= i -> (forall c, c ∈ style_chrome -> Z.testbit c i = false) ->
       Z.testbit (win_style w') i = Z.testbit (win_style w) i) ∧
    (forall i, 0 <= i -> (forall c, c ∈ exstyle_chrome -> Z.testbit c i = false) ->
       Z.testbit (win_exstyle w') i = Z.testbit (win_exstyle w) i).
Proof.
  intros Hw Hrun.
  pose proof (wp_run _ _ _ _ _ Hrun (set_borderless_fullscreen_spec h mr σ))
    as (_ & _ & _ & _ & _ & Hwin).
  destruct (Hwin eq_refl) as (w0 & Hw0 & Hw').
  assert (w0 = w) as -> by congruence.
  eexists. split; [exact Hw'|]. simpl.
  destruct (masked_bits_cleared style_chrome (win_style w) (strip_style (win_style w))
              (strip_style_testbit _)) as [H1 H2].
  destruct (masked_bits_cleared exstyle_chrome (win_exstyle w) (strip_exstyle (win_exstyle w))
              (strip_exstyle_testbit _)) as [H3 H4].
  repeat split; auto.
Qed.

Lemma transform_clears_exactly_chrome_bits_witness :
  os_windows (os (demo_world [])) !! 1 = Some demo_window ∧
  set_borderless_fullscreen 1 None (demo_world []) =
    (Ok tt, snd (set_borderless_fullscreen 1 None (demo_world []))) ∧
  ∃ w',
    os_windows (os (snd (set_borderless_fullscreen 1 None (demo_world [])))) !! 1 = Some w' ∧
    win_style w' = Z.land (win_style demo_window) (Z.lnot 0x00CF0000) ∧
    win_exstyle w' = Z.land (win_exstyle demo_window) (Z.lnot 0x00020201) ∧
    (forall c, c ∈ style_chrome -> Z.land (win_style w') c = 0) ∧
    (forall c, c ∈ exstyle_chrome -> Z.land (win_exstyle w') c = 0) ∧
    (forall i, 0 <= i -> (forall c, c ∈ style_chrome -> Z.testbit c i = false) ->
       Z.testbit (win_style w') i = Z.testbit (win_style demo_window) i) ∧
    (forall i, 0 <= i -> (forall c, c ∈ exstyle_chrome -> Z.testbit c i = false) ->
       Z.testbit (win_exstyle w') i = Z.testbit (win_exstyle demo_window) i).
Proof.
  split; [(vm_compute; reflexivity)|]. split; [(vm_compute; reflexivity)|].
  apply (transform_clears_exactly_chrome_bits (demo_world []) 1 None _ demo_window);
    (vm_compute; reflexivity).
Defined.

(** * Failures of a transform *)

(** C3 (amended): when the reads that take the snapshot fail (the handle is
    not cached and the style, the extended style or the rectangle cannot be
    read), the transform fails and the cache, the membership set (with the
    rest of the application object) and the preference table are exactly
    what they were. *)
Theorem snapshot_read_failure_mutates_nothing σ h mr :
  window_style_cache σ !! h = None ->
  snapshot_read_fails (os σ) h ->
  ∃ e σ',
    set_borderless_fullscreen h mr σ = (Raise e, σ') ∧
    window_style_cache σ' = window_style_cache σ ∧
    fullscreen_hwnds (self σ') = fullscreen_hwnds (self σ) ∧
    self σ' = self σ ∧
    last_fullscreen_by_pid σ' = last_fullscreen_by_pid σ.
Proof.
  intros Hc Hfl.
  destruct (wp_elim _ _ _ (set_borderless_fullscreen_spec h mr σ))
    as (r & σ' & Hrun & Hs & _ & _ & Hcache & _ & _).
  rewrite Hc in Hcache. destruct Hcache as [(_ & Hr & Hc' & Hp')|[Hok _]]; [|done].
  destruct r as [[]|e]; [done|].
  exists e, σ'. rewrite Hs. auto.
Qed.

Lemma snapshot_read_failure_mutates_nothing_witness :
  window_style_cache (demo_world [false; true]) !! 1 = None ∧
  snapshot_read_fails (os (demo_world [false; true])) 1 ∧
  ∃ e σ',
    set_borderless_fullscreen 1 None (demo_world [false; true]) = (Raise e, σ') ∧
    window_style_cache σ' = window_style_cache (demo_world [false; true]) ∧
    fullscreen_hwnds (self σ') = fullscreen_hwnds (self (demo_world [false; true])) ∧
    self σ' = self (demo_world [false; true]) ∧
    last_fullscreen_by_pid σ' = last_fullscreen_by_pid (demo_world [false; true]).
Proof.
  split; [(vm_compute; reflexivity)|].
  split; [right; right; left; (vm_compute; reflexivity)|].
  apply (snapshot_read_failure_mutates_nothing (demo_world [false; true]) 1 None);
    [(vm_compute; reflexivity) | right; right; left; (vm_compute; reflexivity)].
Defined.

(** C3, as stated, fails when it is the second read of the style (the one
    of the chrome-stripping step) that the operating system refuses: the
    snapshot and the preference written earlier in the call stay. *)
Lemma style_read_failure_keeps_snapshot_and_preference :
  fst (set_borderless_fullscreen 1 None (demo_world fail_second_style_read))
    = Raise Win32Error ∧
  window_style_cache (demo_world fail_second_style_read) !! 1 = None ∧
  window_style_cache
    (snd (set_borderless_fullscreen 1 None (demo_world fail_second_style_read))) !! 1
    = Some (0x14CF0000, 0x00000300, (10, 20, 810, 620)) ∧
  last_fullscreen_by_pid (demo_world fail_second_style_read) = [] ∧
  last_fullscreen_by_pid
    (snd (set_borderless_fullscreen 1 None (demo_world fail_second_style_read)))
    = [(5, ("App.exe", None))].
Proof. vm_compute. repeat split. Qed.

(** C4 (amended): when a transform of an uncached handle fails after the
    snapshot was taken (a failed style write is one such failure), the
    call leaves the membership set as it was, so the handle is not added
    to it, and the cache keeps the snapshot just taken for the handle. *)
Theorem failure_after_snapshot_keeps_entry σ h mr w e σ' :
  window_style_cache σ !! h = None ->
  os_windows (os σ) !! h = Some w ->
  ¬ snapshot_read_fails (os σ) h ->
  set_borderless_fullscreen h mr σ = (Raise e, σ') ->
  fullscreen_hwnds (self σ') = fullscreen_hwnds (self σ) ∧
  window_style_cache σ' !! h = Some (win_style w, win_exstyle w, win_rect w) ∧
  window_style_cache σ' = <[h := snapshot_of w]> (window_style_cache σ).
Proof.
  intros Hc Hw Hok Hrun.
  pose proof (wp_run _ _ _ _ _ Hrun (set_borderless_fullscreen_spec h mr σ))
    as (Hs & _ & _ & Hcache & _ & _).
  rewrite Hc in Hcache. destruct Hcache as [(Hfl & _)|(_ & w' & Hw' & Hc')]; [done|].
  assert (w' = w) as -> by congruence.
  rewrite Hs, Hc'. split; [done|]. split; [|done]. apply lookup_insert_eq.
Qed.

Lemma demo_snapshot_read_succeeds script :
  take 3 script = [false; false; false] ->
  ¬ snapshot_read_fails (os (demo_world script)) 1.
Proof.
  intros Hs [H|[H|[H|H]]]; [vm_compute in H; discriminate| | |].
  all: destruct script as [|[] [|[] [|[] ?]]]; try discriminate Hs.
  all: vm_compute in H; discriminate.
Qed.

Lemma failure_after_snapshot_keeps_entry_witness :
  window_style_cache (demo_world fail_style_write) !! 1 = None ∧
  os_windows (os (demo_world fail_style_write)) !! 1 = Some demo_window ∧
  ¬ snapshot_read_fails (os (demo_world fail_style_write)) 1 ∧
  set_borderless_fullscreen 1 None (demo_world fail_style_write) =
    (Raise Win32Error, snd (set_borderless_fullscreen 1 None (demo_world fail_style_write))) ∧
  fullscreen_hwnds
    (self (snd (set_borderless_fullscreen 1 None (demo_world fail_style_write)))) =
    fullscreen_hwnds (self (demo_world fail_style_write)) ∧
  window_style_cache
    (snd (set_borderless_fullscreen 1 None (demo_world fail_style_write))) !! 1 =
    Some (win_style demo_window, win_exstyle demo_window, win_rect demo_window) ∧
  window_style_cache (snd (set_borderless_fullscreen 1 None (demo_world fail_style_write))) =
    <[1 := snapshot_of demo_window]> (window_style_cache (demo_world fail_style_write)).
Proof.
  split; [(vm_compute; reflexivity)|]. split; [(vm_compute; reflexivity)|].
  split; [apply demo_snapshot_read_succeeds; (vm_compute; reflexivity)|].
  split; [(vm_compute; reflexivity)|].
  apply (failure_after_snapshot_keeps_entry (demo_world fail_style_write) 1 None
           demo_window Win32Error);
    [(vm_compute; reflexivity) | (vm_compute; reflexivity) | apply demo_snapshot_read_succeeds; (vm_compute; reflexivity)
    | (vm_compute; reflexivity)].
Defined.

(** C4, as stated, fails: the style write is the eighth call of the
    transform; when it fails the handle is not a member, but the cache
    has kept the entry. *)
Lemma failed_style_write_leaves_cache_entry :
  fst (set_borderless_fullscreen 1 None (demo_world fail_style_write)) = Raise Win32Error ∧
  os_windows (os (snd (set_borderless_fullscreen 1 None (demo_world fail_style_write)))) !! 1
    = Some demo_window ∧
  elements (fullscreen_hwnds
    (self (snd (set_borderless_fullscreen 1 None (demo_world fail_style_write))))) = [] ∧
  window_style_cache (snd (set_borderless_fullscreen 1 None (demo_world fail_style_write))) !! 1
    = Some (0x14CF0000, 0x00000300, (10, 20, 810, 620)).
Proof. vm_compute. repeat split. Qed.

(** * Dictionary facts *)

Lemma dict_get_set_eq {V} (d : list (Z * V)) k v : dict_get (dict_set d k v) k = Some v.
Proof.
  induction d as [|[k' v'] d IH]; simpl.
  - by rewrite Z.eqb_refl.
  - destruct (Z.eqb k k') eqn:E; simpl; [by rewrite Z.eqb_refl|by rewrite E].
Qed.

Lemma dict_get_set_ne {V} (d : list (Z * V)) k k' v :
  k ≠ k' -> dict_get (dict_set d k v) k' = dict_get d k'.
Proof.
  intros Hne. induction d as [|[k0 v0] d IH]; simpl.
  - destruct (Z.eqb_spec k' k); [congruence|done].
  - destruct (Z.eqb_spec k k0) as [->|]; simpl.
    + destruct (Z.eqb_spec k' k0); [congruence|done].
    + by rewrite IH.
Qed.

Lemma dict_set_id {V} (d : list (Z * V)) k v : dict_get d k = Some v -> dict_set d k v = d.
Proof.
  induction d as [|[k' v'] d IH]; simpl; [done|].
  destruct (Z.eqb_spec k k') as [->|]; [congruence|]. intros H. by rewrite IH.
Qed.

Lemma dict_get_del_eq {V} (d : list (Z * V)) k : dict_get (dict_del d k) k = None.
Proof.
  induction d as [|[k' v'] d IH]; simpl; [done|].
  destruct (Z.eqb k k') eqn:E; simpl; [done|by rewrite E].
Qed.

Lemma dict_get_del_ne {V} (d : list (Z * V)) k k' :
  k ≠ k' -> dict_get (dict_del d k) k' = dict_get d k'.
Proof.
  intros Hne. induction d as [|[k0 v0] d IH]; simpl; [done|].
  destruct (Z.eqb_spec k k0) as [->|]; simpl.
  - destruct (Z.eqb_spec k' k0); [congruence|done].
  - by rewrite IH.
Qed.

Lemma dict_keys_get {V} (d : list (Z * V)) k :
  k ∈ dict_keys d ↔ is_Some (dict_get d k).
Proof.
  unfold dict_keys. induction d as [|[k' v'] d IH]; simpl.
  - split; [by intros H%elem_of_nil|by intros [? ?]].
  - rewrite elem_of_cons, IH. destruct (Z.eqb_spec k k'); naive_solver.
Qed.

(** * The two [move_window_to_*] methods *)

Lemma pop_first_found h l :
  h ∈ map hwnd l -> ∃ win rest, pop_first h l = Some (win, rest) ∧ hwnd win = h.
Proof.
  induction l as [|w l IH]; simpl; [by intros H%elem_of_nil|].
  intros Hin. destruct (Z.eqb_spec (hwnd w) h) as [E|E]; [eauto|].
  apply elem_of_cons in Hin as [Hin|Hin]; [congruence|].
  destruct (IH Hin) as (win & rest & -> & Hwin). eauto.
Qed.

Lemma move_window_to_windowed_spec h σ :
  wp (move_window_to_windowed h) σ (fun r σ' =>
    r = Ok tt ∧
    window_style_cache σ' = window_style_cache σ ∧
    last_fullscreen_by_pid σ' = last_fullscreen_by_pid σ ∧
    (h ∈ map hwnd (fullscreen_windows (self σ)) -> h ∉ fullscreen_hwnds (self σ'))).
Proof.
  unfold move_window_to_windowed. apply wp_bind, wp_gets. cbv beta iota.
  destruct (pop_first h (fullscreen_windows (self σ))) as [[win rest]|] eqn:E.
  - apply wp_modify. simpl. repeat split. set_solver.
  - apply wp_ret. repeat split. intros (? & ? & ? & ?)%pop_first_found. congruence.
Qed.

(** * Revert *)

Lemma revert_to_windowed_prefs h σ s :
  window_style_cache σ !! h = Some s ->
  wp (revert_to_windowed h) σ (fun r σ' =>
    last_fullscreen_by_pid σ' =
      match owners (os σ) !! h with
      | Some (Some p) =>
          if owner_lookup_faulted (os σ) || Z.eqb p 0
          then last_fullscreen_by_pid σ
          else dict_del (last_fullscreen_by_pid σ) p
      | _ => last_fullscreen_by_pid σ
      end).
Proof.
  intros Hc. rewrite owners_lookup.
  destruct (os_windows (os σ) !! h) as [w0|] eqn:Hw0.
  2:{ eapply wp_mono; [apply revert_to_windowed_spec|].
      intros r σ' (_ & _ & _ & _ & _ & [Hp|(p & _ & Ho & _)]); [done|].
      rewrite owners_lookup, Hw0 in Ho. done. }
  unfold revert_to_windowed.
  apply wp_bind, wp_gets. cbv beta iota zeta. rewrite Hc. cbv beta iota zeta.
  destruct s as [[s0 e0] [[[l t] r'] b]].
  wp_go.
  all: unfold owner_lookup_faulted, fault_now in *; simpl in *.
  all: simplify_map_eq.
  all: destruct (os_faults (os σ)) as [|b0 [|b1 [|b2 [|b3 rest]]]]; simpl in *.
  all: repeat match goal with
       | H : _ ∨ _ |- _ => destruct H as [H|H]; try discriminate; try congruence
       | H : ?b = true |- _ => is_var b; subst b
       | H : ?b = false |- _ => is_var b; subst b
       end; simpl.
  all: try match goal with
       | H : win_owner _ = None |- _ => by rewrite H
       end.
  all: try match goal with
       | H : win_owner _ = Some _ |- _ => rewrite ?H
       end.
  all: try done.
  all: try (by destruct (win_owner w0)).
  all: try match goal with
       | Hb : negb (?q =? 0) && _ = _ |- _ =>
           destruct (q =? 0); simpl in Hb; try discriminate; try reflexivity
       end.
  all: try (symmetry; by apply dict_del_absent).
Qed.

(** C5 (amended): for a handle that has a cache entry, [revert_to_windowed]
    returns normally whatever the operating-system calls do and pops the
    snapshot.  It removes the preference of the owning process exactly when
    its owner lookup succeeds (the handle denotes a window with a resolved
    owner and the fault script does not fail that call) and the process id
    is not zero, also after a style write or a move that failed; otherwise
    it leaves the preference table as it is.  It does not touch the
    membership set.  The membership set is updated by the action that calls
    it: after [App.revert_windowed] on the handle selected in the
    fullscreen list the handle is neither cached nor a member, whatever the
    operating-system calls do, and the preference table is the one
    [revert_to_windowed] leaves. *)
Theorem revert_pops_snapshot_and_preference σ h s :
  window_style_cache σ !! h = Some s ->
  ∃ σ',
    revert_to_windowed h σ = (Ok tt, σ') ∧
    window_style_cache σ' = delete h (window_style_cache σ) ∧
    window_style_cache σ' !! h = None ∧
    self σ' = self σ ∧
    last_fullscreen_by_pid σ' =
      match owners (os σ) !! h with
      | Some (Some p) =>
          if owner_lookup_faulted (os σ) || Z.eqb p 0
          then last_fullscreen_by_pid σ
          else dict_del (last_fullscreen_by_pid σ) p
      | _ => last_fullscreen_by_pid σ
      end ∧
    (forall p, owners (os σ) !! h = Some (Some p) -> p ≠ 0 ->
       owner_lookup_faulted (os σ) = false ->
       dict_get (last_fullscreen_by_pid σ') p = None) ∧
    (selected_in fullscreen (self σ) = Some h ->
     h ∈ map hwnd (fullscreen_windows (self σ)) ->
     ∃ σ'', revert_windowed σ = (Ok tt, σ'') ∧
            window_style_cache σ'' !! h = None ∧
            h ∉ fullscreen_hwnds (self σ'') ∧
            last_fullscreen_by_pid σ'' = last_fullscreen_by_pid σ').
Proof.
  intros Hc.
  destruct (wp_elim _ _ _ (wp_and _ _ _ _
              (revert_to_windowed_spec h σ) (revert_to_windowed_prefs h σ s Hc)))
    as (r & σ' & Hrun & (-> & Hs & _ & _ & Hc' & _) & Hp).
  exists σ'. split; [exact Hrun|]. split; [exact Hc'|].
  split; [rewrite Hc'; apply lookup_delete_eq|]. split; [exact Hs|].
  split; [exact Hp|]. split.
  - intros p Ho Hne Hnf. rewrite Hp, Ho, Hnf.
    destruct (Z.eqb_spec p 0); [done|]. apply dict_get_del_eq.
  - intros Hsel Hin. unfold revert_windowed, bind, gets, try_except at 1. simpl.
    rewrite Hsel. unfold try_except, bind. rewrite Hrun.
    destruct (wp_elim _ _ _ (move_window_to_windowed_spec h σ'))
      as (r2 & σ2 & Hrun2 & -> & Hc2 & Hp2 & Hm).
    rewrite Hrun2. exists σ2. split; [done|]. split.
    + rewrite Hc2, Hc'. apply lookup_delete_eq.
    + split; [|exact Hp2]. apply Hm. by rewrite Hs.
Qed.

Lemma revert_pops_snapshot_and_preference_witness :
  window_style_cache demo_fullscreen_failing !! 1
    = Some (0x14CF0000, 0x00000300, (10, 20, 810, 620)) ∧
  selected_in fullscreen (self demo_fullscreen_failing) = Some 1 ∧
  1 ∈ map hwnd (fullscreen_windows (self demo_fullscreen_failing)) ∧
  dict_get (last_fullscreen_by_pid demo_fullscreen_failing) 5 = Some ("App.exe", None) ∧
  fault_now (os demo_fullscreen_failing) = true ∧
  ∃ σ' σ'',
    revert_to_windowed 1 demo_fullscreen_failing = (Ok tt, σ') ∧
    window_style_cache σ' !! 1 = None ∧
    last_fullscreen_by_pid σ' = [] ∧
    revert_windowed demo_fullscreen_failing = (Ok tt, σ'') ∧
    window_style_cache σ'' !! 1 = None ∧
    (1 ∉ fullscreen_hwnds (self σ'')) ∧
    last_fullscreen_by_pid σ'' = [].
Proof.
  assert (H1 : window_style_cache demo_fullscreen_failing !! 1
               = Some (0x14CF0000, 0x00000300, (10, 20, 810, 620)))
    by (vm_compute; reflexivity).
  assert (H2 : selected_in fullscreen (self demo_fullscreen_failing) = Some 1)
    by (vm_compute; reflexivity).
  assert (H3 : 1 ∈ map hwnd (fullscreen_windows (self demo_fullscreen_failing)))
    by (vm_compute; apply list_elem_of_here).
  destruct (revert_pops_snapshot_and_preference demo_fullscreen_failing 1 _ H1)
    as (σ' & Hrun & _ & Hn & _ & Hp & _ & Hrw).
  destruct (Hrw H2 H3) as (σ'' & Hrun2 & Hn2 & Hm2 & Hp2).
  assert (Hp' : last_fullscreen_by_pid σ' = []).
  { rewrite Hp. vm_compute. reflexivity. }
  split; [exact H1|]. split; [exact H2|]. split; [exact H3|].
  split; [vm_compute; reflexivity|]. split; [vm_compute; reflexivity|].
  exists σ', σ''. rewrite Hp2, Hp'. auto 10.
Defined.

(** C5, as stated, fails: after [revert_to_windowed] has returned, the
    handle of a borderless window is still in the membership set although
    its cache entry is gone. *)
Lemma revert_to_windowed_keeps_membership :
  window_style_cache demo_fullscreen !! 1 = Some (0x14CF0000, 0x00000300, (10, 20, 810, 620)) ∧
  elements (fullscreen_hwnds (self demo_fullscreen)) = [1] ∧
  fst (revert_to_windowed 1 demo_fullscreen) = Ok tt ∧
  window_style_cache (snd (revert_to_windowed 1 demo_fullscreen)) !! 1 = None ∧
  elements (fullscreen_hwnds (self (snd (revert_to_windowed 1 demo_fullscreen)))) = [1].
Proof. vm_compute. repeat split. Qed.

(** * The reconciliation pass: classification and cleanup *)

Lemma classify_run ws nw nf nh σ :
  classify ws (nw, nf, nh) σ =
  (Ok (nw ++ List.filter (fun w => negb (tracked σ w)) ws,
       nf ++ List.filter (tracked σ) ws,
       list_to_set (hwnd <$> List.filter (tracked σ) ws) ∪ nh), σ).
Proof.
  revert nw nf nh. induction ws as [|w ws IH]; intros nw nf nh.
  - simpl. unfold ret. rewrite !app_nil_r. f_equal. f_equal. f_equal. set_solver.
  - simpl. unfold bind, gets. fold (tracked σ w).
    destruct (tracked σ w) eqn:Ht; simpl; rewrite IH.
    + f_equal. f_equal. f_equal; [by rewrite <- app_assoc|]. set_solver.
    + f_equal. f_equal. f_equal. f_equal. by rewrite <- app_assoc.
Qed.

Lemma foldr_delete_lookup {V} (c : gmap Z V) (l : list Z) k :
  foldr delete c l !! k = if decide (k ∈ l) then None else c !! k.
Proof.
  induction l as [|x l IH]; simpl.
  - destruct (decide (k ∈ [])) as [H|]; [by apply elem_of_nil in H|done].
  - destruct (decide (x = k)) as [->|Hne].
    + rewrite lookup_delete_eq. destruct (decide (k ∈ k :: l)); [done|set_solver].
    + rewrite lookup_delete_ne, IH by done.
      destruct (decide (k ∈ l)), (decide (k ∈ x :: l)); set_solver.
Qed.

Lemma set_fullscreen_hwnds_same a : set_fullscreen_hwnds (fullscreen_hwnds a) a = a.
Proof. by destruct a. Qed.

Lemma cleanup_closed_spec nh σ :
  wp (cleanup_closed nh) σ (fun r σ' =>
    r = Ok tt ∧
    os σ' = os σ ∧
    last_fullscreen_by_pid σ' = last_fullscreen_by_pid σ ∧
    invocations σ' = invocations σ ∧
    self σ' = set_fullscreen_hwnds (fullscreen_hwnds (self σ) ∩ nh) (self σ) ∧
    forall k, window_style_cache σ' !! k =
              if decide (k ∈ fullscreen_hwnds (self σ) ∖ nh) then None
              else window_style_cache σ !! k).
Proof.
  unfold cleanup_closed. wp_go.
  - apply bool_decide_eq_true in Heqb.
    do 4 (split; [reflexivity|]). split.
    + rewrite <- (set_fullscreen_hwnds_same (self σ)) at 1. f_equal.
      apply set_eq. intros x. rewrite elem_of_intersection. split; [|tauto].
      intros Hx. split; [done|]. destruct (decide (x ∈ nh)) as [|Hn]; [done|].
      assert (Hd : x ∈ fullscreen_hwnds (self σ) ∖ nh) by (by apply elem_of_difference).
      rewrite Heqb in Hd. by apply not_elem_of_empty in Hd.
    + intros k. rewrite Heqb. destruct (decide (k ∈ ∅)); [set_solver|done].
  - simpl. do 4 (split; [reflexivity|]). split.
    + unfold set_fullscreen_hwnds. simpl. f_equal. apply set_eq. intros x.
      rewrite elem_of_difference, elem_of_difference, elem_of_intersection.
      destruct (decide (x ∈ nh)); tauto.
    + intros k. rewrite foldr_delete_lookup.
      destruct (decide (k ∈ elements (fullscreen_hwnds (self σ) ∖ nh))) as [H|H],
               (decide (k ∈ fullscreen_hwnds (self σ) ∖ nh)) as [H'|H']; try done.
      * by apply elem_of_elements in H.
      * by apply elem_of_elements in H'.
Qed.

Lemma collect_dead_run ps acc σ :
  collect_dead ps acc σ =
  (Ok (acc ++ List.filter (fun p => negb (alive (os σ) p)) ps), σ).
Proof.
  revert acc. induction ps as [|p ps IH]; intros acc; simpl.
  - unfold ret. by rewrite app_nil_r.
  - unfold bind, pid_exists, gets. fold (alive (os σ) p).
    rewrite IH. destruct (alive (os σ) p); simpl; [done|by rewrite <- app_assoc].
Qed.

Lemma cleanup_pids_spec σ :
  wp cleanup_pids σ (fun r σ' =>
    r = Ok tt ∧
    os σ' = os σ ∧
    window_style_cache σ' = window_style_cache σ ∧
    self σ' = self σ ∧
    invocations σ' = invocations σ).
Proof.
  unfold cleanup_pids. apply wp_bind, wp_gets. cbv beta iota.
  apply wp_bind. unfold wp at 1. rewrite collect_dead_run. simpl.
  apply (wp_for_each (fun σ1 => os σ1 = os σ ∧
                                 window_style_cache σ1 = window_style_cache σ ∧
                                 self σ1 = self σ ∧ invocations σ1 = invocations σ)).
  - done.
  - intros p σ1 _ (?&?&?&?). apply wp_modify. simpl. auto.
Qed.

(** * The reconciliation pass: auto-reapply *)

Lemma truthy_Some n : truthy (Some n) = true -> n ≠ "".
Proof. by destruct n. Qed.

Lemma reapply_window_spec p w σ :
  wp (reapply_window p w) σ (fun r σ' => r = Ok tt ∧ examined p w σ σ').
Proof.
  unfold reapply_window, examined. apply wp_bind, wp_gets. cbv beta iota.
  destruct (dict_get (last_fullscreen_by_pid σ) p) as [[n mr]|] eqn:Hget;
    cbv beta iota zeta.
  2:{ apply wp_ret. split; [done|]. left. split; [done|].
      intros (? & ? & ? & _). congruence. }
  destruct (truthy (Some n) && bool_decide (Some n = process_name w)) eqn:Hguard.
  2:{ apply wp_ret. split; [done|]. left. split; [done|].
      intros (n0 & mr0 & Hg & Hn0 & Hname & _).
      assert (n0 = n) as -> by congruence.
      apply andb_false_iff in Hguard as [Ht|Hd].
      - destruct n; [done|discriminate].
      - apply bool_decide_eq_false in Hd. congruence. }
  apply andb_prop in Hguard as [Hn Hname].
  apply truthy_Some in Hn. apply bool_decide_eq_true in Hname.
  apply wp_bind, wp_gets. cbv beta iota. apply wp_bind, wp_gets. cbv beta iota.
  destruct (bool_decide (hwnd w ∉ fullscreen_hwnds (self σ))
            && bool_decide (window_style_cache σ !! hwnd w = None)) eqn:Hfree.
  2:{ apply wp_ret. split; [done|]. left. split; [done|].
      intros (_ & _ & _ & _ & _ & Hm & Hc).
      apply andb_false_iff in Hfree as [Hd|Hd]; apply bool_decide_eq_false in Hd; done. }
  apply andb_prop in Hfree as [Hmem Hcache].
  apply bool_decide_eq_true in Hmem. apply bool_decide_eq_true in Hcache.
  apply wp_try_except, wp_bind.
  eapply wp_mono; [apply set_borderless_fullscreen_spec|].
  intros r σ1 (Hs & Hi & Hd & Hc & Hp & Hwin).
  rewrite Hcache in Hc.
  assert (Hother : forall k, k ≠ hwnd w ->
            window_style_cache σ1 !! k = window_style_cache σ !! k).
  { intros k Hk. destruct Hc as [(_ & _ & -> & _)|(_ & w0 & _ & ->)]; [done|].
    by rewrite lookup_insert_ne. }
  assert (Hlog : ∃ n0 mr0,
    dict_get (last_fullscreen_by_pid σ) p = Some (n0, mr0) ∧ n0 ≠ "" ∧
    process_name w = Some n0 ∧
    invocations σ1 = invocations σ ++ [(hwnd w, mr0)] ∧
    (last_fullscreen_by_pid σ1 = last_fullscreen_by_pid σ ∨
     ∃ q, owners (os σ) !! hwnd w = Some (Some q) ∧ q ≠ 0 ∧
          last_fullscreen_by_pid σ1 =
            dict_set (last_fullscreen_by_pid σ) q (resolved_name (os σ) q, mr0))).
  { exists n, mr. auto. }
  assert (Hsome : r = Ok tt -> is_Some (window_style_cache σ1 !! hwnd w)).
  { intros Hr. destruct Hc as [(_ & Hne & _)|(_ & w0 & _ & ->)]; [done|].
    rewrite lookup_insert_eq. eauto. }
  destruct r as [[]|e].
  - apply wp_modify. split; [done|]. right.
    split; [done|]. split; [done|]. split; [exact Hd|]. split; [exact Hother|].
    split; [|exact Hlog].
    exists ({[hwnd w]} ∪ fullscreen_hwnds (self σ)). simpl. rewrite Hs. split; [done|].
    right. split; [done|]. by apply Hsome.
  - apply wp_ret. split; [done|]. right.
    split; [done|]. split; [done|]. split; [exact Hd|]. split; [exact Hother|].
    split; [|exact Hlog].
    exists (fullscreen_hwnds (self σ)). split; [|by left].
    rewrite Hs. symmetry. apply set_fullscreen_hwnds_same.
Qed.

Lemma pid_to_windows_lookup (ws : list WindowInfo)
    (m : gmap (option Z) (list WindowInfo)) (k : option Z) :
  fold_left setdefault_append ws m !! k =
  match filter (fun w => pid w = k) ws with
  | [] => m !! k
  | l => Some (default [] (m !! k) ++ l)
  end.
Proof.
  revert m. induction ws as [|w ws IH]; intros m; simpl; [done|].
  rewrite IH. unfold setdefault_append.
  destruct (decide (pid w = k)) as [E|E].
  - rewrite filter_cons_True by done. subst k.
    rewrite lookup_insert_eq. simpl.
    destruct (filter (fun w0 => pid w0 = pid w) ws); simpl.
    + done.
    + by rewrite <- app_assoc.
  - rewrite filter_cons_False by done. by rewrite lookup_insert_ne.
Qed.

Lemma build_pid_to_windows_lookup (ws : list WindowInfo) (p : Z) l :
  build_pid_to_windows ws !! Some p = Some l ->
  l = filter (fun w => pid w = Some p) ws.
Proof.
  unfold build_pid_to_windows. rewrite pid_to_windows_lookup, lookup_empty.
  destruct (filter _ ws); simpl; congruence.
Qed.

Lemma build_pid_to_windows_elem (ws : list WindowInfo) (p : Z) w :
  w ∈ ws -> pid w = Some p ->
  ∃ l, build_pid_to_windows ws !! Some p = Some l ∧ w ∈ l.
Proof.
  intros Hin Hp. unfold build_pid_to_windows.
  rewrite pid_to_windows_lookup, lookup_empty.
  assert (Hf : w ∈ filter (fun w0 => pid w0 = Some p) ws)
    by (apply list_elem_of_filter; auto).
  destruct (filter _ ws) as [|x l]; [by apply elem_of_nil in Hf|].
  simpl. eauto.
Qed.

(** A loop that never lets an exception out, with an invariant that knows
    which elements were processed. *)
Lemma wp_for_each_done {A} (I : list A -> World -> Prop) (l : list A)
    (body : A -> M unit) σ :
  I [] σ ->
  (forall done x rest σ1, l = done ++ x :: rest -> I done σ1 ->
     wp (body x) σ1 (fun r σ2 => r = Ok tt ∧ I (done ++ [x]) σ2)) ->
  wp (for_each l body) σ (fun r σ' => r = Ok tt ∧ I l σ').
Proof.
  intros HI Hbody.
  assert (H : forall done rest σ1, l = done ++ rest -> I done σ1 ->
            wp (for_each rest body) σ1 (fun r σ' => r = Ok tt ∧ I l σ')).
  { intros done rest. revert done. induction rest as [|x rest IH]; intros done σ1 Hl HI1.
    - rewrite app_nil_r in Hl. subst done. apply wp_ret. auto.
    - simpl. apply wp_bind. eapply wp_mono; [eapply Hbody; eauto|].
      intros r σ2 [-> HI2]. apply (IH (done ++ [x])); [|exact HI2].
      by rewrite <- app_assoc. }
  apply (H [] l); auto.
Qed.

(** The auto-reapply step, for an invariant [I] of the examinations and a
    property [D p w] that an examination of [w] for [p] establishes and
    later examinations keep. *)
Lemma reapply_loop (I : World -> Prop) (D : Z -> WindowInfo -> World -> Prop) ws σ :
  I σ ->
  (forall p w σ1 σ2, w ∈ ws -> pid w = Some p -> I σ1 -> examined p w σ1 σ2 ->
     I σ2 ∧ D p w σ2 ∧ forall p' w', D p' w' σ1 -> D p' w' σ2) ->
  wp (reapply ws) σ (fun r σ' =>
    r = Ok tt ∧ I σ' ∧
    forall p w, p ∈ dict_keys (last_fullscreen_by_pid σ) -> w ∈ ws -> pid w = Some p ->
                D p w σ').
Proof.
  intros HI Hstep. unfold reapply. apply wp_bind, wp_gets. cbv beta iota.
  eapply wp_mono.
  - apply (wp_for_each_done
      (fun done σ1 => I σ1 ∧ forall p w, p ∈ done -> w ∈ ws -> pid w = Some p -> D p w σ1)).
    + split; [exact HI|]. intros p w Hp. by apply elem_of_nil in Hp.
    + intros done p rest σ1 _ [HI1 HD1]. unfold reapply_pid. apply wp_try_except.
      destruct (build_pid_to_windows ws !! Some p) as [l|] eqn:Hl.
      * apply build_pid_to_windows_lookup in Hl.
        eapply wp_mono.
        -- apply (wp_for_each_done
             (fun done' σ2 => I σ2 ∧
                (forall p' w, p' ∈ done -> w ∈ ws -> pid w = Some p' -> D p' w σ2) ∧
                (forall w, w ∈ done' -> D p w σ2))).
           ++ split; [exact HI1|]. split; [exact HD1|].
              intros w Hw. by apply elem_of_nil in Hw.
           ++ intros done' w rest' σ2 Hsplit (HI2 & HD2 & HD2').
              assert (Hwl : w ∈ l) by (rewrite Hsplit; set_solver).
              rewrite Hl in Hwl. apply list_elem_of_filter in Hwl as [Hpw Hw].
              eapply wp_mono; [apply reapply_window_spec|].
              intros r σ3 [-> Hex].
              destruct (Hstep p w σ2 σ3 Hw Hpw HI2 Hex) as (HI3 & HDw & Hmono).
              split; [done|]. split; [exact HI3|]. split.
              ** intros p' w' ? ? ?. apply Hmono. by apply HD2.
              ** intros w' [Hw'|Hw']%elem_of_app.
                 --- apply Hmono. by apply HD2'.
                 --- apply list_elem_of_singleton in Hw'. by subst w'.
        -- intros r σ2 [-> (HI2 & HD2 & HD2')]. simpl.
           split; [done|]. split; [exact HI2|].
           intros p' w [Hp'|Hp']%elem_of_app Hw Hpw.
           ++ by apply HD2.
           ++ apply list_elem_of_singleton in Hp'. subst p'. apply HD2'.
              rewrite Hl. apply list_elem_of_filter. auto.
      * apply wp_ret. split; [done|]. split; [exact HI1|].
        intros p' w [Hp'|Hp']%elem_of_app Hw Hpw.
        -- by apply HD1.
        -- apply list_elem_of_singleton in Hp'. subst p'.
           destruct (build_pid_to_windows_elem ws p w Hw Hpw) as (l & Hl' & _).
           congruence.
  - intros r σ' [-> [HI' HD']]. auto.
Qed.

Lemma reapply_invariant (I : World -> Prop) ws σ :
  I σ ->
  (forall p w σ1 σ2, w ∈ ws -> pid w = Some p -> I σ1 -> examined p w σ1 σ2 -> I σ2) ->
  wp (reapply ws) σ (fun r σ' => r = Ok tt ∧ I σ').
Proof.
  intros HI Hstep.
  eapply wp_mono; [apply (reapply_loop I (fun _ _ _ => True)); [exact HI|]|].
  - intros p w σ1 σ2 Hw Hp HI1 Hex. split; [eauto|]. split; auto.
  - intros r σ' (-> & HI' & _). auto.
Qed.

Lemma restore_selection_frame h k a :
  windowed_windows (restore_selection h k a) = windowed_windows a ∧
  fullscreen_windows (restore_selection h k a) = fullscreen_windows a ∧
  fullscreen_hwnds (restore_selection h k a) = fullscreen_hwnds a ∧
  is_minimized (restore_selection h k a) = is_minimized a.
Proof.
  unfold restore_selection. destruct h as [h|], k as [k|]; try done.
  destruct (existsb _ _); done.
Qed.

Lemma update_windows_lists_spec ws σ (R : World -> Prop) :
  wp (reapply ws) σ (fun r σ1 => r = Ok tt ∧ R σ1) ->
  wp (update_windows_lists ws) σ (fun r σ' =>
    r = Ok tt ∧ ∃ σ1, R σ1 ∧ pass_result ws σ1 σ').
Proof.
  intros Hre. unfold update_windows_lists.
  apply wp_bind, wp_gets. cbv beta iota. apply wp_bind, wp_gets. cbv beta iota.
  apply wp_bind. eapply wp_mono; [exact Hre|].
  intros r σ1 [-> HR]. apply wp_bind. unfold wp at 1. rewrite classify_run. simpl.
  rewrite union_empty_r_L.
  apply wp_bind. eapply wp_mono; [apply cleanup_closed_spec|].
  intros r σ2 (-> & Ho2 & _ & Hi2 & Hs2 & Hc2).
  apply wp_bind. eapply wp_mono; [apply cleanup_pids_spec|].
  intros r σ3 (-> & Ho3 & Hc3 & Hs3 & Hi3).
  apply wp_bind, wp_modify, wp_modify.
  split; [done|]. exists σ1. split; [exact HR|].
  destruct (restore_selection_frame (selected_hwnd (self σ)) (selected_list (self σ))
              (set_lists (List.filter (fun w => negb (tracked σ1 w)) ws)
                         (List.filter (tracked σ1) ws) (self σ3)))
    as (Hw & Hf & Hm & _).
  unfold pass_result. simpl. rewrite Hw, Hf, Hm. simpl.
  rewrite Ho3, Ho2, Hi3, Hi2, Hs3, Hs2, Hc3. simpl.
  repeat split; auto.
Qed.

Lemma tracked_spec σ w :
  tracked σ w = true ↔
  hwnd w ∈ fullscreen_hwnds (self σ) ∧ is_Some (window_style_cache σ !! hwnd w).
Proof.
  unfold tracked. rewrite andb_true_iff, !bool_decide_eq_true. done.
Qed.

Lemma elem_of_tracked_handles σ ws h :
  h ∈ (list_to_set (hwnd <$> List.filter (tracked σ) ws) : gset Z) ↔
  h ∈ fullscreen_hwnds (self σ) ∧ is_Some (window_style_cache σ !! h) ∧
  ∃ w, w ∈ ws ∧ hwnd w = h.
Proof.
  rewrite elem_of_list_to_set, list_elem_of_fmap. split.
  - intros (w & -> & Hw). apply list_elem_of_In, filter_In in Hw as [Hw Ht].
    apply tracked_spec in Ht as [? ?]. apply list_elem_of_In in Hw. eauto.
  - intros (Hm & Hc & w & Hw & <-). exists w. split; [done|].
    apply list_elem_of_In, filter_In. split; [by apply list_elem_of_In|].
    by apply tracked_spec.
Qed.

(** * Invariant I1 *)

(** C2 (amended): every reconciliation pass returns normally, and after it
    every handle of the membership set is a key of the cache and the handle
    of an enumerated record; the members are exactly the handles of the
    published fullscreen list. *)
Theorem members_are_cached_after_pass ws σ :
  ∃ σ',
    update_windows_lists ws σ = (Ok tt, σ') ∧
    (forall h, h ∈ fullscreen_hwnds (self σ') ->
       is_Some (window_style_cache σ' !! h) ∧ h ∈ hwnd <$> ws) ∧
    fullscreen_hwnds (self σ') = list_to_set (hwnd <$> fullscreen_windows (self σ')).
Proof.
  destruct (wp_elim _ _ _
    (update_windows_lists_spec ws σ (fun _ => True)
       (reapply_invariant (fun _ => True) ws σ I (fun _ _ _ _ _ _ _ _ => I))))
    as (r & σ' & Hrun & -> & σ1 & _ & _ & _ & Hf & _ & Hm & Hc).
  exists σ'. split; [exact Hrun|]. split.
  - intros h Hh. rewrite Hm in Hh. apply elem_of_intersection in Hh as [Hh1 Hh2].
    pose proof Hh2 as (_ & Hsome & w & Hw & <-)%elem_of_tracked_handles.
    split.
    + rewrite Hc. destruct (decide _) as [Hd|_]; [|exact Hsome]. set_solver.
    + apply list_elem_of_fmap. eauto.
  - rewrite Hm, Hf. apply set_eq. intros h. rewrite elem_of_intersection.
    split; [tauto|]. intros Hh. split; [|exact Hh].
    by apply elem_of_tracked_handles in Hh as (? & _).
Qed.

(** C2, as stated, fails: a transform that failed at the style write has
    left a cache entry for a handle that is not a member, and the next
    refresh keeps both as they are. *)
Lemma pass_keeps_cache_entry_of_non_member :
  fst (make_fullscreen (demo_selected fail_style_write)) = Ok tt ∧
  fst (refresh_windows (snd (make_fullscreen (demo_selected fail_style_write)))) = Ok tt ∧
  window_style_cache
    (snd (refresh_windows (snd (make_fullscreen (demo_selected fail_style_write))))) !! 1
    = Some (0x14CF0000, 0x00000300, (10, 20, 810, 620)) ∧
  elements (fullscreen_hwnds (self
    (snd (refresh_windows (snd (make_fullscreen (demo_selected fail_style_write))))))) = [].
Proof. vm_compute. repeat split. Qed.

(** C9: a handle that is a member without a cache entry is, by the next
    pass, put in the windowed list wherever it was enumerated and removed
    from the membership set; and the pass keeps every cache entry whose
    handle is not a member. *)
Theorem pass_repairs_member_without_snapshot ws σ h :
  h ∈ fullscreen_hwnds (self σ) ->
  window_style_cache σ !! h = None ->
  ∃ σ',
    update_windows_lists ws σ = (Ok tt, σ') ∧
    (h ∉ fullscreen_hwnds (self σ')) ∧
    (forall w, w ∈ ws -> hwnd w = h ->
       w ∈ windowed_windows (self σ') ∧ w ∉ fullscreen_windows (self σ')) ∧
    (forall k s, k ∉ fullscreen_hwnds (self σ) -> window_style_cache σ !! k = Some s ->
       window_style_cache σ' !! k = Some s ∧ k ∉ fullscreen_hwnds (self σ')).
Proof.
  intros Hmem Hnone.
  pose (Inv := fun σ1 : World =>
    h ∈ fullscreen_hwnds (self σ1) ∧ window_style_cache σ1 !! h = None ∧
    forall k s, k ∉ fullscreen_hwnds (self σ) -> window_style_cache σ !! k = Some s ->
      (k ∉ fullscreen_hwnds (self σ1)) ∧ window_style_cache σ1 !! k = Some s).
  assert (Hre : wp (reapply ws) σ (fun r σ1 => r = Ok tt ∧ Inv σ1)).
  { apply reapply_invariant; [by repeat split|].
    intros p w σ1 σ2 _ _ (Hm1 & Hc1 & Hk1) [[-> _]|Hre]; [by split|].
    destruct Hre as (Hw & Hcw & _ & Hoff & (X & HX & HXc) & _).
    assert (Hne : h ≠ hwnd w) by (intros ->; done).
    assert (HmX : fullscreen_hwnds (self σ2) = X) by (by rewrite HX).
    split; [rewrite HmX; destruct HXc as [->|[-> _]]; set_solver|].
    split; [by rewrite Hoff|].
    intros k s Hk Hs. destruct (Hk1 k s Hk Hs) as [Hk' Hs'].
    assert (k ≠ hwnd w) by (intros ->; congruence).
    split; [|by rewrite Hoff].
    rewrite HmX. destruct HXc as [->|[-> _]]; set_solver. }
  destruct (wp_elim _ _ _ (update_windows_lists_spec ws σ Inv Hre))
    as (r & σ' & Hrun & -> & σ1 & (Hm1 & Hc1 & Hk1) & _ & _ & Hf & Hwd & Hm & Hc).
  exists σ'. split; [exact Hrun|].
  assert (Hnt : forall w, hwnd w = h -> tracked σ1 w = false).
  { intros w <-. apply not_true_is_false. intros [_ [? ?]]%tracked_spec. congruence. }
  split.
  { rewrite Hm. intros [_ (_ & [? ?] & _)%elem_of_tracked_handles]%elem_of_intersection.
    congruence. }
  split.
  { intros w Hw Hh. rewrite Hwd, Hf. split.
    - apply list_elem_of_In, filter_In. split; [by apply list_elem_of_In|].
      by rewrite Hnt.
    - intros [_ Ht]%list_elem_of_In%filter_In. rewrite Hnt in Ht; done. }
  intros k s Hk Hs. destruct (Hk1 k s Hk Hs) as [Hk' Hs']. split.
  - rewrite Hc. destruct (decide _) as [Hd|_]; [set_solver|exact Hs'].
  - rewrite Hm. set_solver.
Qed.

Lemma pass_repairs_member_without_snapshot_witness :
  1 ∈ fullscreen_hwnds (self demo_inconsistent) ∧
  window_style_cache demo_inconsistent !! 1 = None ∧
  ∃ σ',
    update_windows_lists [demo_record] demo_inconsistent = (Ok tt, σ') ∧
    (1 ∉ fullscreen_hwnds (self σ')) ∧
    (forall w, w ∈ [demo_record] -> hwnd w = 1 ->
       w ∈ windowed_windows (self σ') ∧ w ∉ fullscreen_windows (self σ')) ∧
    (forall k s, k ∉ fullscreen_hwnds (self demo_inconsistent) ->
       window_style_cache demo_inconsistent !! k = Some s ->
       window_style_cache σ' !! k = Some s ∧ k ∉ fullscreen_hwnds (self σ')).
Proof.
  split; [vm_compute; set_solver|]. split; [(vm_compute; reflexivity)|].
  apply (pass_repairs_member_without_snapshot [demo_record] demo_inconsistent 1);
    [vm_compute; set_solver | (vm_compute; reflexivity)].
Defined.

(** * Reapplication policy *)

Lemma resolved_name_same o o' q :
  os_processes o' = os_processes o -> resolved_name o' q = resolved_name o q.
Proof. unfold resolved_name. by intros ->. Qed.

Lemma reapply_candidates ws σ :
  wp (reapply ws) σ (fun r σ1 =>
    r = Ok tt ∧
    ∃ new,
      invocations σ1 = invocations σ ++ new ∧
      (forall h r, (h, r) ∈ new ->
         (h ∉ fullscreen_hwnds (self σ)) ∧ window_style_cache σ !! h = None ∧
         h ∈ hwnd <$> ws) ∧
      (NoDup (hwnd <$> ws) -> (forall w, w ∈ ws -> os_agrees (os σ) w) ->
       (forall p n r w,
          dict_get (last_fullscreen_by_pid σ) p = Some (n, r) ->
          w ∈ ws -> pid w = Some p -> process_name w = Some n -> n ≠ "" ->
          hwnd w ∉ fullscreen_hwnds (self σ) -> window_style_cache σ !! hwnd w = None ->
          (hwnd w, r) ∈ new) ∧
       (forall h r, (h, r) ∈ new ->
          ∃ w p n, w ∈ ws ∧ hwnd w = h ∧ pid w = Some p ∧
                   dict_get (last_fullscreen_by_pid σ) p = Some (n, r) ∧
                   process_name w = Some n ∧ n ≠ ""))).
Proof.
  set (Hyp := NoDup (hwnd <$> ws) ∧ forall w, w ∈ ws -> os_agrees (os σ) w).
  set (justified := fun (h : Z) (r : option Rect) =>
    ∃ w p n, w ∈ ws ∧ hwnd w = h ∧ pid w = Some p ∧
             dict_get (last_fullscreen_by_pid σ) p = Some (n, r) ∧
             process_name w = Some n ∧ n ≠ "").
  set (Inv := fun σ1 : World =>
    fullscreen_hwnds (self σ) ⊆ fullscreen_hwnds (self σ1) ∧
    (forall h, is_Some (window_style_cache σ !! h) -> is_Some (window_style_cache σ1 !! h)) ∧
    ∃ new,
      invocations σ1 = invocations σ ++ new ∧
      (forall h r, (h, r) ∈ new ->
         (h ∉ fullscreen_hwnds (self σ)) ∧ window_style_cache σ !! h = None ∧
         h ∈ hwnd <$> ws) ∧
      (Hyp ->
       last_fullscreen_by_pid σ1 = last_fullscreen_by_pid σ ∧
       same_desktop σ σ1 ∧
       (forall h r, (h, r) ∈ new -> justified h r) ∧
       (forall h, h ∈ fullscreen_hwnds (self σ1) ∨ is_Some (window_style_cache σ1 !! h) ->
          (h ∈ fullscreen_hwnds (self σ) ∨ is_Some (window_style_cache σ !! h)) ∨
          ∃ r, (h, r) ∈ new))).
  set (Done := fun (p : Z) (w : WindowInfo) (σ1 : World) =>
    Hyp -> forall n r,
      dict_get (last_fullscreen_by_pid σ) p = Some (n, r) ->
      process_name w = Some n -> n ≠ "" ->
      hwnd w ∉ fullscreen_hwnds (self σ) -> window_style_cache σ !! hwnd w = None ->
      ∃ new, invocations σ1 = invocations σ ++ new ∧ (hwnd w, r) ∈ new).
  eapply wp_mono; [apply (reapply_loop Inv Done)|].
  - (* the invariant holds at the start *)
    split; [done|]. split; [done|]. exists []. rewrite app_nil_r. split; [done|].
    split; [by intros ? ? ?%elem_of_nil|]. intros _. split; [done|].
    split; [apply same_desktop_refl|]. split; [by intros ? ? ?%elem_of_nil|]. auto.
  - (* one examination *)
    intros p w σ1 σ2 Hw Hpw (Hsub & Hmono & new & Hlog & Hfresh & Hc) Hex.
    destruct Hex as [[-> Hnot]|Hre].
    + (* the test failed: nothing changed *)
      split; [unfold Inv; eauto 10|]. split; [|auto].
      intros Hhyp n r Hget Hname Hn Hm0 Hc0.
      destruct (Hc Hhyp) as (Hprefs & _ & Hjust & Hprov).
      exists new. split; [exact Hlog|].
      assert (Htr : hwnd w ∈ fullscreen_hwnds (self σ1)
                    ∨ is_Some (window_style_cache σ1 !! hwnd w)).
      { destruct (decide (hwnd w ∈ fullscreen_hwnds (self σ1))) as [|Hfree]; [auto|].
        destruct (window_style_cache σ1 !! hwnd w) eqn:E; [eauto|].
        exfalso. apply Hnot. exists n, r. rewrite Hprefs. auto. }
      destruct (Hprov _ Htr) as [[?|[? ?]]|[r' Hr']]; [done|congruence|].
      destruct (Hjust _ _ Hr') as (w' & p' & n' & Hw' & Hh' & Hp' & Hget' & _).
      destruct Hhyp as [Hnd _].
      assert (w' = w) as ->.
      { apply (NoDup_fmap_1 hwnd) in Hnd as Hnd'.
        destruct (list_elem_of_lookup_1 _ _ Hw') as [i Hi].
        destruct (list_elem_of_lookup_1 _ _ Hw) as [j Hj].
        assert (i = j) as ->; [|congruence].
        eapply NoDup_lookup;
          [exact Hnd
          | rewrite list_lookup_fmap, Hi; reflexivity
          | rewrite list_lookup_fmap, Hj; simpl; by rewrite Hh']. }
      assert (p' = p) as -> by congruence.
      by assert (r' = r) as -> by congruence.
    + (* the transform ran *)
      destruct Hre as (Hm1 & Hc1 & Hd12 & Hoff & (X & HX & HXc) & n & mr & Hget1 & Hn &
                       Hname & Hlog2 & Hprefs2).
      assert (HmX : fullscreen_hwnds (self σ2) = X) by (by rewrite HX).
      assert (Hm0 : hwnd w ∉ fullscreen_hwnds (self σ)) by set_solver.
      assert (Hc0 : window_style_cache σ !! hwnd w = None).
      { destruct (window_style_cache σ !! hwnd w) eqn:E; [|done].
        destruct (Hmono (hwnd w)) as [? ?]; [eauto|congruence]. }
      assert (Hlog' : invocations σ2 = invocations σ ++ (new ++ [(hwnd w, mr)])).
      { rewrite Hlog2, Hlog. by rewrite <- app_assoc. }
      assert (HI2 : Inv σ2).
      { split; [rewrite HmX; destruct HXc as [->|[-> _]]; set_solver|].
        split.
        { intros h Hh. destruct (decide (h = hwnd w)) as [->|Hne].
          - rewrite Hc0 in Hh. by destruct Hh.
          - rewrite Hoff by done. auto. }
        exists (new ++ [(hwnd w, mr)]). split; [exact Hlog'|]. split.
        { intros h r [Hin|Hin]%elem_of_app; [eauto|].
          apply list_elem_of_singleton in Hin. simplify_eq.
          split; [done|]. split; [done|]. apply list_elem_of_fmap. eauto. }
        intros Hhyp. destruct (Hc Hhyp) as (Hprefs & Hd01 & Hjust & Hprov).
        assert (Hget0 : dict_get (last_fullscreen_by_pid σ) p = Some (n, mr))
          by (by rewrite <- Hprefs).
        split.
        { destruct Hprefs2 as [->|(q & Hq & Hq0 & ->)]; [done|].
          destruct Hd01 as (Hown & Hproc & _).
          rewrite Hown in Hq. destruct Hhyp as [_ Hagree].
          destruct (Hagree w Hw q Hq Hq0) as [Hpq Hnq].
          assert (q = p) as -> by congruence.
          rewrite (resolved_name_same _ _ _ Hproc).
          assert (resolved_name (os σ) p = n) as -> by congruence.
          rewrite <- Hprefs. by apply dict_set_id. }
        split; [eapply same_desktop_trans; eauto|]. split.
        { intros h r [Hin|Hin]%elem_of_app; [eauto|].
          apply list_elem_of_singleton in Hin. simplify_eq.
          exists w, p, n. auto 10. }
        intros h Hh. destruct (decide (h = hwnd w)) as [->|Hne].
        { right. exists mr. apply elem_of_app. right. by apply list_elem_of_singleton. }
        assert (Hh1 : h ∈ fullscreen_hwnds (self σ1)
                      ∨ is_Some (window_style_cache σ1 !! h)).
        { destruct Hh as [Hh|Hh].
          - left. rewrite HmX in Hh. destruct HXc as [->|[-> _]]; set_solver.
          - right. by rewrite <- Hoff. }
        destruct (Hprov _ Hh1) as [?|[r Hr]]; [auto|].
        right. exists r. apply elem_of_app. auto. }
      split; [exact HI2|]. split.
      * intros Hhyp n0 r0 Hget0 _ _ _ _.
        destruct (Hc Hhyp) as (Hprefs & _).
        exists (new ++ [(hwnd w, mr)]). split; [exact Hlog'|].
        apply elem_of_app. right. apply list_elem_of_singleton.
        rewrite Hprefs in Hget1. congruence.
      * intros p' w' HD Hhyp n0 r0 ? ? ? ? ?.
        destruct (HD Hhyp n0 r0) as (new' & Hlog0 & Hin); try done.
        exists (new' ++ [(hwnd w, mr)]). split.
        -- rewrite Hlog2, Hlog0. by rewrite <- app_assoc.
        -- apply elem_of_app. auto.
  - (* the end of the loop *)
    intros r σ1 (-> & (_ & _ & new & Hlog & Hfresh & Hc) & HD).
    split; [done|]. exists new. split; [exact Hlog|]. split; [exact Hfresh|].
    intros Hnd Hagree. assert (Hhyp : Hyp) by (split; assumption).
    destruct (Hc Hhyp) as (_ & _ & Hjust & _). split; [|exact Hjust].
    intros p n r w Hget Hw Hpw Hname Hn Hm0 Hc0.
    destruct (HD p w) with (n := n) (r := r) as (new' & Hlog' & Hin); try done.
    { apply dict_keys_get. rewrite Hget. eauto. }
    rewrite Hlog in Hlog'. apply app_inv_head in Hlog'. by subst new'.
Qed.

(** * The enumerator *)

Lemma ticked_refl σ : ticked σ σ.
Proof. by repeat split. Qed.

Lemma ticked_trans σ1 σ2 σ3 : ticked σ1 σ2 -> ticked σ2 σ3 -> ticked σ1 σ3.
Proof.
  intros (?&?&?&?&?&?&?) (?&?&?&?&?&?&?). repeat split; congruence.
Qed.

Lemma ticked_tick σ : ticked σ (tick σ).
Proof. by repeat split. Qed.

Lemma ticked_tick_l σ σ' : ticked (tick σ) σ' -> ticked σ σ'.
Proof. apply ticked_trans, ticked_tick. Qed.


Lemma get_process_info_spec h σ :
  wp (get_process_info h) σ (fun r σ' =>
    ticked σ σ' ∧
    ∃ wi, r = Ok wi ∧ hwnd wi = h ∧
      (title wi = Some "" ∨
       ∃ win, os_windows (os σ) !! h = Some win ∧ title wi = Some (win_text win)) ∧
      ((pid wi = None ∧ process_name wi = Some "Unknown") ∨
       ∃ win p, os_windows (os σ) !! h = Some win ∧ win_owner win = Some p ∧
                pid wi = Some p ∧ process_name wi = Some (resolved_name (os σ) p))).
Proof.
  unfold get_process_info. wp_go.
  all: split; [repeat split|].
  all: simpl in *; eexists; split; [reflexivity|]; split; [reflexivity|]; simpl.
  all: repeat match goal with
       | H1 : ?x = Some _, H2 : ?x = Some _ |- _ => rewrite H1 in H2; injection H2 as <-
       end.
  all: split; [first [by left | right; eauto]|].
  all: first
    [ left; split; reflexivity
    | right; do 2 eexists; split; [eassumption|]; split; [eassumption|];
      split; [reflexivity|]; unfold resolved_name;
      match goal with H : os_processes _ !! _ = _ |- _ => rewrite H end; reflexivity ].
Qed.

Lemma name_of_nonempty o p : name_of o p ≠ "".
Proof. unfold name_of. by destruct (resolved_name o p). Qed.

Lemma callback_spec h acc σ :
  wp (callback h acc) σ (fun r σ' =>
    ticked σ σ' ∧
    (r = Ok acc ∨ ∃ wi, r = Ok (acc ++ [wi]) ∧ hwnd wi = h ∧ enumerated (os σ) wi)).
Proof.
  unfold callback, WindowInfo_new. apply wp_try_except, wp_bind.
  apply wp_IsWindowVisible; [intros _; apply wp_ret; split; [by repeat split|by left]|].
  intros win Hnf Hwin. destruct (win_visible win) eqn:Hvis; simpl;
    [|apply wp_ret; split; [by repeat split|by left]].
  apply wp_bind.
  apply wp_GetWindowText;
    [intros _; apply wp_ret; split; [by repeat split|by left]|].
  intros win' _ Hwin'. simpl in Hwin'. assert (win' = win) as -> by congruence.
  destruct (String.eqb (win_text win) "" || isspace (win_text win)) eqn:Hblank;
    [apply wp_ret; split; [by repeat split|by left]|].
  apply orb_false_iff in Hblank as [Hne Hsp]. apply String.eqb_neq in Hne.
  apply wp_bind. eapply wp_mono; [apply get_process_info_spec|].
  intros r σ1 (Ht & wi & -> & Hh & Htitle & Hpid).
  assert (Ht' : ticked σ σ1).
  { eapply ticked_trans; [|exact Ht]. by repeat split. }
  destruct Hpid as [[Hp Hn]|(win1 & p & Hw1 & Hown & Hp & Hn)].
  - rewrite Hp. apply wp_ret. split; [exact Ht'|by left].
  - destruct wi as [wh wp wn wt]. simpl in *. subst wh wp wn.
    assert (win1 = win) as -> by congruence.
    assert (Htitle' : wt = Some (win_text win) ∨ wt = Some "").
    { destruct Htitle as [->|(win2 & Hw2 & ->)]; [by right|]. left. congruence. }
    apply wp_ret. split; [exact Ht'|]. right.
    change (resolved_name (consume (consume (os σ))) p) with (resolved_name (os σ) p).
    destruct (resolved_name (os σ) p) as [|c rest] eqn:Hres; simpl.
    all: eexists; split; [reflexivity|]; split; [reflexivity|].
    all: exists win, p; simpl; unfold name_of; rewrite Hres; auto 10.
Qed.

Lemma EnumWindows_from_spec hs acc σ :
  wp (EnumWindows_from hs callback acc) σ (fun r σ' =>
    ticked σ σ' ∧
    ∃ new, r = Ok (acc ++ new) ∧
           (hwnd <$> new) `sublist_of` hs ∧
           Forall (enumerated (os σ)) new).
Proof.
  revert acc σ. induction hs as [|h hs IH]; intros acc σ; simpl.
  - apply wp_ret. split; [apply ticked_refl|]. exists []. rewrite app_nil_r.
    split; [done|]. split; [done|constructor].
  - apply wp_bind. eapply wp_mono; [apply callback_spec|].
    intros r σ1 [Ht Hr]. destruct Hr as [->|(wi & -> & Hh & Hen)].
    + eapply wp_mono; [apply IH|].
      intros r σ2 (Ht2 & new & -> & Hsub & Hall).
      split; [eapply ticked_trans; eauto|]. exists new. split; [done|].
      split; [by apply sublist_cons|].
      eapply Forall_impl; [exact Hall|]. intros wi Hwi.
      destruct Ht as (Hw & Hp & _), Hwi as (win & p & H1 & ?).
      exists win, p. rewrite <- Hw. unfold name_of, resolved_name in *. by rewrite <- Hp.
    + eapply wp_mono; [apply IH|].
      intros r σ2 (Ht2 & new & -> & Hsub & Hall).
      split; [eapply ticked_trans; eauto|]. exists (wi :: new).
      split; [by rewrite <- app_assoc|]. split.
      * simpl. rewrite Hh. by apply sublist_skip.
      * constructor; [exact Hen|].
        eapply Forall_impl; [exact Hall|]. intros wi' Hwi.
        destruct Ht as (Hw & Hp & _), Hwi as (win & p & H1 & ?).
        exists win, p. rewrite <- Hw. unfold name_of, resolved_name in *. by rewrite <- Hp.
Qed.

Lemma enum_windows_spec σ :
  wp enum_windows σ (fun r σ' =>
    ticked σ σ' ∧
    ∃ ws, r = Ok ws ∧ NoDup (hwnd <$> ws) ∧ Forall (enumerated (os σ)) ws).
Proof.
  unfold enum_windows, EnumWindows. apply wp_try_except, wp_bind.
  unfold wp at 1, win32. destruct (fault_now (os σ)) eqn:Hf; simpl.
  - apply wp_ret. split; [by repeat split|]. exists []. split; [done|].
    split; [constructor|constructor].
  - eapply wp_mono; [apply EnumWindows_from_spec|].
    intros r σ1 (Ht & new & -> & Hsub & Hall). simpl.
    split; [eapply ticked_trans; [|exact Ht]; by repeat split|].
    exists new. split; [done|]. split; [|exact Hall].
    eapply sublist_NoDup; [|exact Hsub]. apply NoDup_fst_map_to_list.
Qed.

(** C10: the enumeration always returns; every record it returns has a
    process id and a process name that is not empty; a window whose owner
    cannot be resolved is not in the result, and neither is a window whose
    title is empty or only whitespace. *)
Theorem enumerated_records_are_resolved σ :
  ∃ ws σ',
    enum_windows σ = (Ok ws, σ') ∧
    (forall w, w ∈ ws ->
       (∃ p, pid w = Some p) ∧ (∃ n, process_name w = Some n ∧ n ≠ "")) ∧
    (forall h win, os_windows (os σ) !! h = Some win -> win_owner win = None ->
       h ∉ hwnd <$> ws) ∧
    (forall h win, os_windows (os σ) !! h = Some win ->
       win_text win = "" ∨ isspace (win_text win) = true ->
       h ∉ hwnd <$> ws).
Proof.
  destruct (wp_elim _ _ _ (enum_windows_spec σ))
    as (r & σ' & Hrun & _ & ws & -> & _ & Hall).
  exists ws, σ'. split; [exact Hrun|].
  rewrite Forall_forall in Hall. split; [|split].
  - intros w Hw. destruct (Hall w Hw) as (win & p & _ & _ & _ & _ & _ & Hp & Hn & _).
    split; [eauto|]. exists (name_of (os σ) p). split; [done|apply name_of_nonempty].
  - intros h win Hwin Hown (w & -> & Hw)%list_elem_of_fmap.
    destruct (Hall w Hw) as (win' & p & Hw' & _ & _ & _ & Hown' & _). congruence.
  - intros h win Hwin Hblank (w & -> & Hw)%list_elem_of_fmap.
    destruct (Hall w Hw) as (win' & p & Hw' & _ & Hne & Hsp & _).
    assert (win' = win) as -> by congruence.
    destruct Hblank; congruence.
Qed.

(** * Reapplication on a refresh *)






(** The run of the witness: window 2 is enumerated first; its transform
    fails at its first read, and window 1 is transformed all the same. *)
Lemma failed_reapply_does_not_stop_the_pass :
  fst (refresh_windows (demo_preferred fail_first_reapply)) = Ok tt ∧
  invocations (snd (refresh_windows (demo_preferred fail_first_reapply))) =
    [(2, Some (1920, 0, 3840, 1080)); (1, Some (1920, 0, 3840, 1080))] ∧
  elements (fullscreen_hwnds (self (snd (refresh_windows
    (demo_preferred fail_first_reapply))))) = [1] ∧
  hwnd <$> windowed_windows (self (snd (refresh_windows
    (demo_preferred fail_first_reapply)))) = [2] ∧
  hwnd <$> fullscreen_windows (self (snd (refresh_windows
    (demo_preferred fail_first_reapply)))) = [1].
Proof. vm_compute. repeat split. Qed.

(** * The refresh timer *)

Lemma refresh_windows_returns σ : ∃ σ', refresh_windows σ = (Ok tt, σ').
Proof.
  destruct (wp_elim _ _ _ (enum_windows_spec σ)) as (r & σ1 & Henum & _ & ws & -> & _).
  destruct (wp_elim _ _ _
    (update_windows_lists_spec ws σ1 (fun _ => True)
       (reapply_invariant (fun _ => True) ws σ1 I (fun _ _ _ _ _ _ _ _ => I))))
    as (r & σ' & Hrun & -> & _).
  exists σ'. unfold refresh_windows, bind. by rewrite Henum.
Qed.

(** C8 (amended): the timer callback re-arms itself with a delay of 3000
    ms (3 seconds) after a refresh while the window is not minimized; while
    it is minimized the callback re-arms itself with a delay of 10000 ms
    and makes no refresh at all: the world is left as it is. *)
Theorem refresh_timer_pauses_when_minimized σ :
  ∃ delay σ',
    update_windows_periodically σ = (Ok delay, σ') ∧
    if is_minimized (self σ)
    then delay = 10000 ∧ σ' = σ
    else delay = 3000 ∧ refresh_windows σ = (Ok tt, σ').
Proof.
  unfold update_windows_periodically, bind, gets.
  destruct (is_minimized (self σ)) eqn:Hmin; simpl.
  - exists 10000, σ. auto.
  - destruct (refresh_windows_returns σ) as (σ' & Hrun). rewrite Hrun.
    exists 3000, σ'. auto.
Qed.

(** C8, as stated, fails: while the window is minimized the timer makes no
    refresh; a refresh would have listed the one window of the desktop. *)
Lemma minimized_timer_does_not_refresh :
  is_minimized (self demo_minimized) = true ∧
  fst (update_windows_periodically demo_minimized) = Ok 10000 ∧
  windowed_windows (self (snd (update_windows_periodically demo_minimized))) = [] ∧
  windowed_windows (self (snd (refresh_windows demo_minimized))) = [demo_record].
Proof. vm_compute. repeat split. Qed.

(** * Further properties of the engine *)

(** X1: A revert of a handle that has no cache entry returns normally and
    changes nothing: no operating-system call is made (the fault script is
    not consumed) and no table is touched. *)
Theorem revert_without_snapshot_is_noop σ h :
  window_style_cache σ !! h = None ->
  revert_to_windowed h σ = (Ok tt, σ).
Proof.
  intros Hc. unfold revert_to_windowed, bind, gets. by rewrite Hc.
Qed.

Lemma revert_without_snapshot_is_noop_witness :
  window_style_cache (demo_world fail_style_write) !! 1 = None ∧
  revert_to_windowed 1 (demo_world fail_style_write) =
    (Ok tt, demo_world fail_style_write).
Proof.
  split; [vm_compute; reflexivity|].
  apply (revert_without_snapshot_is_noop (demo_world fail_style_write) 1).
  vm_compute; reflexivity.
Defined.

(** X2: Whatever fails, a transform leaves the application object (and with it
    the membership set) alone, leaves the cache entries of all other
    handles alone, never replaces a snapshot that is already cached for its
    handle, and returns normally only with its handle cached. *)
Theorem transform_touches_only_its_snapshot σ h mr :
  ∃ r σ',
    set_borderless_fullscreen h mr σ = (r, σ') ∧
    self σ' = self σ ∧
    (forall k, k ≠ h -> window_style_cache σ' !! k = window_style_cache σ !! k) ∧
    (forall s, window_style_cache σ !! h = Some s -> window_style_cache σ' !! h = Some s) ∧
    (r = Ok tt -> is_Some (window_style_cache σ' !! h)).
Proof.
  destruct (wp_elim _ _ _ (set_borderless_fullscreen_spec h mr σ))
    as (r & σ' & Hrun & Hs & _ & _ & Hc & _ & _).
  exists r, σ'. split; [exact Hrun|]. split; [exact Hs|].
  destruct (window_style_cache σ !! h) as [s|] eqn:E.
  - rewrite Hc. split; [done|]. split; [congruence|]. intros _. rewrite E. eauto.
  - destruct Hc as [(_ & Hne & -> & _)|(_ & w & _ & ->)].
    + split; [done|]. split; [congruence|]. done.
    + split; [intros k Hk; by rewrite lookup_insert_ne|]. split; [congruence|].
      intros _. rewrite lookup_insert_eq. eauto.
Qed.

Lemma strip_style_idempotent s : strip_style (strip_style s) = strip_style s.
Proof.
  unfold strip_style. rewrite <- Z.land_assoc, Z.land_diag. reflexivity.
Qed.

Lemma strip_exstyle_idempotent s : strip_exstyle (strip_exstyle s) = strip_exstyle s.
Proof.
  unfold strip_exstyle. rewrite <- Z.land_assoc, Z.land_diag. reflexivity.
Qed.


Lemma set_borderless_fullscreen_calm_prefs h mr σ w :
  os_faults (os σ) = [] ->
  os_windows (os σ) !! h = Some w ->
  wp (set_borderless_fullscreen h mr) σ (fun r σ' =>
    last_fullscreen_by_pid σ' =
      match win_owner w with
      | Some p => if Z.eqb p 0 then last_fullscreen_by_pid σ
                  else dict_set (last_fullscreen_by_pid σ) p (resolved_name (os σ) p, mr)
      | None => last_fullscreen_by_pid σ
      end).
Proof.
  intros Hf Hw0.
  unfold set_borderless_fullscreen, cache_original_style, store_pid_mapping,
    strip_and_resize.
  wp_go.
  all: try (no_fault Hf).
  all: simpl in *; simplify_map_eq.
  all: unfold resolved_name.
  all: repeat match goal with
       | H : win_owner _ = _ |- _ => rewrite H
       | H : (_ =? 0) = _ |- _ => rewrite H
       | H : os_processes _ !! _ = _ |- _ => rewrite H
       end; try reflexivity.
  all: match goal with
       | H : _ ∨ win_owner _ = None |- _ =>
           destruct H as [H|H];
           [unfold fault_now in H; simpl in H; rewrite Hf in H; discriminate|];
           by rewrite H
       end.
Qed.

Lemma set_borderless_fullscreen_calm_run σ h mr w :
  os_faults (os σ) = [] ->
  os_windows (os σ) !! h = Some w ->
  ∃ σ',
    set_borderless_fullscreen h mr σ = (Ok tt, σ') ∧
    os_faults (os σ') = [] ∧
    os_screen (os σ') = os_screen (os σ) ∧
    os_processes (os σ') = os_processes (os σ) ∧
    os_windows (os σ') !! h =
      Some (mkWindow (strip_style (win_style w)) (strip_exstyle (win_exstyle w))
                     (target_rect (os σ) mr) (win_owner w) true (win_text w)) ∧
    window_style_cache σ' =
      match window_style_cache σ !! h with
      | Some _ => window_style_cache σ
      | None => <[h := snapshot_of w]> (window_style_cache σ)
      end ∧
    last_fullscreen_by_pid σ' =
      match win_owner w with
      | Some p => if Z.eqb p 0 then last_fullscreen_by_pid σ
                  else dict_set (last_fullscreen_by_pid σ) p (resolved_name (os σ) p, mr)
      | None => last_fullscreen_by_pid σ
      end.
Proof.
  intros Hf Hw.
  destruct (wp_elim _ _ _ (wp_and _ _ _ _
              (set_borderless_fullscreen_spec h mr σ)
              (wp_and _ _ _ _
                 (set_borderless_fullscreen_calm h mr σ Hf (mk_is_Some _ _ Hw))
                 (set_borderless_fullscreen_calm_prefs h mr σ w Hf Hw))))
    as (r & σ' & Hrun & (_ & _ & (_ & Hpr & Hsc) & Hc & _ & Hwin) & (-> & Hf') & Hp).
  exists σ'. split; [exact Hrun|]. split; [exact Hf'|]. split; [exact Hsc|].
  split; [exact Hpr|].
  destruct (Hwin eq_refl) as (w' & Hw' & Hpl). assert (w' = w) as -> by congruence.
  split; [exact Hpl|]. split; [|exact Hp].
  destruct (window_style_cache σ !! h); [exact Hc|].
  destruct Hc as [(_ & Hne & _)|(_ & w' & Hw'' & ->)]; [done|]. congruence.
Qed.

(** X3: When no call fails, a transform of a live window returns normally,
    leaves the window visible on the target rectangle (the monitor
    rectangle given, or the primary display from the origin) with the
    chrome bits cleared, has the handle cached, and records the preference
    (process name, target) under the owning process id; a window whose
    owner cannot be resolved is transformed all the same, without a
    preference. *)
Theorem transform_places_window_and_records_preference σ h mr w :
  os_faults (os σ) = [] ->
  os_windows (os σ) !! h = Some w ->
  ∃ σ',
    set_borderless_fullscreen h mr σ = (Ok tt, σ') ∧
    os_windows (os σ') !! h =
      Some (mkWindow (strip_style (win_style w)) (strip_exstyle (win_exstyle w))
                     (target_rect (os σ) mr) (win_owner w) true (win_text w)) ∧
    is_Some (window_style_cache σ' !! h) ∧
    (forall p, win_owner w = Some p -> p ≠ 0 ->
       dict_get (last_fullscreen_by_pid σ') p = Some (resolved_name (os σ) p, mr)) ∧
    (win_owner w = None -> last_fullscreen_by_pid σ' = last_fullscreen_by_pid σ).
Proof.
  intros Hf Hw.
  destruct (set_borderless_fullscreen_calm_run σ h mr w Hf Hw)
    as (σ' & Hrun & _ & _ & _ & Hpl & Hc & Hp).
  exists σ'. split; [exact Hrun|]. split; [exact Hpl|]. split.
  { rewrite Hc. destruct (window_style_cache σ !! h) eqn:E; [by rewrite E|].
    rewrite lookup_insert_eq. eauto. }
  split.
  - intros p Hown Hne. rewrite Hp, Hown.
    destruct (Z.eqb_spec p 0); [done|]. apply dict_get_set_eq.
  - intros Hown. by rewrite Hp, Hown.
Qed.

Lemma transform_places_window_and_records_preference_witness :
  os_faults (os (demo_world [])) = [] ∧
  os_windows (os (demo_world [])) !! 1 = Some demo_window ∧
  ∃ σ',
    set_borderless_fullscreen 1 (Some (1920, 0, 3840, 1080)) (demo_world []) = (Ok tt, σ') ∧
    os_windows (os σ') !! 1 =
      Some (mkWindow (strip_style (win_style demo_window))
                     (strip_exstyle (win_exstyle demo_window))
                     (target_rect (os (demo_world [])) (Some (1920, 0, 3840, 1080)))
                     (win_owner demo_window) true (win_text demo_window)) ∧
    is_Some (window_style_cache σ' !! 1) ∧
    (forall p, win_owner demo_window = Some p -> p ≠ 0 ->
       dict_get (last_fullscreen_by_pid σ') p =
         Some (resolved_name (os (demo_world [])) p, Some (1920, 0, 3840, 1080))) ∧
    (win_owner demo_window = None ->
     last_fullscreen_by_pid σ' = last_fullscreen_by_pid (demo_world [])).
Proof.
  split; [vm_compute; reflexivity|]. split; [vm_compute; reflexivity|].
  apply (transform_places_window_and_records_preference (demo_world []) 1
           (Some (1920, 0, 3840, 1080)) demo_window); vm_compute; reflexivity.
Defined.

(** X4: When no call fails, a second transform of the same window to the same
    target changes nothing more: the window, the cache and the preference
    table are what the first transform left. *)
Theorem second_transform_changes_nothing_more σ h mr w :
  os_faults (os σ) = [] ->
  os_windows (os σ) !! h = Some w ->
  ∃ σ1 σ2,
    set_borderless_fullscreen h mr σ = (Ok tt, σ1) ∧
    set_borderless_fullscreen h mr σ1 = (Ok tt, σ2) ∧
    os_windows (os σ2) !! h = os_windows (os σ1) !! h ∧
    window_style_cache σ2 = window_style_cache σ1 ∧
    last_fullscreen_by_pid σ2 = last_fullscreen_by_pid σ1.
Proof.
  intros Hf Hw.
  destruct (set_borderless_fullscreen_calm_run σ h mr w Hf Hw)
    as (σ1 & Hrun1 & Hf1 & Hsc1 & Hpr1 & Hpl1 & Hc1 & Hp1).
  destruct (set_borderless_fullscreen_calm_run σ1 h mr _ Hf1 Hpl1)
    as (σ2 & Hrun2 & _ & _ & _ & Hpl2 & Hc2 & Hp2).
  exists σ1, σ2. split; [exact Hrun1|]. split; [exact Hrun2|]. simpl in *. split.
  - rewrite Hpl2, Hpl1, strip_style_idempotent, strip_exstyle_idempotent.
    unfold target_rect. by rewrite Hsc1.
  - split.
    + rewrite Hc2. assert (is_Some (window_style_cache σ1 !! h)) as [s ->]; [|done].
      rewrite Hc1. destruct (window_style_cache σ !! h) eqn:E; [by rewrite E|].
      rewrite lookup_insert_eq. eauto.
    + rewrite Hp2. destruct (win_owner w) as [p|]; [|done].
      destruct (Z.eqb_spec p 0); [done|].
      rewrite (resolved_name_same _ _ _ Hpr1). apply dict_set_id.
      rewrite Hp1. apply dict_get_set_eq.
Qed.

Lemma second_transform_changes_nothing_more_witness :
  os_faults (os (demo_world [])) = [] ∧
  os_windows (os (demo_world [])) !! 1 = Some demo_window ∧
  ∃ σ1 σ2,
    set_borderless_fullscreen 1 None (demo_world []) = (Ok tt, σ1) ∧
    set_borderless_fullscreen 1 None σ1 = (Ok tt, σ2) ∧
    os_windows (os σ2) !! 1 = os_windows (os σ1) !! 1 ∧
    window_style_cache σ2 = window_style_cache σ1 ∧
    last_fullscreen_by_pid σ2 = last_fullscreen_by_pid σ1.
Proof.
  split; [vm_compute; reflexivity|]. split; [vm_compute; reflexivity|].
  apply (second_transform_changes_nothing_more (demo_world []) 1 None demo_window);
    vm_compute; reflexivity.
Defined.

(** * Further properties of the reconciliation pass *)

(** What the auto-reapply step keeps, whatever fails. *)
Lemma reapply_frame ws σ :
  wp (reapply ws) σ (fun r σ1 =>
    r = Ok tt ∧
    fullscreen_hwnds (self σ) ⊆ fullscreen_hwnds (self σ1) ∧
    (forall k s, window_style_cache σ !! k = Some s -> window_style_cache σ1 !! k = Some s) ∧
    same_desktop σ σ1 ∧
    (forall k, k ∈ fullscreen_hwnds (self σ1) ->
       k ∈ fullscreen_hwnds (self σ) ∨ is_Some (window_style_cache σ1 !! k)) ∧
    ∃ new,
      invocations σ1 = invocations σ ++ new ∧
      (forall k, k ∈ fullscreen_hwnds (self σ1) ->
         k ∈ fullscreen_hwnds (self σ) ∨ ∃ r, (k, r) ∈ new) ∧
      (forall k, is_Some (window_style_cache σ1 !! k) ->
         is_Some (window_style_cache σ !! k) ∨ ∃ r, (k, r) ∈ new)).
Proof.
  apply reapply_invariant.
  - split; [done|]. split; [done|]. split; [apply same_desktop_refl|]. split; [auto|].
    exists []. rewrite app_nil_r. auto.
  - intros p w σ1 σ2 _ _ (Hsub & Hkeep & Hd & Hmc & new & Hlog & Hpm & Hpc) Hex.
    destruct Hex as [[-> _]|Hre]; [eauto 12|].
    destruct Hre as (Hm1 & Hc1 & Hd12 & Hoff & (X & HX & HXc) & n & mr & _ & _ & _ &
                     Hlog2 & _).
    assert (HmX : fullscreen_hwnds (self σ2) = X) by (by rewrite HX).
    assert (Hsub2 : fullscreen_hwnds (self σ1) ⊆ fullscreen_hwnds (self σ2)).
    { rewrite HmX. destruct HXc as [->|[-> _]]; set_solver. }
    assert (Hkeep2 : forall k s, window_style_cache σ1 !! k = Some s ->
                                 window_style_cache σ2 !! k = Some s).
    { intros k s Hk. rewrite Hoff; [done|]. intros ->. congruence. }
    split; [set_solver|]. split; [auto|].
    split; [eapply same_desktop_trans; eauto|]. split.
    { intros k Hk. rewrite HmX in Hk. destruct HXc as [->|[-> Hsome]].
      - destruct (Hmc k Hk) as [?|[s Hs]]; [auto|]. right. rewrite (Hkeep2 k s Hs). eauto.
      - apply elem_of_union in Hk as [Hk|Hk].
        + apply elem_of_singleton in Hk. subst k. auto.
        + destruct (Hmc k Hk) as [?|[s Hs]]; [auto|]. right. rewrite (Hkeep2 k s Hs). eauto. }
    exists (new ++ [(hwnd w, mr)]). split; [by rewrite Hlog2, Hlog, <- app_assoc|]. split.
    + intros k Hk. rewrite HmX in Hk.
      assert (k = hwnd w ∨ k ∈ fullscreen_hwnds (self σ1)) as [->|Hk1].
      { destruct HXc as [->|[-> _]]; [auto|].
        apply elem_of_union in Hk as [Hk|Hk]; [|auto].
        apply elem_of_singleton in Hk. auto. }
      * right. exists mr. apply elem_of_app. right. by apply list_elem_of_singleton.
      * destruct (Hpm k Hk1) as [?|[r Hr]]; [auto|]. right. exists r.
        apply elem_of_app. auto.
    + intros k Hk. destruct (decide (k = hwnd w)) as [->|Hne].
      * right. exists mr. apply elem_of_app. right. by apply list_elem_of_singleton.
      * rewrite Hoff in Hk by done. destruct (Hpc k Hk) as [?|[r Hr]]; [auto|].
        right. exists r. apply elem_of_app. auto.
Qed.

(** X5: A member whose window is not enumerated any more is dropped by the
    pass from the membership set and from the cache, whatever fails. *)
Theorem pass_drops_closed_windows ws σ h :
  h ∈ fullscreen_hwnds (self σ) ->
  h ∉ hwnd <$> ws ->
  ∃ σ',
    update_windows_lists ws σ = (Ok tt, σ') ∧
    h ∉ fullscreen_hwnds (self σ') ∧
    window_style_cache σ' !! h = None.
Proof.
  intros Hm Hws.
  destruct (wp_elim _ _ _ (update_windows_lists_spec ws σ _ (reapply_frame ws σ)))
    as (r & σ' & Hrun & -> & σ1 & (Hsub & _) & _ & _ & _ & _ & Hm' & Hc').
  assert (Hn : h ∉ (list_to_set (hwnd <$> List.filter (tracked σ1) ws) : gset Z)).
  { intros (_ & _ & w & Hw & <-)%elem_of_tracked_handles.
    apply Hws, list_elem_of_fmap. eauto. }
  exists σ'. split; [exact Hrun|]. split.
  - rewrite Hm'. set_solver.
  - rewrite Hc'. destruct (decide _) as [|Hd]; [done|]. set_solver.
Qed.

Lemma pass_drops_closed_windows_witness :
  1 ∈ fullscreen_hwnds (self demo_fullscreen) ∧
  1 ∉ hwnd <$> ([] : list WindowInfo) ∧
  ∃ σ',
    update_windows_lists [] demo_fullscreen = (Ok tt, σ') ∧
    1 ∉ fullscreen_hwnds (self σ') ∧
    window_style_cache σ' !! 1 = None.
Proof.
  split; [vm_compute; set_solver|]. split; [apply not_elem_of_nil|].
  apply (pass_drops_closed_windows [] demo_fullscreen 1);
    [vm_compute; set_solver | apply not_elem_of_nil].
Defined.

(** X6: A member that is cached and still enumerated stays a member with the
    snapshot it had, and its records are published in the fullscreen list,
    whatever fails. *)
Theorem pass_keeps_tracked_windows ws σ h s :
  h ∈ fullscreen_hwnds (self σ) ->
  window_style_cache σ !! h = Some s ->
  h ∈ hwnd <$> ws ->
  ∃ σ',
    update_windows_lists ws σ = (Ok tt, σ') ∧
    h ∈ fullscreen_hwnds (self σ') ∧
    window_style_cache σ' !! h = Some s ∧
    (forall w, w ∈ ws -> hwnd w = h ->
       w ∈ fullscreen_windows (self σ') ∧ w ∉ windowed_windows (self σ')).
Proof.
  intros Hm Hc Hws.
  destruct (wp_elim _ _ _ (update_windows_lists_spec ws σ _ (reapply_frame ws σ)))
    as (r & σ' & Hrun & -> & σ1 & (Hsub & Hkeep & _) & _ & _ & Hf & Hwd & Hm' & Hc').
  assert (Ht : forall w, hwnd w = h -> tracked σ1 w = true).
  { intros w <-. apply tracked_spec. split; [set_solver|].
    rewrite (Hkeep _ _ Hc). eauto. }
  assert (Hn : h ∈ (list_to_set (hwnd <$> List.filter (tracked σ1) ws) : gset Z)).
  { apply list_elem_of_fmap in Hws as (w & -> & Hw).
    apply elem_of_tracked_handles. split; [set_solver|].
    split; [rewrite (Hkeep _ _ Hc); eauto|]. eauto. }
  exists σ'. split; [exact Hrun|]. split; [rewrite Hm'; set_solver|]. split.
  - rewrite Hc'. destruct (decide _) as [Hd|_]; [set_solver|]. by apply Hkeep.
  - intros w Hw Hh. rewrite Hf, Hwd. split.
    + apply list_elem_of_In, filter_In. split; [by apply list_elem_of_In|by apply Ht].
    + intros [_ Hneg]%list_elem_of_In%filter_In. rewrite (Ht w Hh) in Hneg. discriminate.
Qed.

Lemma pass_keeps_tracked_windows_witness :
  1 ∈ fullscreen_hwnds (self demo_fullscreen) ∧
  window_style_cache demo_fullscreen !! 1 =
    Some (0x14CF0000, 0x00000300, (10, 20, 810, 620)) ∧
  1 ∈ hwnd <$> [demo_record] ∧
  ∃ σ',
    update_windows_lists [demo_record] demo_fullscreen = (Ok tt, σ') ∧
    1 ∈ fullscreen_hwnds (self σ') ∧
    window_style_cache σ' !! 1 = Some (0x14CF0000, 0x00000300, (10, 20, 810, 620)) ∧
    (forall w, w ∈ [demo_record] -> hwnd w = 1 ->
       w ∈ fullscreen_windows (self σ') ∧ w ∉ windowed_windows (self σ')).
Proof.
  split; [vm_compute; set_solver|]. split; [vm_compute; reflexivity|].
  split; [vm_compute; set_solver|].
  apply (pass_keeps_tracked_windows [demo_record] demo_fullscreen 1);
    [vm_compute; set_solver | vm_compute; reflexivity | vm_compute; set_solver].
Defined.

(** X7: The two lists the pass publishes partition the enumeration, in its
    order: a record is in the fullscreen list exactly when its handle is a
    member after the pass, and in the windowed list otherwise. *)
Theorem pass_publishes_partition ws σ :
  ∃ σ',
    update_windows_lists ws σ = (Ok tt, σ') ∧
    fullscreen_windows (self σ') =
      List.filter (fun w => bool_decide (hwnd w ∈ fullscreen_hwnds (self σ'))) ws ∧
    windowed_windows (self σ') =
      List.filter (fun w => negb (bool_decide (hwnd w ∈ fullscreen_hwnds (self σ')))) ws.
Proof.
  destruct (wp_elim _ _ _ (update_windows_lists_spec ws σ _ (reapply_frame ws σ)))
    as (r & σ' & Hrun & -> & σ1 & _ & _ & _ & Hf & Hwd & Hm' & _).
  exists σ'. split; [exact Hrun|].
  assert (Heq : forall w, In w ws ->
            tracked σ1 w = bool_decide (hwnd w ∈ fullscreen_hwnds (self σ'))).
  { intros w Hw%list_elem_of_In. rewrite Hm'.
    destruct (tracked σ1 w) eqn:Ht; symmetry.
    - apply bool_decide_eq_true. apply tracked_spec in Ht as [Hmem Hsome].
      apply elem_of_intersection. split; [done|].
      apply elem_of_tracked_handles. eauto.
    - apply bool_decide_eq_false.
      intros [_ (? & ? & w' & Hw' & Hh)%elem_of_tracked_handles]%elem_of_intersection.
      assert (tracked σ1 w = true); [|congruence].
      by apply tracked_spec. }
  rewrite Hf, Hwd. split; apply filter_ext_in; intros w Hw; by rewrite (Heq w Hw).
Qed.

(** X8: The pass calls the transform only on handles of the records it was
    given that are neither members nor cached when it starts, for every
    list of records and whatever fails; with an empty preference table it
    calls no transform at all. *)
Theorem pass_transforms_only_untracked_handles ws σ :
  ∃ σ' new,
    update_windows_lists ws σ = (Ok tt, σ') ∧
    invocations σ' = invocations σ ++ new ∧
    (forall h r, (h, r) ∈ new ->
       h ∉ fullscreen_hwnds (self σ) ∧ window_style_cache σ !! h = None ∧
       h ∈ hwnd <$> ws) ∧
    (last_fullscreen_by_pid σ = [] -> new = []).
Proof.
  destruct (wp_elim _ _ _ (update_windows_lists_spec ws σ _ (reapply_candidates ws σ)))
    as (r & σ' & Hrun & -> & σ1 & (new & Hlog & Hfresh & _) & _ & Hi & _).
  exists σ', new. split; [exact Hrun|]. split; [by rewrite Hi|]. split; [exact Hfresh|].
  intros Hempty.
  assert (Hre : reapply ws σ = (Ok tt, σ)).
  { unfold reapply, bind, gets. rewrite Hempty. reflexivity. }
  pose proof (wp_run _ _ _ _ _ Hre (reapply_candidates ws σ))
    as (_ & new' & Hlog' & _).
  assert (new' = []) as ->.
  { apply (app_inv_head (invocations σ)). by rewrite <- Hlog', app_nil_r. }
  destruct (wp_elim _ _ _ (update_windows_lists_spec ws σ (fun σ1 => σ1 = σ)
              ltac:(unfold wp; rewrite Hre; auto)))
    as (r2 & σ2 & Hrun2 & _ & σ1' & -> & _ & Hi2 & _).
  assert (σ2 = σ') as -> by congruence.
  apply (app_inv_head (invocations σ)). rewrite app_nil_r. congruence.
Qed.

Lemma cleanup_pids_prefs σ :
  wp cleanup_pids σ (fun r σ' =>
    r = Ok tt ∧
    os σ' = os σ ∧
    forall p, dict_get (last_fullscreen_by_pid σ') p =
              if alive (os σ) p then dict_get (last_fullscreen_by_pid σ) p else None).
Proof.
  unfold cleanup_pids. apply wp_bind, wp_gets. cbv beta iota.
  apply wp_bind. unfold wp at 1. rewrite collect_dead_run. simpl.
  set (dead := List.filter (fun p => negb (alive (os σ) p))
                           (dict_keys (last_fullscreen_by_pid σ))).
  eapply wp_mono.
  - apply (wp_for_each_done (fun done σ1 =>
      os σ1 = os σ ∧
      forall p, dict_get (last_fullscreen_by_pid σ1) p =
                if decide (p ∈ done) then None
                else dict_get (last_fullscreen_by_pid σ) p)).
    + split; [done|]. intros p. destruct (decide (p ∈ [])) as [H|]; [|done].
      by apply elem_of_nil in H.
    + intros done x rest σ1 _ [Ho Hget]. apply wp_modify. simpl.
      split; [done|]. split; [exact Ho|]. intros p.
      destruct (decide (x = p)) as [->|Hne].
      * rewrite dict_get_del_eq. destruct (decide _) as [|Hn]; [done|].
        exfalso. apply Hn. set_solver.
      * rewrite dict_get_del_ne, Hget by done.
        destruct (decide (p ∈ done)), (decide (p ∈ done ++ [x])); set_solver.
  - intros r σ' (-> & Ho & Hget). split; [done|]. split; [exact Ho|].
    intros p. rewrite Hget. unfold dead.
    destruct (alive (os σ) p) eqn:Ha.
    + destruct (decide _) as [Hin|]; [|done].
      apply list_elem_of_In, filter_In in Hin as [_ Hd]. by rewrite Ha in Hd.
    + destruct (decide _) as [|Hn]; [done|].
      destruct (dict_get (last_fullscreen_by_pid σ) p) eqn:E; [|done].
      exfalso. apply Hn. apply list_elem_of_In, filter_In. split.
      * apply list_elem_of_In, dict_keys_get. rewrite E. eauto.
      * by rewrite Ha.
Qed.

Lemma update_windows_lists_prefs ws σ :
  wp (update_windows_lists ws) σ (fun r σ' =>
    r = Ok tt ∧
    os_processes (os σ') = os_processes (os σ) ∧
    forall p, is_Some (dict_get (last_fullscreen_by_pid σ') p) ->
              is_Some (os_processes (os σ') !! p)).
Proof.
  unfold update_windows_lists.
  apply wp_bind, wp_gets. cbv beta iota. apply wp_bind, wp_gets. cbv beta iota.
  apply wp_bind. eapply wp_mono; [apply reapply_frame|].
  intros r σ1 (-> & _ & _ & (_ & Hpr & _) & _). apply wp_bind.
  unfold wp at 1. rewrite classify_run. simpl.
  apply wp_bind. eapply wp_mono; [apply cleanup_closed_spec|].
  intros r σ2 (-> & Ho2 & Hp2 & _).
  apply wp_bind. eapply wp_mono; [apply cleanup_pids_prefs|].
  intros r σ3 (-> & Ho3 & Hget).
  apply wp_bind, wp_modify, wp_modify. simpl.
  split; [done|]. rewrite Ho3, Ho2. split; [exact Hpr|].
  intros p. rewrite Hget. unfold alive. rewrite Ho2.
  destruct (bool_decide _) eqn:E; [|by intros [? ?]].
  intros _. by apply bool_decide_eq_true in E.
Qed.

(** X9: After a pass, whatever failed, every process id that still has a
    preference denotes a live process: the entries of the processes that
    are gone have been removed. *)
Theorem pass_drops_preferences_of_dead_processes ws σ :
  ∃ σ',
    update_windows_lists ws σ = (Ok tt, σ') ∧
    os_processes (os σ') = os_processes (os σ) ∧
    (forall p, is_Some (dict_get (last_fullscreen_by_pid σ') p) ->
               is_Some (os_processes (os σ) !! p)) ∧
    (forall p, os_processes (os σ) !! p = None ->
               dict_get (last_fullscreen_by_pid σ') p = None).
Proof.
  destruct (wp_elim _ _ _ (update_windows_lists_prefs ws σ))
    as (r & σ' & Hrun & -> & Hpr & Halive).
  exists σ'. split; [exact Hrun|]. split; [exact Hpr|].
  rewrite Hpr in Halive. split; [exact Halive|].
  intros p Hp. destruct (dict_get (last_fullscreen_by_pid σ') p) eqn:E; [|done].
  destruct (Halive p) as [? ?]; [eauto|congruence].
Qed.
(** * The selection *)

Lemma on_windowed_select_run sel σ :
  ∃ s, on_windowed_select sel σ =
         (Ok tt, set_self (set_selection s (if s then Some windowed else None) (self σ)) σ) ∧
       forall h, s = Some h -> h ∈ hwnd <$> windowed_windows (self σ).
Proof.
  unfold on_windowed_select, bind, gets, modify. simpl.
  destruct sel as [idx|]; [|exists None; split; [done|discriminate]].
  destruct (_ || _) eqn:E; [exists None; split; [done|discriminate]|].
  apply orb_false_iff in E as [E1 E2].
  apply Z.ltb_ge in E1. apply Z.leb_gt in E2.
  destruct (nth_error _ _) as [win|] eqn:En.
  - exists (Some (hwnd win)). split; [done|]. intros h [= <-].
    apply list_elem_of_fmap. exists win. split; [done|].
    apply list_elem_of_In. eapply nth_error_In, En.
  - apply nth_error_None in En. lia.
Qed.

Lemma on_fullscreen_select_run sel σ :
  ∃ s, on_fullscreen_select sel σ =
         (Ok tt, set_self (set_selection s (if s then Some fullscreen else None) (self σ)) σ) ∧
       forall h, s = Some h -> h ∈ hwnd <$> fullscreen_windows (self σ).
Proof.
  unfold on_fullscreen_select, bind, gets, modify. simpl.
  destruct sel as [idx|]; [|exists None; split; [done|discriminate]].
  destruct (_ || _) eqn:E; [exists None; split; [done|discriminate]|].
  apply orb_false_iff in E as [E1 E2].
  apply Z.ltb_ge in E1. apply Z.leb_gt in E2.
  destruct (nth_error _ _) as [win|] eqn:En.
  - exists (Some (hwnd win)). split; [done|]. intros h [= <-].
    apply list_elem_of_fmap. exists win. split; [done|].
    apply list_elem_of_In. eapply nth_error_In, En.
  - apply nth_error_None in En. lia.
Qed.

(** X10: The two selection handlers never raise, whatever index the list box
    reports (also a negative one or one past the end of the list): they
    leave everything but the selection as it is, and the selection they
    leave is empty or names a record of the list box of the handler. *)
Theorem selection_handlers_leave_valid_selection sel σ :
  (∃ σ', on_windowed_select sel σ = (Ok tt, σ') ∧
         selection_valid (self σ') ∧
         selected_list (self σ') ≠ Some fullscreen ∧
         set_self (set_selection None None (self σ')) σ' =
         set_self (set_selection None None (self σ)) σ) ∧
  (∃ σ', on_fullscreen_select sel σ = (Ok tt, σ') ∧
         selection_valid (self σ') ∧
         selected_list (self σ') ≠ Some windowed ∧
         set_self (set_selection None None (self σ')) σ' =
         set_self (set_selection None None (self σ)) σ).
Proof.
  split.
  - destruct (on_windowed_select_run sel σ) as (s & -> & Hs). eexists. split; [done|].
    destruct s as [h|]; simpl; unfold selection_valid; simpl.
    + split; [by apply Hs|]. split; [discriminate|]. by destruct σ.
    + split; [done|]. split; [discriminate|]. by destruct σ.
  - destruct (on_fullscreen_select_run sel σ) as (s & -> & Hs). eexists. split; [done|].
    destruct s as [h|]; simpl; unfold selection_valid; simpl.
    + split; [by apply Hs|]. split; [discriminate|]. by destruct σ.
    + split; [done|]. split; [discriminate|]. by destruct σ.
Qed.

Lemma existsb_hwnd h (l : list WindowInfo) :
  existsb (fun win => Z.eqb (hwnd win) h) l = true <-> h ∈ hwnd <$> l.
Proof.
  rewrite existsb_exists, list_elem_of_fmap. split.
  - intros (w & Hin%list_elem_of_In & <-%Z.eqb_eq). eauto.
  - intros (w & -> & Hin%list_elem_of_In). exists w. by rewrite Z.eqb_refl.
Qed.

Lemma restore_selection_valid h k a : selection_valid (restore_selection h k a).
Proof.
  unfold restore_selection.
  destruct h as [h|], k as [k|]; try done.
  destruct (existsb _ _) eqn:E; [|done].
  unfold selection_valid. simpl. apply existsb_hwnd. by destruct k.
Qed.

Lemma restore_selection_kept h k a :
  h ∈ hwnd <$> list_of k a ->
  selected_hwnd (restore_selection (Some h) (Some k) a) = Some h ∧
  selected_list (restore_selection (Some h) (Some k) a) = Some k.
Proof.
  intros Hin. unfold restore_selection.
  assert (existsb (fun win => Z.eqb (hwnd win) h)
            match k with
            | windowed => windowed_windows a
            | fullscreen => fullscreen_windows a
            end = true) as ->; [|done].
  apply existsb_hwnd. by destruct k.
Qed.

Lemma restore_selection_dropped h k a :
  h ∉ hwnd <$> list_of k a ->
  selected_hwnd (restore_selection (Some h) (Some k) a) = None ∧
  selected_list (restore_selection (Some h) (Some k) a) = None.
Proof.
  intros Hin. unfold restore_selection.
  assert (existsb (fun win => Z.eqb (hwnd win) h)
            match k with
            | windowed => windowed_windows a
            | fullscreen => fullscreen_windows a
            end = false) as ->; [|done].
  apply not_true_is_false. intros E. apply Hin. apply existsb_hwnd in E. by destruct k.
Qed.

Lemma update_windows_lists_selection ws σ :
  wp (update_windows_lists ws) σ (fun r σ' =>
    ∃ a, self σ' = restore_selection (selected_hwnd (self σ)) (selected_list (self σ)) a).
Proof.
  unfold update_windows_lists.
  apply wp_bind, wp_gets. cbv beta iota. apply wp_bind, wp_gets. cbv beta iota.
  apply wp_bind. eapply wp_mono; [apply reapply_frame|].
  intros r σ1 (-> & _). apply wp_bind.
  unfold wp at 1. rewrite classify_run. simpl.
  apply wp_bind. eapply wp_mono; [apply cleanup_closed_spec|].
  intros r σ2 (-> & _).
  apply wp_bind. eapply wp_mono; [apply cleanup_pids_spec|].
  intros r σ3 (-> & _).
  apply wp_bind, wp_modify, wp_modify. simpl. eauto.
Qed.

(** X11: After a pass, whatever the state before it and whatever failed, the
    selection is valid: a handle selected before the pass stays selected,
    in the same list box, exactly when the new list of that box still has
    a record of it, and the selection is empty otherwise. *)
Theorem pass_leaves_valid_selection ws σ :
  ∃ σ',
    update_windows_lists ws σ = (Ok tt, σ') ∧
    selection_valid (self σ') ∧
    match selected_hwnd (self σ), selected_list (self σ) with
    | Some h, Some k =>
        if decide (h ∈ hwnd <$> list_of k (self σ'))
        then selected_hwnd (self σ') = Some h ∧ selected_list (self σ') = Some k
        else selected_hwnd (self σ') = None ∧ selected_list (self σ') = None
    | _, _ => selected_hwnd (self σ') = None ∧ selected_list (self σ') = None
    end.
Proof.
  destruct (wp_elim _ _ _ (wp_and _ _ _ _
              (update_windows_lists_prefs ws σ) (update_windows_lists_selection ws σ)))
    as (r & σ' & Hrun & (-> & _) & a & Ha).
  exists σ'. split; [exact Hrun|]. rewrite Ha.
  split; [apply restore_selection_valid|].
  destruct (selected_hwnd (self σ)) as [h|], (selected_list (self σ)) as [k|];
    try by (unfold restore_selection; try destruct (Some _)).
  assert (Hl : list_of k (restore_selection (Some h) (Some k) a) = list_of k a).
  { destruct (restore_selection_frame (Some h) (Some k) a) as (H1 & H2 & _).
    destruct k; unfold list_of; [exact H1|exact H2]. }
  rewrite Hl. destruct (decide _) as [Hin|Hin].
  - by apply restore_selection_kept.
  - by apply restore_selection_dropped.
Qed.

(** * The moves between the two lists *)

Lemma pop_first_Some h l win rest :
  pop_first h l = Some (win, rest) -> hwnd win = h ∧ l ≡ₚ win :: rest.
Proof.
  revert win rest. induction l as [|w l IH]; simpl; [done|]. intros win rest.
  destruct (Z.eqb_spec (hwnd w) h) as [E|E].
  - intros [= <- <-]. done.
  - destruct (pop_first h l) as [[w' r']|]; [|done]. intros [= <- <-].
    destruct (IH _ _ eq_refl) as [Hh Hp]. split; [done|].
    rewrite Hp. apply Permutation_swap.
Qed.

Lemma pop_first_None h l : pop_first h l = None -> h ∉ hwnd <$> l.
Proof.
  intros E Hin. destruct (pop_first_found h l) as (? & ? & ? & _); [exact Hin|congruence].
Qed.

Lemma move_window_to_fullscreen_run h σ :
  match pop_first h (windowed_windows (self σ)) with
  | Some (win, rest) =>
      move_window_to_fullscreen h σ =
        (Ok tt, set_self (mkApp rest (fullscreen_windows (self σ) ++ [win])
                                ({[h]} ∪ fullscreen_hwnds (self σ))
                                (Some (hwnd win)) (Some fullscreen)
                                (is_minimized (self σ))) σ)
  | None => move_window_to_fullscreen h σ = (Ok tt, σ)
  end.
Proof.
  unfold move_window_to_fullscreen, bind, gets. simpl.
  by destruct (pop_first _ _) as [[win rest]|].
Qed.

Lemma move_window_to_windowed_run h σ :
  match pop_first h (fullscreen_windows (self σ)) with
  | Some (win, rest) =>
      move_window_to_windowed h σ =
        (Ok tt, set_self (mkApp (windowed_windows (self σ) ++ [win]) rest
                                (fullscreen_hwnds (self σ) ∖ {[h]})
                                (Some (hwnd win)) (Some windowed)
                                (is_minimized (self σ))) σ)
  | None => move_window_to_windowed h σ = (Ok tt, σ)
  end.
Proof.
  unfold move_window_to_windowed, bind, gets. simpl.
  by destruct (pop_first _ _) as [[win rest]|].
Qed.

(** X12: A move between the two lists never raises and loses or duplicates no
    record: the two lists together hold the same records afterwards.  When
    the source list has a record of the handle, the handle joins (leaves)
    the membership set and is selected in the destination list; when it
    has none, the move changes nothing. *)
Theorem move_keeps_every_record h σ :
  (∃ σ', move_window_to_fullscreen h σ = (Ok tt, σ') ∧
     windowed_windows (self σ') ++ fullscreen_windows (self σ') ≡ₚ
       windowed_windows (self σ) ++ fullscreen_windows (self σ) ∧
     if decide (h ∈ hwnd <$> windowed_windows (self σ))
     then fullscreen_hwnds (self σ') = {[h]} ∪ fullscreen_hwnds (self σ) ∧
          selected_hwnd (self σ') = Some h ∧
          selected_list (self σ') = Some fullscreen ∧
          h ∈ hwnd <$> fullscreen_windows (self σ')
     else σ' = σ) ∧
  (∃ σ', move_window_to_windowed h σ = (Ok tt, σ') ∧
     windowed_windows (self σ') ++ fullscreen_windows (self σ') ≡ₚ
       windowed_windows (self σ) ++ fullscreen_windows (self σ) ∧
     if decide (h ∈ hwnd <$> fullscreen_windows (self σ))
     then fullscreen_hwnds (self σ') = fullscreen_hwnds (self σ) ∖ {[h]} ∧
          selected_hwnd (self σ') = Some h ∧
          selected_list (self σ') = Some windowed ∧
          h ∈ hwnd <$> windowed_windows (self σ')
     else σ' = σ).
Proof.
  split.
  - pose proof (move_window_to_fullscreen_run h σ) as Hrun.
    destruct (pop_first _ _) as [[win rest]|] eqn:E.
    + apply pop_first_Some in E as [Hh Hp]. eexists. split; [exact Hrun|]. simpl.
      split.
      * rewrite Hp. rewrite (Permutation_app_comm _ [win]). simpl.
        by rewrite Permutation_middle.
      * destruct (decide _) as [_|Hn].
        -- rewrite Hh. repeat split. rewrite fmap_app. set_solver.
        -- exfalso. apply Hn. rewrite Hp. set_solver.
    + apply pop_first_None in E. exists σ. split; [exact Hrun|]. split; [done|].
      by destruct (decide _).
  - pose proof (move_window_to_windowed_run h σ) as Hrun.
    destruct (pop_first _ _) as [[win rest]|] eqn:E.
    + apply pop_first_Some in E as [Hh Hp]. eexists. split; [exact Hrun|]. simpl.
      split.
      * rewrite Hp. rewrite <- app_assoc. done.
      * destruct (decide _) as [_|Hn].
        -- rewrite Hh. repeat split. rewrite fmap_app. set_solver.
        -- exfalso. apply Hn. rewrite Hp. set_solver.
    + apply pop_first_None in E. exists σ. split; [exact Hrun|]. split; [done|].
      by destruct (decide _).
Qed.

(** * Consistency across the actions *)

Lemma set_borderless_fullscreen_grows h mr σ :
  wp (set_borderless_fullscreen h mr) σ (fun r σ' =>
    self σ' = self σ ∧
    (forall k, is_Some (window_style_cache σ !! k) -> is_Some (window_style_cache σ' !! k)) ∧
    (r = Ok tt -> is_Some (window_style_cache σ' !! h))).
Proof.
  eapply wp_mono; [apply set_borderless_fullscreen_spec|].
  intros r σ' (Hs & _ & _ & Hc & _ & _). split; [exact Hs|].
  destruct (window_style_cache σ !! h) as [s|] eqn:E.
  - rewrite Hc. split; [done|]. intros _. rewrite E. eauto.
  - destruct Hc as [(_ & Hr & -> & _)|(_ & w & _ & ->)].
    + split; [done|]. intros ->. done.
    + split.
      * intros k Hk. destruct (decide (k = h)) as [->|Hne];
          [rewrite lookup_insert_eq|rewrite lookup_insert_ne]; eauto.
      * intros _. rewrite lookup_insert_eq. eauto.
Qed.

Lemma selected_in_Some k a h :
  selected_in k a = Some h -> selected_hwnd a = Some h ∧ selected_list a = Some k.
Proof.
  unfold selected_in. destruct (selected_hwnd a) as [h'|]; [|done].
  destruct (selected_list a) as [k'|]; [|done].
  destruct (negb _ && bool_decide _) eqn:E; [|done]. intros [= ->].
  apply andb_true_iff in E as [_ ->%bool_decide_eq_true]. done.
Qed.

Lemma keeps_consistent_wp act σ :
  wp act σ (fun r σ' => r = Ok tt ∧ consistent σ') -> keeps_consistent act σ.
Proof. auto. Qed.

Lemma transform_and_move_consistent h mr σ :
  consistent σ ->
  keeps_consistent
    (try_except (set_borderless_fullscreen h mr ;; move_window_to_fullscreen h) (ret tt)) σ.
Proof.
  intros [Hsel Hmem]. apply keeps_consistent_wp, wp_try_except, wp_bind.
  eapply wp_mono; [apply set_borderless_fullscreen_grows|].
  intros r σ1 (Hs & Hgrow & Hok).
  assert (Hc1 : consistent σ1).
  { split; [by rewrite Hs|]. intros k Hk. apply Hgrow, Hmem. by rewrite <- Hs. }
  destruct r as [[]|e]; [|by apply wp_ret].
  unfold wp. pose proof (move_window_to_fullscreen_run h σ1) as Hrun.
  destruct (pop_first _ _) as [[win rest]|] eqn:E; rewrite Hrun; simpl; [|done].
  split; [done|]. apply pop_first_Some in E as [Hh _]. split.
  - unfold selection_valid. simpl. rewrite fmap_app. set_solver.
  - simpl. intros k [->%elem_of_singleton|Hk]%elem_of_union; [by apply Hok|].
    by apply Hc1.
Qed.

Lemma revert_and_move_consistent h σ :
  consistent σ ->
  selected_in fullscreen (self σ) = Some h ->
  keeps_consistent
    (try_except (revert_to_windowed h ;; move_window_to_windowed h) (ret tt)) σ.
Proof.
  intros [Hsel Hmem] [Hh Hk]%selected_in_Some.
  apply keeps_consistent_wp, wp_try_except, wp_bind.
  eapply wp_mono; [apply revert_to_windowed_spec|].
  intros r σ1 (-> & Hs & _ & _ & Hc & _).
  unfold selection_valid in Hsel. rewrite Hh, Hk in Hsel. simpl in Hsel.
  rewrite <- Hs in Hsel.
  unfold wp. pose proof (move_window_to_windowed_run h σ1) as Hrun.
  destruct (pop_first _ _) as [[win rest]|] eqn:E; rewrite Hrun; simpl.
  - split; [done|]. apply pop_first_Some in E as [Hwin _]. split.
    + unfold selection_valid. simpl. rewrite fmap_app. set_solver.
    + simpl. intros k [Hin Hne]%elem_of_difference.
      rewrite Hc, lookup_delete_ne by set_solver. apply Hmem. by rewrite <- Hs.
  - by apply pop_first_None in E.
Qed.

Lemma context_change_display_frame monitor_rect σ :
  wp (context_change_display monitor_rect) σ (fun r σ' =>
    r = Ok tt ∧ os_only σ σ' ∧
    forall k, selected_in fullscreen (self σ) ≠ Some k ->
              os_windows (os σ') !! k = os_windows (os σ) !! k).
Proof.
  assert (Hrefl : os_only σ σ) by by repeat split.
  unfold context_change_display. apply wp_bind, wp_gets. cbv beta iota.
  destruct (selected_in fullscreen (self σ)) as [h|]; [|by apply wp_ret].
  destruct monitor_rect as [[[l t] r] b].
  apply wp_try_except, wp_SetWindowPos.
  - intros _. by apply wp_ret.
  - intros w _ Hw. split; [done|]. split.
    + repeat split. unfold owners. simpl. rewrite fmap_insert. simpl.
      apply insert_id. by rewrite lookup_fmap, Hw.
    + intros k Hk. simpl. apply lookup_insert_ne. congruence.
Qed.

(** X13: Every action of the window list keeps the program consistent, whatever
    the operating system answers: from a state in which the selection is
    valid and every member of the membership set has a cache entry, each of
    "make fullscreen", "make borderless" (default or given monitor),
    "revert" (button or context menu) and "change display" returns
    normally and leaves such a state. *)
Theorem actions_keep_consistency σ monitor_rect :
  consistent σ ->
  keeps_consistent make_fullscreen σ ∧
  keeps_consistent context_make_borderless σ ∧
  keeps_consistent (context_make_borderless_on_monitor monitor_rect) σ ∧
  keeps_consistent revert_windowed σ ∧
  keeps_consistent context_revert_to_normal σ ∧
  keeps_consistent (context_change_display monitor_rect) σ.
Proof.
  intros Hc.
  assert (Hfs : forall mr,
    keeps_consistent (a <- gets self ;;
      match selected_in windowed a with
      | Some h => try_except (set_borderless_fullscreen h mr ;;
                              move_window_to_fullscreen h) (ret tt)
      | None => ret tt
      end) σ).
  { intros mr. apply keeps_consistent_wp, wp_bind, wp_gets. cbv beta.
    destruct (selected_in windowed (self σ)) as [h|]; [|by split].
    by apply transform_and_move_consistent. }
  assert (Hrv : keeps_consistent (a <- gets self ;;
      match selected_in fullscreen a with
      | Some h => try_except (revert_to_windowed h ;; move_window_to_windowed h) (ret tt)
      | None => ret tt
      end) σ).
  { apply keeps_consistent_wp, wp_bind, wp_gets. cbv beta.
    destruct (selected_in fullscreen (self σ)) as [h|] eqn:E; [|by split].
    by apply revert_and_move_consistent. }
  split; [exact (Hfs None)|]. split; [exact (Hfs None)|].
  split; [exact (Hfs (Some monitor_rect))|]. split; [exact Hrv|]. split; [exact Hrv|].
  pose proof (context_change_display_frame monitor_rect σ) as (Hr & (Hcache & _ & Hs & _) & _).
  split; [exact Hr|]. destruct Hc as [Hsel Hmem].
  split; [by rewrite Hs|]. intros k Hk. rewrite Hcache. apply Hmem. by rewrite <- Hs.
Qed.

Lemma actions_keep_consistency_witness :
  consistent (demo_selected fail_style_write) ∧
  keeps_consistent make_fullscreen (demo_selected fail_style_write) ∧
  keeps_consistent revert_windowed demo_fullscreen.
Proof.
  assert (H1 : consistent (demo_selected fail_style_write)).
  { split; [unfold selection_valid; simpl; set_solver|]. simpl. set_solver. }
  split; [exact H1|]. split.
  - apply (actions_keep_consistency (demo_selected fail_style_write) (0, 0, 0, 0) H1).
  - assert (H2 : consistent demo_fullscreen).
    { apply (actions_keep_consistency (demo_selected []) (0, 0, 0, 0)).
      split; [unfold selection_valid; simpl; set_solver|]. simpl. set_solver. }
    apply (actions_keep_consistency demo_fullscreen (0, 0, 0, 0) H2).
Defined.

(** * Change of display *)

(** X14: "Change display" never raises and changes nothing but the window that
    is selected in the fullscreen list: cache, preferences (which keep the
    rectangle chosen when the window was transformed), lists, membership
    and every other window are as before.  The selected window keeps its
    style bits; it is either untouched (the call failed) or shown on the
    rectangle of the monitor. *)
Theorem change_display_moves_only_the_selected_window monitor_rect σ :
  ∃ σ',
    context_change_display monitor_rect σ = (Ok tt, σ') ∧
    os_only σ σ' ∧
    (forall k, selected_in fullscreen (self σ) ≠ Some k ->
               os_windows (os σ') !! k = os_windows (os σ) !! k) ∧
    (forall h, selected_in fullscreen (self σ) = Some h ->
       os_windows (os σ') !! h = os_windows (os σ) !! h ∨
       ∃ w, os_windows (os σ) !! h = Some w ∧
            os_windows (os σ') !! h =
              Some (mkWindow (win_style w) (win_exstyle w) monitor_rect
                             (win_owner w) true (win_text w))).
Proof.
  assert (H : wp (context_change_display monitor_rect) σ (fun r σ' =>
    forall h, selected_in fullscreen (self σ) = Some h ->
       os_windows (os σ') !! h = os_windows (os σ) !! h ∨
       ∃ w, os_windows (os σ) !! h = Some w ∧
            os_windows (os σ') !! h =
              Some (mkWindow (win_style w) (win_exstyle w) monitor_rect
                             (win_owner w) true (win_text w)))).
  { unfold context_change_display. apply wp_bind, wp_gets. cbv beta iota.
    destruct (selected_in fullscreen (self σ)) as [h|]; [|by apply wp_ret].
    destruct monitor_rect as [[[l t] r] b].
    apply wp_try_except, wp_SetWindowPos.
    - intros _. apply wp_ret. intros ? [= <-]. by left.
    - intros w _ Hw ? [= <-]. right. exists w. split; [exact Hw|]. simpl.
      rewrite lookup_insert_eq. rewrite orb_true_r.
      by replace (l + (r - l)) with r by lia; replace (t + (b - t)) with b by lia. }
  destruct (wp_elim _ _ _ (wp_and _ _ _ _
              (context_change_display_frame monitor_rect σ) H))
    as (r & σ' & Hrun & (-> & Hfr & Hothers) & Hsel).
  exists σ'. auto.
Qed.

Lemma selected_in_intro k a h :
  selected_hwnd a = Some h -> selected_list a = Some k -> h ≠ 0 ->
  selected_in k a = Some h.
Proof.
  intros Hh Hk Hne. unfold selected_in. rewrite Hh, Hk.
  rewrite bool_decide_eq_true_2 by done.
  by destruct (Z.eqb_spec h 0).
Qed.

Lemma selected_in_nonzero k a h : selected_in k a = Some h -> h ≠ 0.
Proof.
  unfold selected_in. destruct (selected_hwnd a) as [h'|]; [|done].
  destruct (selected_list a) as [k'|]; [|done].
  destruct (Z.eqb_spec h' 0); simpl; [done|].
  destruct (bool_decide _); [|done]. by intros [= <-].
Qed.

Lemma transform_and_move_calm σ h w mr :
  os_faults (os σ) = [] ->
  os_windows (os σ) !! h = Some w ->
  window_style_cache σ !! h = None ->
  h ∈ hwnd <$> windowed_windows (self σ) ->
  wp (try_except (set_borderless_fullscreen h mr ;; move_window_to_fullscreen h) (ret tt)) σ
    (fun r σ' =>
       r = Ok tt ∧
       os_faults (os σ') = [] ∧
       os_windows (os σ') !! h =
         Some (mkWindow (strip_style (win_style w)) (strip_exstyle (win_exstyle w))
                        (target_rect (os σ) mr) (win_owner w) true (win_text w)) ∧
       window_style_cache σ' = <[h := snapshot_of w]> (window_style_cache σ) ∧
       selected_hwnd (self σ') = Some h ∧
       selected_list (self σ') = Some fullscreen ∧
       fullscreen_hwnds (self σ') = {[h]} ∪ fullscreen_hwnds (self σ) ∧
       h ∈ hwnd <$> fullscreen_windows (self σ')).
Proof.
  intros Hf Hw Hc Hin.
  destruct (set_borderless_fullscreen_calm_run σ h mr w Hf Hw)
    as (σ1 & Hrun & Hf1 & _ & _ & Hw1 & Hc1 & _).
  rewrite Hc in Hc1.
  pose proof (wp_elim _ _ _ (set_borderless_fullscreen_spec h mr σ))
    as (r & σ1' & Hrun' & Hs1 & _).
  rewrite Hrun in Hrun'. injection Hrun' as <- <-.
  pose proof (move_window_to_fullscreen_run h σ1) as Hmove.
  rewrite Hs1 in Hmove.
  destruct (pop_first_found h _ Hin) as (win & rest & E & Hwin).
  rewrite E in Hmove.
  unfold wp, try_except, bind. rewrite Hrun. simpl. rewrite Hmove. simpl.
  rewrite Hwin. repeat split; try done.
  rewrite fmap_app. set_solver.
Qed.

Lemma revert_and_move_calm σ h w s e rc :
  os_faults (os σ) = [] ->
  os_windows (os σ) !! h = Some w ->
  window_style_cache σ !! h = Some (s, e, rc) ->
  h ∈ hwnd <$> fullscreen_windows (self σ) ->
  wp (try_except (revert_to_windowed h ;; move_window_to_windowed h) (ret tt)) σ
    (fun r σ' =>
       r = Ok tt ∧
       os_windows (os σ') !! h = Some (mkWindow s e rc (win_owner w) true (win_text w)) ∧
       window_style_cache σ' = delete h (window_style_cache σ) ∧
       selected_hwnd (self σ') = Some h ∧
       selected_list (self σ') = Some windowed ∧
       fullscreen_hwnds (self σ') = fullscreen_hwnds (self σ) ∖ {[h]}).
Proof.
  intros Hf Hw Hc Hin.
  destruct (wp_elim _ _ _ (wp_and _ _ _ _
              (revert_to_windowed_spec h σ) (revert_to_windowed_calm h σ w s e rc Hf Hw Hc)))
    as (r & σ1 & Hrun & (-> & Hs1 & _ & _ & Hc1 & _) & (_ & _ & Hw1 & _)).
  pose proof (move_window_to_windowed_run h σ1) as Hmove.
  rewrite Hs1 in Hmove.
  destruct (pop_first_found h _ Hin) as (win & rest & E & Hwin).
  rewrite E in Hmove.
  unfold wp, try_except, bind. rewrite Hrun. simpl. rewrite Hmove. simpl.
  rewrite Hwin. done.
Qed.

(** X15: The round trip of the user interface survives a change of display:
    when no operating-system call fails, "make fullscreen" on a window that
    has no cache entry, "change display" to any monitor and then "revert"
    give the window its style bits, extended-style bits and rectangle of
    before the first action; the cache is as it was, and the handle is not
    a member and is selected in the windowed list. *)
Theorem revert_undoes_transform_and_display_change σ h w monitor_rect :
  os_faults (os σ) = [] ->
  os_windows (os σ) !! h = Some w ->
  window_style_cache σ !! h = None ->
  selected_in windowed (self σ) = Some h ->
  h ∈ hwnd <$> windowed_windows (self σ) ->
  ∃ σ',
    (make_fullscreen ;; context_change_display monitor_rect ;; revert_windowed) σ
      = (Ok tt, σ') ∧
    os_windows (os σ') !! h =
      Some (mkWindow (win_style w) (win_exstyle w) (win_rect w)
                     (win_owner w) true (win_text w)) ∧
    window_style_cache σ' = window_style_cache σ ∧
    fullscreen_hwnds (self σ') = fullscreen_hwnds (self σ) ∖ {[h]} ∧
    selected_hwnd (self σ') = Some h ∧
    selected_list (self σ') = Some windowed.
Proof.
  intros Hf Hw Hc Hsel Hin. pose proof (selected_in_nonzero _ _ _ Hsel) as Hne.
  enough (wp (make_fullscreen ;; context_change_display monitor_rect ;; revert_windowed) σ
             (fun r σ' =>
                r = Ok tt ∧
                os_windows (os σ') !! h =
                  Some (mkWindow (win_style w) (win_exstyle w) (win_rect w)
                                 (win_owner w) true (win_text w)) ∧
                window_style_cache σ' = window_style_cache σ ∧
                fullscreen_hwnds (self σ') = fullscreen_hwnds (self σ) ∖ {[h]} ∧
                selected_hwnd (self σ') = Some h ∧
                selected_list (self σ') = Some windowed)) as Hwp.
  { destruct (wp_elim _ _ _ Hwp) as (r & σ' & Hrun & -> & Hrest). eauto. }
  apply wp_bind. unfold make_fullscreen. apply wp_bind, wp_gets. cbv beta. rewrite Hsel.
  eapply wp_mono; [by apply (transform_and_move_calm σ h w None)|].
  intros r σ1 (-> & Hf1 & Hw1 & Hc1 & Hh1 & Hk1 & Hm1 & Hin1).
  pose proof (selected_in_intro _ _ _ Hh1 Hk1 Hne) as Hsel1.
  apply wp_bind. unfold context_change_display. apply wp_bind, wp_gets. cbv beta.
  rewrite Hsel1. destruct monitor_rect as [[[l t] r] b].
  apply wp_try_except, wp_SetWindowPos; [intros Hfail; no_fault Hf1|].
  intros w1 _ Hw1'. rewrite Hw1 in Hw1'. injection Hw1' as <-. simpl.
  unfold revert_windowed. apply wp_bind, wp_gets. cbv beta. simpl. rewrite Hsel1.
  eapply wp_mono.
  - eapply (revert_and_move_calm _ h _ (win_style w) (win_exstyle w) (win_rect w)).
    + simpl. by rewrite Hf1.
    + simpl. apply lookup_insert_eq.
    + simpl. rewrite Hc1. apply lookup_insert_eq.
    + exact Hin1.
  - simpl. intros r' σ3 (-> & Hw3 & Hc3 & Hh3 & Hk3 & Hm3).
    split; [done|]. split; [exact Hw3|].
    split; [by rewrite Hc3, Hc1, delete_insert_id|].
    split; [|done]. rewrite Hm3, Hm1. set_solver.
Qed.

Lemma revert_undoes_transform_and_display_change_witness :
  ∃ σ',
    (make_fullscreen ;; context_change_display (1920, 0, 3840, 1080) ;; revert_windowed)
      (demo_selected []) = (Ok tt, σ') ∧
    os_windows (os σ') !! 1 = Some demo_window ∧
    window_style_cache σ' = ∅ ∧
    fullscreen_hwnds (self σ') = ∅ ∖ {[1]} ∧
    selected_hwnd (self σ') = Some 1 ∧
    selected_list (self σ') = Some windowed.
Proof.
  apply (revert_undoes_transform_and_display_change
           (demo_selected []) 1 demo_window (1920, 0, 3840, 1080)).
  - reflexivity.
  - vm_compute; reflexivity.
  - vm_compute; reflexivity.
  - vm_compute; reflexivity.
  - simpl. set_solver.
Defined.
(** * [get_monitors] *)

Lemma get_monitors_loop_run infos : forall acc σ,
  ∃ σ', ticked σ σ' ∧
    get_monitors_loop infos acc σ =
      match first_fault (take (length infos) (os_faults (os σ))) with
      | None => (Ok (acc ++ (monitor_entry <$> infos), false), σ')
      | Some i => (Ok (acc ++ (monitor_entry <$> take i infos), true), σ')
      end.
Proof.
  induction infos as [|hMonitor rest IH]; intros acc σ.
  - exists σ. split; [apply ticked_refl|]. simpl. by rewrite app_nil_r.
  - simpl. unfold bind at 1, try_except, bind at 1, GetMonitorInfo, win32, fault_now.
    destruct (os_faults (os σ)) as [|[] s] eqn:E; simpl.
    + destruct (IH (acc ++ [monitor_entry hMonitor]) (set_os (consume (os σ)) σ))
        as (σ' & Ht & Hrun).
      exists σ'. split; [by apply ticked_tick_l|].
      unfold monitor_entry in *. rewrite Hrun. simpl. rewrite E. simpl.
      rewrite take_nil. simpl. by rewrite <- app_assoc.
    + exists (tick σ). split; [apply ticked_tick|]. by rewrite app_nil_r.
    + destruct (IH (acc ++ [monitor_entry hMonitor]) (set_os (consume (os σ)) σ))
        as (σ' & Ht & Hrun).
      exists σ'. split; [by apply ticked_tick_l|].
      unfold monitor_entry in *. rewrite Hrun. simpl. rewrite E. simpl.
      destruct (first_fault (take (length rest) s)); simpl; by rewrite <- app_assoc.
Qed.

(** X16: [get_monitors] returns normally whatever call of the enumeration
    fails and changes nothing but the fault script.  Its list holds one
    entry for each monitor answered before the first failing call, with
    "Unknown" for a missing device name and an empty rectangle for a
    missing one; when a call failed (the enumeration itself or the query
    of a monitor), the entry of the primary display, with the size of the
    screen, is appended to the entries made so far.  ([GetSystemMetrics]
    is taken to answer always.) *)
Theorem get_monitors_lists_answered_monitors displays σ :
  ∃ σ', ticked σ σ' ∧
    get_monitors displays σ =
      match first_fault (take (S (length displays)) (os_faults (os σ))) with
      | None => (Ok (monitor_entry <$> displays), σ')
      | Some i => (Ok ((monitor_entry <$> take (pred i) displays) ++ [primary_entry (os σ)]),
                   σ')
      end.
Proof.
  unfold get_monitors, bind at 1, try_except, bind at 1, EnumDisplayMonitors, win32,
    fault_now.
  destruct (os_faults (os σ)) as [|[] s] eqn:E; simpl.
  - destruct (get_monitors_loop_run displays [] (set_os (consume (os σ)) σ))
      as (σ' & Ht & Hrun).
    exists σ'. split; [by apply ticked_tick_l|].
    rewrite Hrun. simpl. rewrite E. simpl. by rewrite take_nil.
  - exists (tick σ). split; [apply ticked_tick|]. done.
  - destruct (get_monitors_loop_run displays [] (set_os (consume (os σ)) σ))
      as (σ' & Ht & Hrun).
    exists σ'. split; [by apply ticked_tick_l|].
    rewrite Hrun. simpl. rewrite E. simpl.
    destruct (first_fault (take (length displays) s)) as [i|]; simpl; [|done].
    unfold bind, GetSystemMetrics, gets, ret, primary_entry. simpl.
    destruct Ht as (_ & _ & Hscreen & _). simpl in Hscreen. by rewrite Hscreen.
Qed.

(** * Enumeration without faults *)

Lemma tick_calm σ : os_faults (os σ) = [] -> tick σ = σ.
Proof. destruct σ as [[wins ps sc fs] c p a i]. simpl. by intros ->. Qed.

Lemma callback_calm h acc σ :
  os_faults (os σ) = [] ->
  callback h acc σ = (Ok (acc ++ option_list (listed (os σ) h)), σ).
Proof.
  destruct σ as [[wins ps sc fs] c p a i]. simpl. intros ->.
  unfold callback, WindowInfo_new, get_process_info, try_except, bind, ret,
    IsWindowVisible, GetWindowText, GetWindowThreadProcessId, try_except_psutil,
    psutil_Process_name, query, win32, fault_now, consume, set_os,
    listed, name_of, resolved_name.
  simpl.
  destruct (wins !! h) as [[st ex rc ow vis txt]|] eqn:E; simpl;
    [|by rewrite app_nil_r].
  destruct vis; simpl; [|by rewrite app_nil_r].
  rewrite E. simpl.
  destruct (String.eqb txt "" || isspace txt); simpl; [by rewrite app_nil_r|].
  rewrite E. simpl. rewrite E. simpl.
  destruct ow as [q|]; simpl; [|by rewrite app_nil_r].
  destruct (ps !! q) as [[n|]|]; simpl; try done.
  by destruct n.
Qed.

Lemma EnumWindows_from_calm hs : forall acc σ,
  os_faults (os σ) = [] ->
  EnumWindows_from hs callback acc σ = (Ok (acc ++ omap (listed (os σ)) hs), σ).
Proof.
  induction hs as [|h hs IH]; intros acc σ Hf; simpl.
  - by rewrite app_nil_r.
  - unfold bind. rewrite callback_calm by done. rewrite IH by done.
    rewrite <- app_assoc. by destruct (listed (os σ) h).
Qed.

Lemma listed_hwnd o h wi : listed o h = Some wi -> hwnd wi = h.
Proof.
  unfold listed. destruct (os_windows o !! h) as [win|]; [|done].
  destruct (_ && _); [|done]. destruct (win_owner win); [|done]. by intros [= <-].
Qed.

Lemma enum_windows_calm σ :
  os_faults (os σ) = [] ->
  enum_windows σ =
    (Ok (omap (listed (os σ)) (fst <$> map_to_list (os_windows (os σ)))), σ).
Proof.
  intros Hf. unfold enum_windows, EnumWindows, try_except, bind, win32, fault_now.
  rewrite Hf. simpl. fold (tick σ). rewrite (tick_calm σ Hf).
  rewrite EnumWindows_from_calm by done. done.
Qed.

Lemma listed_NoDup o : NoDup (omap (listed o) (fst <$> map_to_list (os_windows o))).
Proof.
  assert (Hnd : NoDup (fst <$> map_to_list (os_windows o)))
    by apply NoDup_fst_map_to_list.
  induction Hnd as [|h hs Hh Hnd IH]; simpl; [constructor|].
  destruct (listed o h) as [wi|] eqn:E; [|exact IH].
  constructor; [|exact IH].
  intros (h' & Hh' & E')%list_elem_of_omap.
  apply listed_hwnd in E, E'. congruence.
Qed.

Lemma elem_of_listed o wi :
  wi ∈ omap (listed o) (fst <$> map_to_list (os_windows o)) <->
  listed o (hwnd wi) = Some wi.
Proof.
  rewrite list_elem_of_omap. split.
  - intros (h & _ & E). by rewrite (listed_hwnd _ _ _ E).
  - intros E. exists (hwnd wi). split; [|exact E].
    unfold listed in E.
    destruct (os_windows o !! hwnd wi) as [win|] eqn:Ew; [|done].
    apply list_elem_of_fmap. exists (hwnd wi, win). split; [done|].
    by apply elem_of_map_to_list.
Qed.

(** X17: When no call fails, the enumeration leaves the world as it is and
    returns exactly the records of the visible windows that have a title
    that is not blank and a resolved owner: one record for each, with the
    handle, the process id, the title and the name of the process
    ("Unknown" when the process is gone, is denied or has an empty name),
    and no other record. *)
Theorem enumeration_is_exact_without_faults σ :
  os_faults (os σ) = [] ->
  ∃ ws,
    enum_windows σ = (Ok ws, σ) ∧
    NoDup ws ∧
    forall wi, wi ∈ ws <-> listed (os σ) (hwnd wi) = Some wi.
Proof.
  intros Hf. eexists. split; [by apply enum_windows_calm|].
  split; [apply listed_NoDup|apply elem_of_listed].
Qed.

Lemma enumeration_is_exact_without_faults_witness :
  ∃ ws,
    enum_windows (demo_world []) = (Ok ws, demo_world []) ∧
    NoDup ws ∧
    forall wi, wi ∈ ws <-> listed (demo_os []) (hwnd wi) = Some wi.
Proof.
  apply (enumeration_is_exact_without_faults (demo_world [])). reflexivity.
Defined.

(** * A refresh without faults *)

Lemma filter_split_elem {A} (f : A -> bool) (l : list A) x :
  x ∈ List.filter (fun y => negb (f y)) l ++ List.filter f l <-> x ∈ l.
Proof.
  rewrite elem_of_app, !list_elem_of_In, !filter_In, <- !list_elem_of_In.
  destruct (f x); simpl; naive_solver.
Qed.

Lemma filter_split_NoDup {A} (f : A -> bool) (l : list A) :
  NoDup l -> NoDup (List.filter (fun y => negb (f y)) l ++ List.filter f l).
Proof.
  intros Hnd%NoDup_ListNoDup.
  apply NoDup_app. split; [by apply NoDup_ListNoDup, List.NoDup_filter|].
  split; [|by apply NoDup_ListNoDup, List.NoDup_filter].
  intros x [_ H1]%list_elem_of_In%filter_In [_ H2]%list_elem_of_In%filter_In.
  by rewrite H2 in H1.
Qed.

(** X18: A refresh none of whose calls fails lists the desktop: afterwards the
    windowed list and the fullscreen list together hold exactly the
    records of the visible windows with a title that is not blank and a
    resolved owner, each record once, and the fullscreen list holds the
    ones among them whose handle is a member of the membership set. *)
Theorem refresh_lists_the_listed_windows σ :
  os_faults (os σ) = [] ->
  ∃ σ',
    refresh_windows σ = (Ok tt, σ') ∧
    NoDup (windowed_windows (self σ') ++ fullscreen_windows (self σ')) ∧
    (forall wi, wi ∈ windowed_windows (self σ') ++ fullscreen_windows (self σ') <->
                listed (os σ) (hwnd wi) = Some wi) ∧
    (forall wi, wi ∈ fullscreen_windows (self σ') <->
                listed (os σ) (hwnd wi) = Some wi ∧
                hwnd wi ∈ fullscreen_hwnds (self σ')).
Proof.
  intros Hf.
  set (ws := omap (listed (os σ)) (fst <$> map_to_list (os_windows (os σ)))).
  destruct (wp_elim _ _ _ (update_windows_lists_spec ws σ _ (reapply_frame ws σ)))
    as (r & σ' & Hrun & -> & σ1 & _ & _ & _ & Hfs & Hwd & Hm' & _).
  exists σ'. split.
  { unfold refresh_windows, bind. rewrite enum_windows_calm by done. exact Hrun. }
  rewrite Hfs, Hwd. split; [apply filter_split_NoDup, listed_NoDup|].
  split; [intros wi; rewrite filter_split_elem; apply elem_of_listed|].
  intros wi. rewrite list_elem_of_In, filter_In, <- list_elem_of_In.
  unfold ws at 1. rewrite elem_of_listed, Hm'.
  split; intros [Hl Ht]; (split; [exact Hl|]).
  - apply tracked_spec in Ht as [Hmem Hsome].
    apply elem_of_intersection. split; [done|].
    apply elem_of_tracked_handles. split; [done|]. split; [done|].
    exists wi. split; [|done]. by apply elem_of_listed.
  - apply elem_of_intersection in Ht
      as [_ (? & ? & w' & Hw' & Hh)%elem_of_tracked_handles].
    by apply tracked_spec.
Qed.

Lemma refresh_lists_the_listed_windows_witness :
  ∃ σ',
    refresh_windows demo_two_windows = (Ok tt, σ') ∧
    NoDup (windowed_windows (self σ') ++ fullscreen_windows (self σ')) ∧
    (forall wi, wi ∈ windowed_windows (self σ') ++ fullscreen_windows (self σ') <->
                listed (os demo_two_windows) (hwnd wi) = Some wi) ∧
    (forall wi, wi ∈ fullscreen_windows (self σ') <->
                listed (os demo_two_windows) (hwnd wi) = Some wi ∧
                hwnd wi ∈ fullscreen_hwnds (self σ')).
Proof.
  apply (refresh_lists_the_listed_windows demo_two_windows). reflexivity.
Defined.
